(** * GuardNet DNS filter: a shallow embedding of the request path, the
      threat table, the response cache and the feed ingestion loop.

    Conventions of the embedding.
    - Go strings are byte strings ([string] of the Standard Library).  The
      functions of package [strings] are modelled on ASCII: [ToLower] maps
      'A'..'Z' only and white space is the ASCII white space.  They agree
      with Go on every ASCII input; a theorem whose statement depends on
      them for the text of a feed assumes that text to be ASCII.
    - [time.Time] and [time.Duration] are integers counting nanoseconds; the
      zero [time.Time] is [0].  A function that reads [time.Now()] once
      takes the reading; a parser that reads it for every entry takes a
      clock, the sequence of its readings.
    - A Go [error] is an [option string]: [None] is [nil].
    - What the database driver answers to a statement is not decided by the
      program: the database carries it as an oracle, one possible error for
      each lookup and for each step of a write.
    - Confidence scores are stored by PostgreSQL as [DECIMAL(3,2)]
      (init.sql); they are modelled exactly, as integers counting
      hundredths, so [0.70] is [70].
    - State is passed explicitly: every operation that mutates a Go object
      returns the new object next to its results. *)

From Stdlib Require Import ZArith Ascii String List Bool Lia.
From Stdlib Require Import Decimal DecimalString DecimalPos DecimalN.
From stdpp Require Import base gmap strings list.

Open Scope string_scope.

(** ** Package strings *)
Module strings.

Definition isUpper (c : ascii) : bool :=
  (N.leb 65 (N_of_ascii c)) && (N.leb (N_of_ascii c) 90).

Definition isLower (c : ascii) : bool :=
  (N.leb 97 (N_of_ascii c)) && (N.leb (N_of_ascii c) 122).

Definition isDigit (c : ascii) : bool :=
  (N.leb 48 (N_of_ascii c)) && (N.leb (N_of_ascii c) 57).

(* unicode.IsSpace on ASCII: '\t', '\n', '\v', '\f', '\r', ' ' *)
Definition isSpace (c : ascii) : bool :=
  ((N.leb 9 (N_of_ascii c)) && (N.leb (N_of_ascii c) 13))
  || N.eqb (N_of_ascii c) 32.

(* every byte is below utf8.RuneSelf *)
Definition isASCII (s : string) : bool :=
  forallb (fun c => N.ltb (N_of_ascii c) 128) (list_ascii_of_string s).

Definition lowerByte (c : ascii) : ascii :=
  if isUpper c then ascii_of_N (N_of_ascii c + 32) else c.

Fixpoint ToLower (s : string) : string :=
  match s with
  | EmptyString => EmptyString
  | String c s' => String (lowerByte c) (ToLower s')
  end.

Definition HasPrefix (s pre : string) : bool := String.prefix pre s.

Definition HasSuffix (s suf : string) : bool :=
  (String.length suf <=? String.length s)%nat
  && String.eqb (substring (String.length s - String.length suf) (String.length suf) s) suf.

Definition TrimSuffix (s suf : string) : string :=
  if HasSuffix s suf then substring 0 (String.length s - String.length suf) s else s.

Fixpoint Contains (s substr : string) : bool :=
  String.prefix substr s
  || match s with
     | EmptyString => false
     | String _ s' => Contains s' substr
     end.

(* strings.Split(s, sep) for a one-byte separator *)
Fixpoint Split (s : string) (sep : ascii) : list string :=
  match s with
  | EmptyString => [EmptyString]
  | String c s' =>
      if Ascii.eqb c sep then EmptyString :: Split s' sep
      else match Split s' sep with
           | [] => [String c EmptyString]
           | h :: t => String c h :: t
           end
  end.

Fixpoint Join (elems : list string) (sep : string) : string :=
  match elems with
  | [] => EmptyString
  | [x] => x
  | x :: rest => x ++ sep ++ Join rest sep
  end.

(* strings.Replace(s, old, new, -1) for one-byte old and new *)
Fixpoint Replace (s : string) (old new : ascii) : string :=
  match s with
  | EmptyString => EmptyString
  | String c s' => String (if Ascii.eqb c old then new else c) (Replace s' old new)
  end.

Fixpoint TrimLeftSpace (s : string) : string :=
  match s with
  | EmptyString => EmptyString
  | String c s' => if isSpace c then TrimLeftSpace s' else s
  end.

Fixpoint TrimRightSpace (s : string) : string :=
  match s with
  | EmptyString => EmptyString
  | String c s' =>
      let r := TrimRightSpace s' in
      if isSpace c && String.eqb r EmptyString then EmptyString else String c r
  end.

Definition TrimSpace (s : string) : string := TrimRightSpace (TrimLeftSpace s).

(* strings.Fields: the maximal runs of non-space bytes *)
Fixpoint Fields (s : string) : list string :=
  match s with
  | EmptyString => []
  | String c s' =>
      if isSpace c then Fields s'
      else match s' with
           | EmptyString => [String c EmptyString]
           | String c' _ =>
               if isSpace c' then String c EmptyString :: Fields s'
               else match Fields s' with
                    | [] => [String c EmptyString]
                    | h :: t => String c h :: t
                    end
           end
  end.

End strings.

(** ** Package time *)
Module time.

Definition Time := Z.
Definition Duration := Z.

Definition Nanosecond : Duration := 1%Z.
Definition Millisecond : Duration := 1000000%Z.
Definition Second : Duration := 1000000000%Z.
Definition Minute : Duration := (60 * Second)%Z.
Definition Hour : Duration := (60 * Minute)%Z.

Definition maxDuration : Duration := (2 ^ 63 - 1)%Z.
Definition minDuration : Duration := (- 2 ^ 63)%Z.

Definition IsZero (t : Time) : bool := Z.eqb t 0.
Definition After (t u : Time) : bool := Z.ltb u t.
Definition Before (t u : Time) : bool := Z.ltb t u.
Definition Add (t : Time) (d : Duration) : Time := (t + d)%Z.

(* Time.Sub saturates at the ends of the Duration range. *)
Definition Sub (t u : Time) : Duration :=
  Z.max minDuration (Z.min maxDuration (t - u)).

(* time.Since(t), the clock reading [now] *)
Definition Since (now t : Time) : Duration := Sub now t.

(** The readings of [time.Now()] made during one call, in order: [clock n]
    is reading number [n], counted from 0. *)
Definition Clock := nat -> Time.

End time.

Definition error := option string.

(** ** Package fmt and the integers of Go *)
Module fmt.

(* an int64 after an arithmetic operation: the result modulo 2^64 *)
Definition wrapInt64 (z : Z) : Z := ((z + 2 ^ 63) mod 2 ^ 64 - 2 ^ 63)%Z.

(* fmt.Sprintf("%d", n) *)
Definition SprintInt (n : Z) : string := NilZero.string_of_int (Z.to_int n).

End fmt.

(** ** internal/cache/mock.go *)
Module cache.
Import time.

Record mockValue := MockValue {
  value : string;
  expiration : Time
}.

Record MockRedisClient := MockRedis {
  data : gmap string mockValue;
  closed : bool
}.

Definition NewMockRedisClient : MockRedisClient :=
  {| data := ∅; closed := false |}.

Definition Close (m : MockRedisClient) : MockRedisClient :=
  {| data := data m; closed := true |}.

Definition expired (now : Time) (v : mockValue) : bool :=
  negb (IsZero (expiration v)) && After now (expiration v).

Definition Get (now : Time) (m : MockRedisClient) (key : string)
  : string * error * MockRedisClient :=
  if closed m then (EmptyString, Some "client is closed", m)
  else match data m !! key with
       | None => (EmptyString, Some ("key not found: " ++ key), m)
       | Some v =>
           if expired now v
           then (EmptyString, Some ("key not found: " ++ key),
                 {| data := delete key (data m); closed := closed m |})
           else (value v, None, m)
       end.

Definition expiry (now : Time) (expiration : Duration) : Time :=
  if Z.ltb 0 expiration then Add now expiration else 0%Z.

Definition Set_ (now : Time) (m : MockRedisClient) (key val : string)
  (expiration : Duration) : error * MockRedisClient :=
  if closed m then (Some "client is closed", m)
  else (None,
        {| data := <[key := {| value := val; expiration := expiry now expiration |}]> (data m);
           closed := closed m |}).

Definition Delete (m : MockRedisClient) (key : string) : error * MockRedisClient :=
  if closed m then (Some "client is closed", m)
  else (None, {| data := delete key (data m); closed := closed m |}).

Definition Exists (now : Time) (m : MockRedisClient) (key : string)
  : bool * error * MockRedisClient :=
  if closed m then (false, Some "client is closed", m)
  else match data m !! key with
       | None => (false, None, m)
       | Some v =>
           if expired now v
           then (false, None, {| data := delete key (data m); closed := closed m |})
           else (true, None, m)
       end.

Definition SetNX (now : Time) (m : MockRedisClient) (key val : string)
  (expiration : Duration) : bool * error * MockRedisClient :=
  if closed m then (false, Some "client is closed", m)
  else
    let live :=
      match data m !! key with
      | Some existing => IsZero (cache.expiration existing) || Before now (cache.expiration existing)
      | None => false
      end in
    if live then (false, None, m)
    else (true, None,
          {| data := <[key := {| value := val; expiration := expiry now expiration |}]> (data m);
             closed := closed m |}).

(** parseInt64: the loop over the bytes of [s] ([range] yields a rune that is
    no digit for every byte outside ASCII). *)
Fixpoint parseDigits (s : string) (result : Z) : Z * error :=
  match s with
  | EmptyString => (result, None)
  | String c s' =>
      if strings.isDigit c
      then parseDigits s' (fmt.wrapInt64 (result * 10 + (Z.of_N (N_of_ascii c) - 48)))
      else (0%Z, Some "invalid number")
  end.

Definition parseInt64 (s : string) : Z * error := parseDigits s 0%Z.

Definition Increment (now : Time) (m : MockRedisClient) (key : string)
  : Z * error * MockRedisClient :=
  if closed m then (0%Z, Some "client is closed", m)
  else
    let count :=
      match data m !! key with
      | None => 1%Z
      | Some v =>
          if expired now v then 1%Z
          else match parseInt64 (value v) with
               | (existing, None) => fmt.wrapInt64 (existing + 1)
               | (_, Some _) => 1%Z
               end
      end in
    (* value.expiration of the zero mockValue when the key is missing *)
    let exp := match data m !! key with Some v => expiration v | None => 0%Z end in
    (count, None,
     {| data := <[key := {| value := fmt.SprintInt count; expiration := exp |}]> (data m);
        closed := closed m |}).

Definition IncrementWithExpiry (now : Time) (m : MockRedisClient) (key : string)
  (expiration : Duration) : Z * error * MockRedisClient :=
  if closed m then (0%Z, Some "client is closed", m)
  else
    let count :=
      match data m !! key with
      | None => 1%Z
      | Some v =>
          if IsZero (cache.expiration v) || Before now (cache.expiration v)
          then match parseInt64 (value v) with
               | (existing, None) => fmt.wrapInt64 (existing + 1)
               | (_, Some _) => 1%Z
               end
          else 1%Z
      end in
    (count, None,
     {| data := <[key := {| value := fmt.SprintInt count;
                            expiration := expiry now expiration |}]> (data m);
        closed := closed m |}).

(* time.Until(t) *)
Definition Until (now t : Time) : Duration := Sub t now.

Definition GetTTL (now : Time) (m : MockRedisClient) (key : string)
  : Duration * error * MockRedisClient :=
  if closed m then (0%Z, Some "client is closed", m)
  else match data m !! key with
       | None => ((-2 * Second)%Z, None, m)
       | Some v =>
           if IsZero (expiration v) then ((-1 * Second)%Z, None, m)
           else
             let ttl := Until now (expiration v) in
             if Z.leb ttl 0
             then ((-2 * Second)%Z, None,
                   {| data := delete key (data m); closed := closed m |})
             else (ttl, None, m)
       end.

(* fmt.Sprintf("%s:set:%s", key, member) *)
Definition setKey (key member : string) : string := key ++ ":set:" ++ member.

Definition AddToSet (now : Time) (m : MockRedisClient) (key member : string)
  : error * MockRedisClient :=
  Set_ now m (setKey key member) "1" 0%Z.

Definition IsInSet (now : Time) (m : MockRedisClient) (key member : string)
  : bool * error * MockRedisClient :=
  Exists now m (setKey key member).

Definition GetSetMembers (m : MockRedisClient) (key : string) : list string * error :=
  ([], None).

Definition GetHashField (m : MockRedisClient) (key field : string) : string * error :=
  (EmptyString, Some ("hash field not found: " ++ key ++ "." ++ field)).

Definition FlushDB (m : MockRedisClient) : error * MockRedisClient :=
  (None, {| data := ∅; closed := closed m |}).

End cache.

(** ** internal/feeds: threat_feeds.go and adblock.go *)
Module feeds.
Import strings time.

Record ThreatFeed := {
  Name : string;
  URL : string;
  Type_ : string;
  UpdateFreq : Duration;
  LastUpdated : Time;
  IsEnabled : bool;
  RequiresAuth : bool
}.

Record ThreatEntry := {
  Domain : string;
  ThreatType : string;
  Confidence : Z;            (* hundredths: 0.85 is 85 *)
  Source : string;
  FirstSeen : Time;
  LastSeen : Time;
  IsActive : bool;
  Metadata : gmap string string
}.

Record FeedManager := { feeds : list ThreatFeed }.

Definition NewFeedManager : FeedManager :=
  {| feeds :=
       [ {| Name := "URLhaus"; URL := "https://urlhaus.abuse.ch/downloads/json/";
            Type_ := "json"; UpdateFreq := (5 * Minute)%Z; LastUpdated := 0%Z;
            IsEnabled := true; RequiresAuth := false |};
         {| Name := "OpenPhish"; URL := "https://openphish.com/feed.txt";
            Type_ := "txt"; UpdateFreq := (30 * Minute)%Z; LastUpdated := 0%Z;
            IsEnabled := true; RequiresAuth := false |};
         {| Name := "PhishTank"; URL := "http://data.phishtank.com/data/online-valid.json";
            Type_ := "json"; UpdateFreq := (60 * Minute)%Z; LastUpdated := 0%Z;
            IsEnabled := false; RequiresAuth := false |} ] |}.

(** What one cycle of the ingestion loop did: the entries it returns, the
    feeds it issued an HTTP request for (by name, in order), and the manager
    as the cycle leaves it. *)
Record Cycle (M : Type) := {
  entries : list ThreatEntry;
  requested : list string;
  manager : M
}.
Arguments entries {M} _.
Arguments requested {M} _.
Arguments manager {M} _.

(** The body of [for _, feed := range fm.feeds].  [feed] is the range
    variable, a copy of the slice element; the body assigns its
    [LastUpdated] field.  The third component is the range variable when the
    body ends. *)
Definition updateFeedsBody (now : Time)
  (updateFeed : ThreatFeed -> list ThreatEntry * error)
  (feed : ThreatFeed) (allEntries : list ThreatEntry) (reqs : list string)
  : list ThreatEntry * list string * ThreatFeed :=
  if negb (IsEnabled feed) then (allEntries, reqs, feed)
  else if Z.ltb (Since now (LastUpdated feed)) (UpdateFreq feed)
  then (allEntries, reqs, feed)
  else match updateFeed feed with
       | (_, Some _) => (allEntries, (reqs ++ [Name feed])%list, feed)
       | (got, None) =>
           ((allEntries ++ got)%list, (reqs ++ [Name feed])%list,
            {| Name := Name feed; URL := URL feed; Type_ := Type_ feed;
               UpdateFreq := UpdateFreq feed; LastUpdated := now;
               IsEnabled := IsEnabled feed; RequiresAuth := RequiresAuth feed |})
       end.

(** The range loop: each iteration copies the next element of the slice into
    the range variable and runs the body on the copy; nothing is stored back
    into the slice. *)
Fixpoint rangeFeeds (now : Time)
  (updateFeed : ThreatFeed -> list ThreatEntry * error)
  (slice : list ThreatFeed) (allEntries : list ThreatEntry) (reqs : list string)
  : list ThreatEntry * list string :=
  match slice with
  | [] => (allEntries, reqs)
  | elem :: rest =>
      let feed := elem in
      let '(allEntries', reqs', _) := updateFeedsBody now updateFeed feed allEntries reqs in
      rangeFeeds now updateFeed rest allEntries' reqs'
  end.

Definition UpdateAllFeeds (now : Time)
  (updateFeed : ThreatFeed -> list ThreatEntry * error)
  (fm : FeedManager) : Cycle FeedManager :=
  let '(allEntries, reqs) := rangeFeeds now updateFeed (feeds fm) [] [] in
  {| entries := allEntries; requested := reqs; manager := fm |}.

(** isValidDomain: the length test and the regular expression
    [^L(\.L)*$] with [L = [a-zA-Z0-9]([a-zA-Z0-9\-]{0,61}[a-zA-Z0-9])?].
    A dot is not in the classes of [L], so the expression matches exactly
    when every dot-separated label matches [L]. *)
Definition isAlnum (c : ascii) : bool := isLower c || isUpper c || isDigit c.

Definition isAlnumHyphen (c : ascii) : bool :=
  isAlnum c || Ascii.eqb c "-"%char.

Definition matchLabel (l : string) : bool :=
  match list_ascii_of_string l with
  | [] => false
  | [c] => isAlnum c
  | c :: rest =>
      isAlnum c
      && (length rest <=? 62)%nat
      && forallb isAlnumHyphen (removelast rest)
      && isAlnum (List.last rest c)
  end.

Definition domainRegex (domain : string) : bool :=
  forallb matchLabel (Split domain "."%char).

Definition isValidDomain (domain : string) : bool :=
  if (String.length domain =? 0)%nat || (255 <? String.length domain)%nat
  then false
  else domainRegex domain.

Record AdBlockFeed := {
  ab_Name : string;
  ab_URL : string;
  Format : string;
  ab_UpdateFreq : Duration;
  ab_LastUpdated : Time;
  ab_IsEnabled : bool;
  Description : string
}.

Record AdBlockManager := { ab_feeds : list AdBlockFeed }.

Definition adFeed (n u f : string) (freq : Duration) (d : string) : AdBlockFeed :=
  {| ab_Name := n; ab_URL := u; Format := f; ab_UpdateFreq := freq;
     ab_LastUpdated := 0%Z; ab_IsEnabled := true; Description := d |}.

Definition NewAdBlockManager : AdBlockManager :=
  {| ab_feeds :=
       [ adFeed "EasyList" "https://easylist.to/easylist/easylist.txt" "easylist"
           (24 * Hour)%Z "Primary ad blocking list";
         adFeed "EasyPrivacy" "https://easylist.to/easylist/easyprivacy.txt" "easylist"
           (24 * Hour)%Z "Privacy protection list";
         adFeed "AdGuard Base" "https://filters.adtidy.org/extension/chromium/filters/2.txt"
           "easylist" (12 * Hour)%Z "AdGuard base filter";
         adFeed "StevenBlack Hosts"
           "https://raw.githubusercontent.com/StevenBlack/hosts/master/hosts" "hosts"
           (24 * Hour)%Z "Unified hosts file with ads and malware";
         adFeed "Peter Lowe's List"
           "https://pgl.yoyo.org/adservers/serverlist.php?hostformat=hosts&showintro=0&mimetype=plaintext"
           "hosts" (24 * Hour)%Z "Personal ad server list";
         adFeed "Dan Pollock's Hosts" "https://someonewhocares.org/hosts/zero/hosts" "hosts"
           (24 * Hour)%Z "Comprehensive ad and malware hosts" ] |}.

Definition updateAdBlockBody (now : Time)
  (updateAdBlockFeed : AdBlockFeed -> list ThreatEntry * error)
  (feed : AdBlockFeed) (allEntries : list ThreatEntry) (reqs : list string)
  : list ThreatEntry * list string * AdBlockFeed :=
  if negb (ab_IsEnabled feed) then (allEntries, reqs, feed)
  else if Z.ltb (Since now (ab_LastUpdated feed)) (ab_UpdateFreq feed)
  then (allEntries, reqs, feed)
  else match updateAdBlockFeed feed with
       | (_, Some _) => (allEntries, (reqs ++ [ab_Name feed])%list, feed)
       | (got, None) =>
           ((allEntries ++ got)%list, (reqs ++ [ab_Name feed])%list,
            {| ab_Name := ab_Name feed; ab_URL := ab_URL feed; Format := Format feed;
               ab_UpdateFreq := ab_UpdateFreq feed; ab_LastUpdated := now;
               ab_IsEnabled := ab_IsEnabled feed; Description := Description feed |})
       end.

Fixpoint rangeAdBlockFeeds (now : Time)
  (updateAdBlockFeed : AdBlockFeed -> list ThreatEntry * error)
  (slice : list AdBlockFeed) (allEntries : list ThreatEntry) (reqs : list string)
  : list ThreatEntry * list string :=
  match slice with
  | [] => (allEntries, reqs)
  | elem :: rest =>
      let feed := elem in
      let '(allEntries', reqs', _) :=
        updateAdBlockBody now updateAdBlockFeed feed allEntries reqs in
      rangeAdBlockFeeds now updateAdBlockFeed rest allEntries' reqs'
  end.

Definition UpdateAllAdBlockFeeds (now : Time)
  (updateAdBlockFeed : AdBlockFeed -> list ThreatEntry * error)
  (abm : AdBlockManager) : Cycle AdBlockManager :=
  let '(allEntries, reqs) := rangeAdBlockFeeds now updateAdBlockFeed (ab_feeds abm) [] [] in
  {| entries := allEntries; requested := reqs; manager := abm |}.

(** The response body as the parser sees it through [bufio.Scanner]:
    [lines] are the lines [scanner.Scan] delivers, and [scanErr] is what
    [scanner.Err()] returns when the parser calls it after its loop, whether
    the loop ran to the end of the input or was left by [break] (the
    scanner can hold a read error while it still delivers buffered
    lines). *)
Record Body := { lines : list string; scanErr : error }.

(** An entry is stamped with two readings of the clock, one for [FirstSeen]
    and one for [LastSeen]. *)
Definition hostsEntry (firstSeen lastSeen : Time) (feed : AdBlockFeed) (domain : string)
  : ThreatEntry :=
  {| Domain := domain;
     ThreatType := "ads";
     Confidence := 85;
     Source := ToLower (Replace (ab_Name feed) " "%char "_"%char);
     FirstSeen := firstSeen;
     LastSeen := lastSeen;
     IsActive := true;
     Metadata := <["feed_format" := "hosts"]> (<["category" := "advertising"]> ∅) |}.

(** What one line of a hosts feed contributes: [Some domain] when the loop
    body reaches [append], [None] when it leaves by [continue]. *)
Definition hostsLine (text : string) : option string :=
  let line := TrimSpace text in
  if String.eqb line EmptyString || HasPrefix line "#" then None
  else
    let parts := Fields line in
    if (length parts <? 2)%nat then None
    else
      let domain := ToLower (nth 1 parts EmptyString) in
      if negb (isValidDomain domain) || String.eqb domain "localhost"
         || Contains domain "localhost"
      then None
      else Some domain.

Definition hostsCap : Z := 50000.

(** The scan loop; the boolean tells whether it was left by [break].  The
    loop reads the clock twice for every entry it appends and at no other
    point, so the entry appended to [entries] takes the readings number
    [2 * length entries] and [2 * length entries + 1]. *)
Fixpoint hostsScan (clock : Clock) (feed : AdBlockFeed) (rest : list string)
  (entries : list ThreatEntry) : list ThreatEntry * bool :=
  match rest with
  | [] => (entries, false)
  | text :: rest' =>
      match hostsLine text with
      | None => hostsScan clock feed rest' entries
      | Some domain =>
          let firstSeen := clock (2 * length entries)%nat in
          let lastSeen := clock (2 * length entries + 1)%nat in
          let entries' := (entries ++ [hostsEntry firstSeen lastSeen feed domain])%list in
          if (hostsCap <=? Z.of_nat (length entries'))%Z then (entries', true)
          else hostsScan clock feed rest' entries'
      end
  end.

Definition parseHostsFormat (clock : Clock) (body : Body) (feed : AdBlockFeed)
  : list ThreatEntry * error :=
  let '(entries, _) := hostsScan clock feed (lines body) [] in
  match scanErr body with
  | Some e => ([], Some ("reading hosts feed: " ++ e))
  | None => (entries, None)
  end.

(** EasyList rules.  [isRuleByte] is the class [[a-zA-Z0-9.-]] of the two
    patterns. *)
Definition isRuleByte (c : ascii) : bool :=
  isAlnum c || Ascii.eqb c "."%char || Ascii.eqb c "-"%char.

(** The longest prefix of class bytes, and what follows it. *)
Fixpoint spanRule (s : string) : string * string :=
  match s with
  | EmptyString => (EmptyString, EmptyString)
  | String c s' =>
      if isRuleByte c
      then let '(run, rest) := spanRule s' in (String c run, rest)
      else (EmptyString, s)
  end.

(** [FindStringSubmatch] for [^\|\|([a-zA-Z0-9.-]+)stop], with [stop] one of
    [^] and [/]: the capture group of the match, [None] without a match.
    [stop] is not in the class, so the group can only be the whole run of
    class bytes that follows the two bars. *)
Definition findRule (stop : ascii) (line : string) : option string :=
  match line with
  | String "|" (String "|" s) =>
      match spanRule s with
      | (String c run, String c' _) =>
          if Ascii.eqb c' stop then Some (String c run) else None
      | _ => None
      end
  | _ => None
  end.

Definition easyListEntry (firstSeen lastSeen : Time) (feed : AdBlockFeed) (domain : string)
  : ThreatEntry :=
  {| Domain := domain;
     ThreatType := "ads";
     Confidence := 80;
     Source := ToLower (Replace (ab_Name feed) " "%char "_"%char);
     FirstSeen := firstSeen;
     LastSeen := lastSeen;
     IsActive := true;
     Metadata := <["feed_format" := "easylist"]> (<["rule_type" := "domain_block"]> ∅) |}.

Definition easyListLine (text : string) : option string :=
  let line := TrimSpace text in
  if String.eqb line EmptyString || HasPrefix line "!" || HasPrefix line "["
  then None
  else
    let domain :=
      match findRule "^" line with
      | Some m => ToLower m
      | None =>
          match findRule "/" line with
          | Some m => ToLower m
          | None => EmptyString
          end
      end in
    if negb (String.eqb domain EmptyString) && isValidDomain domain
    then Some domain
    else None.

Definition easyListCap : Z := 30000.

Fixpoint easyListScan (clock : Clock) (feed : AdBlockFeed) (rest : list string)
  (entries : list ThreatEntry) : list ThreatEntry * bool :=
  match rest with
  | [] => (entries, false)
  | text :: rest' =>
      match easyListLine text with
      | None => easyListScan clock feed rest' entries
      | Some domain =>
          let firstSeen := clock (2 * length entries)%nat in
          let lastSeen := clock (2 * length entries + 1)%nat in
          let entries' :=
            (entries ++ [easyListEntry firstSeen lastSeen feed domain])%list in
          if (easyListCap <=? Z.of_nat (length entries'))%Z then (entries', true)
          else easyListScan clock feed rest' entries'
      end
  end.

Definition parseEasyListFormat (clock : Clock) (body : Body) (feed : AdBlockFeed)
  : list ThreatEntry * error :=
  let '(entries, _) := easyListScan clock feed (lines body) [] in
  match scanErr body with
  | Some e => ([], Some ("reading easylist feed: " ++ e))
  | None => (entries, None)
  end.

Definition domainsEntry (firstSeen lastSeen : Time) (feed : AdBlockFeed) (domain : string)
  : ThreatEntry :=
  {| Domain := domain;
     ThreatType := "ads";
     Confidence := 85;
     Source := ToLower (Replace (ab_Name feed) " "%char "_"%char);
     FirstSeen := firstSeen;
     LastSeen := lastSeen;
     IsActive := true;
     Metadata := <["feed_format" := "domains"]> (<["category" := "advertising"]> ∅) |}.

Definition domainsLine (text : string) : option string :=
  let line := TrimSpace text in
  if String.eqb line EmptyString || HasPrefix line "#" then None
  else
    let domain := ToLower line in
    if negb (isValidDomain domain) then None else Some domain.

Definition domainsCap : Z := 50000.

Fixpoint domainsScan (clock : Clock) (feed : AdBlockFeed) (rest : list string)
  (entries : list ThreatEntry) : list ThreatEntry * bool :=
  match rest with
  | [] => (entries, false)
  | text :: rest' =>
      match domainsLine text with
      | None => domainsScan clock feed rest' entries
      | Some domain =>
          let firstSeen := clock (2 * length entries)%nat in
          let lastSeen := clock (2 * length entries + 1)%nat in
          let entries' :=
            (entries ++ [domainsEntry firstSeen lastSeen feed domain])%list in
          if (domainsCap <=? Z.of_nat (length entries'))%Z then (entries', true)
          else domainsScan clock feed rest' entries'
      end
  end.

Definition parseDomainsFormat (clock : Clock) (body : Body) (feed : AdBlockFeed)
  : list ThreatEntry * error :=
  let '(entries, _) := domainsScan clock feed (lines body) [] in
  match scanErr body with
  | Some e => ([], Some ("reading domains feed: " ++ e))
  | None => (entries, None)
  end.

(** What [http.Client.Do] hands back: the status line and the body. *)
Record Response := { StatusCode : Z; Status : string; RespBody : Body }.

(** The HTTP side of a manager: [NewRequest url] is the error of
    [http.NewRequestWithContext] for the URL, [Do url] the outcome of
    [client.Do] on the request. *)
Record Client := {
  NewRequest : string -> error;
  Do : string -> Response * error
}.

Definition StatusOK : Z := 200.

(** [clock] gives the readings of the parser that runs on the body. *)
Definition updateAdBlockFeed (clock : Clock) (client : Client) (feed : AdBlockFeed)
  : list ThreatEntry * error :=
  match NewRequest client (ab_URL feed) with
  | Some e => ([], Some ("creating request: " ++ e))
  | None =>
      match Do client (ab_URL feed) with
      | (_, Some e) => ([], Some ("fetching feed: " ++ e))
      | (resp, None) =>
          if negb (StatusCode resp =? StatusOK)%Z
          then ([], Some ("HTTP " ++ fmt.SprintInt (StatusCode resp) ++ ": " ++ Status resp))
          else if String.eqb (Format feed) "hosts"
          then parseHostsFormat clock (RespBody resp) feed
          else if String.eqb (Format feed) "easylist"
          then parseEasyListFormat clock (RespBody resp) feed
          else if String.eqb (Format feed) "domains"
          then parseDomainsFormat clock (RespBody resp) feed
          else ([], Some ("unsupported feed format: " ++ Format feed))
      end
  end.

(** parseTextFeed of threat_feeds.go.  [extractDomain] goes through
    [url.Parse]; the text parser takes it as a parameter. *)
Definition textEntry (firstSeen lastSeen : Time) (feed : ThreatFeed)
  (domain threatType : string) : ThreatEntry :=
  {| Domain := domain;
     ThreatType := threatType;
     Confidence := 85;
     Source := ToLower (Name feed);
     FirstSeen := firstSeen;
     LastSeen := lastSeen;
     IsActive := true;
     Metadata := ∅ |}.

Definition textLine (extractDomain : string -> string) (feed : ThreatFeed) (text : string)
  : option (string * string) :=
  let line := TrimSpace text in
  if String.eqb line EmptyString || HasPrefix line "#" then None
  else
    let '(domain, threatType) :=
      if String.eqb (Name feed) "OpenPhish"
      then (extractDomain line, "phishing")
      else (line, "malware") in
    if String.eqb domain EmptyString || negb (isValidDomain domain) then None
    else Some (domain, threatType).

Fixpoint textScan (clock : Clock) (extractDomain : string -> string) (feed : ThreatFeed)
  (rest : list string) (entries : list ThreatEntry) : list ThreatEntry :=
  match rest with
  | [] => entries
  | text :: rest' =>
      match textLine extractDomain feed text with
      | None => textScan clock extractDomain feed rest' entries
      | Some (domain, threatType) =>
          let firstSeen := clock (2 * length entries)%nat in
          let lastSeen := clock (2 * length entries + 1)%nat in
          textScan clock extractDomain feed rest'
            (entries ++ [textEntry firstSeen lastSeen feed domain threatType])%list
      end
  end.

Definition parseTextFeed (clock : Clock) (extractDomain : string -> string) (body : Body)
  (feed : ThreatFeed) : list ThreatEntry * error :=
  let entries := textScan clock extractDomain feed (lines body) [] in
  match scanErr body with
  | Some e => ([], Some ("reading feed: " ++ e))
  | None => (entries, None)
  end.

End feeds.

(** ** internal/db: threat_db.go and connection.go *)
Module db.
Import strings time feeds.

(** A row of [threat_domains] (init.sql); [domain] carries the UNIQUE
    constraint. *)
Record ThreatRow := {
  domain : string;
  threat_type : string;
  confidence_score : Z;      (* DECIMAL(3,2), in hundredths *)
  source : string;
  created_at : Time;
  updated_at : Time
}.

(** A row of [dns_logs]; [log_query_type] is the numeric query type that the
    handler prints through [dns.TypeToString]. *)
Record DNSLog := {
  log_domain : string;
  log_query_type : N;
  log_response_type : string;
  log_threat_type : string;
  log_timestamp : Time
}.

(** The calls of [database/sql] that write, or that frame a write.
    [AppendRow] is the [Exec] that hands one entry to the COPY statement. *)
Inductive Call :=
| BeginTx
| PrepareCopy
| AppendRow (entry : ThreatEntry)
| ExecCopy
| CloseCopy
| Commit
| ExecUpsert
| ExecDelete
| ExecInsertLog.

(** The database behind a [ThreatDB] handle.  [lookupErr d] is the error,
    other than [sql.ErrNoRows], that the driver reports for the lookup of
    [d] (connection lost, deadline exceeded); [None] when the query runs.
    [callErr c] is the error the driver reports for the call [c] for any
    reason other than the UNIQUE constraint on [domain], which the table
    itself decides: connection lost, deadline exceeded, a value that does
    not fit its column; [None] when the call goes through. *)
Record ThreatDB := {
  threat_domains : list ThreatRow;
  dns_logs : list DNSLog;
  lookupErr : string -> error;
  callErr : Call -> error
}.

Definition withRows (tdb : ThreatDB) (rows : list ThreatRow) : ThreatDB :=
  {| threat_domains := rows; dns_logs := dns_logs tdb; lookupErr := lookupErr tdb;
     callErr := callErr tdb |}.

Definition days (n : Z) : Duration := (n * 24 * Hour)%Z.

(* WHERE domain = $1 AND created_at > NOW() - INTERVAL '30 days' *)
Definition whereIsThreat (now : Time) (d : string) (r : ThreatRow) : bool :=
  String.eqb (domain r) d && Z.ltb (now - days 30) (created_at r).

(* ORDER BY confidence_score DESC LIMIT 1 *)
Fixpoint orderByConfidenceLimit1 (rows : list ThreatRow) : option ThreatRow :=
  match rows with
  | [] => None
  | r :: rest =>
      match orderByConfidenceLimit1 rest with
      | None => Some r
      | Some best =>
          if Z.leb (confidence_score best) (confidence_score r) then Some r else Some best
      end
  end.

Definition IsThreatDomain (now : Time) (tdb : ThreatDB) (d : string)
  : bool * string * Z * error :=
  match lookupErr tdb d with
  | Some e => (false, EmptyString, 0%Z, Some ("querying threat domain: " ++ e))
  | None =>
      match orderByConfidenceLimit1 (List.filter (whereIsThreat now d) (threat_domains tdb)) with
      | None => (false, EmptyString, 0%Z, None)
      | Some r => (true, threat_type r, confidence_score r, None)
      end
  end.

Definition copyRow (now : Time) (entry : ThreatEntry) : ThreatRow :=
  {| domain := Domain entry;
     threat_type := ThreatType entry;
     confidence_score := Confidence entry;
     source := Source entry;
     created_at := now;
     updated_at := now |}.

Definition hasDomain (d : string) (rows : list ThreatRow) : bool :=
  existsb (fun r => String.eqb (domain r) d) rows.

(** COPY into [threat_domains].  COPY has no ON CONFLICT clause: the rows
    are inserted in order and the statement fails on the first one whose
    domain is already in the table, by [domain VARCHAR(255) UNIQUE] of
    init.sql. *)
Fixpoint copyIn (table rows : list ThreatRow) : option (list ThreatRow) :=
  match rows with
  | [] => Some table
  | r :: rest =>
      if hasDomain (domain r) table then None
      else copyIn (table ++ [r])%list rest
  end.

(** The entries whose per-entry [Exec] goes through. *)
Definition appended (tdb : ThreatDB) (entry : ThreatEntry) : bool :=
  match callErr tdb (AppendRow entry) with
  | None => true
  | Some _ => false
  end.

(** BatchInsertThreats: the rows are buffered by the per-entry [Exec] (an
    entry whose [Exec] fails is logged and left out), the final [Exec] runs
    the COPY, and a failure leaves the function before [Commit] has
    succeeded, so the deferred [Rollback] restores the table. *)
Definition BatchInsertThreats (now : Time) (tdb : ThreatDB) (entries : list ThreatEntry)
  : error * ThreatDB :=
  match entries with
  | [] => (None, tdb)
  | _ =>
      match callErr tdb BeginTx with
      | Some e => (Some ("beginning transaction: " ++ e), tdb)
      | None =>
      match callErr tdb PrepareCopy with
      | Some e => (Some ("preparing COPY statement: " ++ e), tdb)
      | None =>
      let buffered := List.filter (appended tdb) entries in
      match callErr tdb ExecCopy with
      | Some e => (Some ("executing COPY: " ++ e), tdb)
      | None =>
      match copyIn (threat_domains tdb) (List.map (copyRow now) buffered) with
      | None =>
          (Some "executing COPY: duplicate key value violates unique constraint", tdb)
      | Some table' =>
      match callErr tdb CloseCopy with
      | Some e => (Some ("closing COPY statement: " ++ e), tdb)
      | None =>
      match callErr tdb Commit with
      | Some e => (Some ("committing transaction: " ++ e), tdb)
      | None => (None, withRows tdb table')
      end end end end end end
  end.

(** INSERT ... ON CONFLICT (domain) DO UPDATE SET ... *)
Definition onConflict (existing excluded : ThreatRow) : ThreatRow :=
  {| domain := domain existing;
     threat_type := threat_type excluded;
     confidence_score := Z.max (confidence_score existing) (confidence_score excluded);
     source := source excluded;
     created_at := created_at existing;
     updated_at := updated_at excluded |}.

Fixpoint upsert (excluded : ThreatRow) (table : list ThreatRow) : list ThreatRow :=
  match table with
  | [] => [excluded]
  | r :: rest =>
      if String.eqb (domain r) (domain excluded)
      then onConflict r excluded :: rest
      else r :: upsert excluded rest
  end.

Definition UpdateThreatEntry (now : Time) (tdb : ThreatDB) (entry : ThreatEntry)
  : error * ThreatDB :=
  match callErr tdb ExecUpsert with
  | Some e => (Some ("upserting threat entry: " ++ e), tdb)
  | None => (None, withRows tdb (upsert (copyRow now entry) (threat_domains tdb)))
  end.

(* DELETE FROM threat_domains WHERE updated_at < $1 *)
Definition CleanupOldThreats (now : Time) (tdb : ThreatDB) (maxAge : Duration)
  : error * ThreatDB :=
  let cutoff := Add now (- maxAge)%Z in
  match callErr tdb ExecDelete with
  | Some e => (Some ("cleaning up old threats: " ++ e), tdb)
  | None =>
      (None,
       withRows tdb
         (List.filter (fun r => negb (Z.ltb (updated_at r) cutoff)) (threat_domains tdb)))
  end.

Definition LogDNSQuery (now : Time) (tdb : ThreatDB)
  (d : string) (queryType : N) (responseType threatType : string) : error * ThreatDB :=
  match callErr tdb ExecInsertLog with
  | Some e => (Some ("logging DNS query: " ++ e), tdb)
  | None =>
      (None,
       {| threat_domains := threat_domains tdb;
          dns_logs := (dns_logs tdb ++
                       [ {| log_domain := d; log_query_type := queryType;
                            log_response_type := responseType;
                            log_threat_type := threatType; log_timestamp := now |} ])%list;
          lookupErr := lookupErr tdb;
          callErr := callErr tdb |})
  end.

Record Connection := { threatDB : ThreatDB }.

Definition CheckThreatDomain (now : Time) (c : Connection) (d : string) : string * error :=
  match IsThreatDomain now (threatDB c) d with
  | (_, _, _, Some e) => (EmptyString, Some ("failed to check threat domain: " ++ e))
  | (isThreat, threatType, confidence, None) =>
      if isThreat && Z.leb 70 confidence then (threatType, None) else (EmptyString, None)
  end.

End db.

(** ** cmd/threat-updater/main.go *)
Module updater.
Import time.

Record ThreatUpdater := {
  feedManager : feeds.FeedManager;
  adBlockManager : feeds.AdBlockManager;
  threatDB : db.ThreatDB
}.

Definition withThreatDB (tu : ThreatUpdater) (tdb : db.ThreatDB) : ThreatUpdater :=
  {| feedManager := feedManager tu; adBlockManager := adBlockManager tu; threatDB := tdb |}.

(** performUpdate.  Both [UpdateAll...] functions return a nil error, so the
    two [else] branches run; the statistics that follow the insert are only
    logged. *)
Definition performUpdate (now : Time)
  (updateFeed : feeds.ThreatFeed -> list feeds.ThreatEntry * error)
  (updateAdBlockFeed : feeds.AdBlockFeed -> list feeds.ThreatEntry * error)
  (tu : ThreatUpdater) : error * ThreatUpdater :=
  let threatEntries := feeds.entries (feeds.UpdateAllFeeds now updateFeed (feedManager tu)) in
  let adEntries :=
    feeds.entries (feeds.UpdateAllAdBlockFeeds now updateAdBlockFeed (adBlockManager tu)) in
  let allEntries := (threatEntries ++ adEntries)%list in
  if (length allEntries =? 0)%nat then (None, tu)
  else
    match db.BatchInsertThreats now (threatDB tu) allEntries with
    | (Some e, tdb) => (Some ("inserting threats: " ++ e), withThreatDB tu tdb)
    | (None, tdb) => (None, withThreatDB tu tdb)
    end.

Definition cleanupOldThreats (now : Time) (tu : ThreatUpdater) : error * ThreatUpdater :=
  let maxAge := (30 * 24 * Hour)%Z in
  let '(err, tdb) := db.CleanupOldThreats now (threatDB tu) maxAge in
  (err, withThreatDB tu tdb).

End updater.

(** ** internal/dns/server.go *)
Module dns.
Import strings time.

(** Messages of github.com/miekg/dns, with the fields the server reads or
    writes. *)
Record Question := { Name : string; Qtype : N; Qclass : N }.

Record RR := { rr_name : string; rr_type : N; rr_data : string }.

Record Msg := {
  Id : N;
  Response : bool;
  Authoritative : bool;
  RecursionDesired : bool;
  RecursionAvailable : bool;
  Rcode : N;
  Questions : list Question;
  Answer : list RR
}.

Definition RcodeSuccess : N := 0.
Definition RcodeServerFailure : N := 2.
Definition RcodeNameError : N := 3.

Definition setRcode (m : Msg) (rc : N) : Msg :=
  {| Id := Id m; Response := Response m; Authoritative := Authoritative m;
     RecursionDesired := RecursionDesired m; RecursionAvailable := RecursionAvailable m;
     Rcode := rc; Questions := Questions m; Answer := Answer m |}.

Definition appendAnswer (m : Msg) (answer : list RR) : Msg :=
  {| Id := Id m; Response := Response m; Authoritative := Authoritative m;
     RecursionDesired := RecursionDesired m; RecursionAvailable := RecursionAvailable m;
     Rcode := Rcode m; Questions := Questions m; Answer := (Answer m ++ answer)%list |}.

(* msg.Authoritative = false; msg.RecursionAvailable = true *)
Definition setFlags (m : Msg) : Msg :=
  {| Id := Id m; Response := Response m; Authoritative := false;
     RecursionDesired := RecursionDesired m; RecursionAvailable := true;
     Rcode := Rcode m; Questions := Questions m; Answer := Answer m |}.

(** The outcome of [client.Exchange(msg, upstream)]. *)
Inductive Exchange :=
| ExchangeErr (e : string)
| ExchangeOk (response : Msg).

(** What lies outside the server during one request: the clock (read once
    per request), the upstream resolvers (the query message is determined by
    the domain and the query type) and the result of writing the
    response. *)
Record World := {
  now : Time;
  exchange : string -> string -> N -> Exchange;
  writeErr : error
}.

Record Collector := {
  DNSQueriesTotal : N;
  DNSBlocked : N;
  DNSAllowed : N;
  DNSErrors : N
}.

Definition incQueries (m : Collector) : Collector :=
  {| DNSQueriesTotal := DNSQueriesTotal m + 1; DNSBlocked := DNSBlocked m;
     DNSAllowed := DNSAllowed m; DNSErrors := DNSErrors m |}.
Definition incBlocked (m : Collector) : Collector :=
  {| DNSQueriesTotal := DNSQueriesTotal m; DNSBlocked := DNSBlocked m + 1;
     DNSAllowed := DNSAllowed m; DNSErrors := DNSErrors m |}.
Definition incAllowed (m : Collector) : Collector :=
  {| DNSQueriesTotal := DNSQueriesTotal m; DNSBlocked := DNSBlocked m;
     DNSAllowed := DNSAllowed m + 1; DNSErrors := DNSErrors m |}.
Definition incErrors (m : Collector) : Collector :=
  {| DNSQueriesTotal := DNSQueriesTotal m; DNSBlocked := DNSBlocked m;
     DNSAllowed := DNSAllowed m; DNSErrors := DNSErrors m + 1 |}.

(** The server.  Its [cache] field is a client of package cache; the
    embedding takes the in-process client of that package,
    [MockRedisClient], which has the methods of the Redis one.  The logger
    is left out; the query log is the table [dns_logs] of the database. *)
Record Server := {
  database : db.Connection;
  cache_ : cache.MockRedisClient;
  metrics : Collector;
  upstreams : list string
}.

Definition NewServer (database : db.Connection) (c : cache.MockRedisClient)
  (m : Collector) (cfgUpstreams : list string) : Server :=
  {| database := database; cache_ := c; metrics := m;
     upstreams := match cfgUpstreams with
                  | [] => ["1.1.1.1:53"; "8.8.8.8:53"]
                  | _ => cfgUpstreams
                  end |}.

Definition withCache (s : Server) (c : cache.MockRedisClient) : Server :=
  {| database := database s; cache_ := c; metrics := metrics s; upstreams := upstreams s |}.
Definition withMetrics (s : Server) (m : Collector) : Server :=
  {| database := database s; cache_ := cache_ s; metrics := m; upstreams := upstreams s |}.
Definition withDatabase (s : Server) (d : db.Connection) : Server :=
  {| database := d; cache_ := cache_ s; metrics := metrics s; upstreams := upstreams s |}.

Definition cacheKey (domain : string) : string := "domain:" ++ domain.

(* parts[i:] joined by ".", for i = 1 .. len(parts)-1 *)
Definition parentDomains (domain : string) : list string :=
  let parts := Split domain "."%char in
  List.map (fun i => Join (drop i parts) ".") (seq 1 (length parts - 1)).

(** The loop over the parent domains: [Some t] when it returns with threat
    type [t], [None] when it runs to its end. *)
Fixpoint checkParents (now : Time) (database : db.Connection) (parents : list string)
  : option string :=
  match parents with
  | [] => None
  | parentDomain :: rest =>
      match db.CheckThreatDomain now database parentDomain with
      | (_, Some _) => checkParents now database rest
      | (parentThreatType, None) =>
          if negb (String.eqb parentThreatType EmptyString) then Some parentThreatType
          else checkParents now database rest
      end
  end.

Definition isNil (e : error) : bool := match e with None => true | Some _ => false end.

(** shouldBlockDomain on the database and the cache of the server; the last
    component is the cache when the function returns. *)
Definition shouldBlockDomain (now : Time) (database : db.Connection)
  (c : cache.MockRedisClient) (domain : string)
  : bool * string * error * cache.MockRedisClient :=
  let key := cacheKey domain in
  let '(cached, err, c1) := cache.Get now c key in
  if isNil err && negb (String.eqb cached EmptyString) && String.eqb cached "blocked"
  then (true, "cached", None, c1)
  else if isNil err && negb (String.eqb cached EmptyString) && String.eqb cached "allowed"
  then (false, EmptyString, None, c1)
  else
    match db.CheckThreatDomain now database domain with
    | (_, Some e) => (false, EmptyString, Some e, c1)
    | (threatType, None) =>
        if negb (String.eqb threatType EmptyString)
        then (true, threatType, None, snd (cache.Set_ now c1 key "blocked" Hour))
        else
          match checkParents now database (parentDomains domain) with
          | Some parentThreatType =>
              (true, parentThreatType, None, snd (cache.Set_ now c1 key "blocked" Hour))
          | None =>
              (false, EmptyString, None, snd (cache.Set_ now c1 key "allowed" (30 * Minute)%Z))
          end
    end.

(** forwardToUpstream: the loop over [s.upstreams].  A nil slice of records
    is the empty list. *)
Fixpoint forwardToUpstream (w : World) (ups : list string) (question : Question)
  (domain : string) : list RR * error :=
  match ups with
  | [] => ([], Some "all upstream servers failed")
  | upstream :: rest =>
      match exchange w upstream domain (Qtype question) with
      | ExchangeErr _ => forwardToUpstream w rest question domain
      | ExchangeOk response =>
          if N.eqb (Rcode response) RcodeSuccess && (0 <? length (Answer response))%nat
          then (Answer response, None)
          else if N.eqb (Rcode response) RcodeNameError
          then ([], None)
          else forwardToUpstream w rest question domain
      end
  end.

(** logDNSQuery starts a goroutine that inserts the row and only logs a
    failure.  The embedding runs the goroutine to its end at once: the row
    is in [dns_logs] afterwards unless the insert failed. *)
Definition logDNSQuery (w : World) (s : Server) (domain : string) (queryType : N)
  (responseType threatType : string) : Server :=
  withDatabase s
    {| db.threatDB :=
         snd (db.LogDNSQuery (now w) (db.threatDB (database s))
                domain queryType responseType threatType) |}.

(** The body of the loop over [r.Question]: the server and the response
    after the iteration, and whether the iteration ended in [break]. *)
Definition handleQuestion (w : World) (s : Server) (msg : Msg) (question : Question)
  : Server * Msg * bool :=
  let domain := ToLower (TrimSuffix (Name question) ".") in
  let '(blocked, threatType, err, c) :=
    shouldBlockDomain (now w) (database s) (cache_ s) domain in
  let s := withCache s c in
  let s := if isNil err then s else withMetrics s (incErrors (metrics s)) in
  if blocked then
    let s := withMetrics s (incBlocked (metrics s)) in
    let s := logDNSQuery w s domain (Qtype question) "blocked" threatType in
    (s, setRcode msg RcodeNameError, true)
  else
    match forwardToUpstream w (upstreams s) question domain with
    | (_, Some _) =>
        (withMetrics s (incErrors (metrics s)), setRcode msg RcodeServerFailure, true)
    | (answer, None) =>
        match answer with
        | [] => (s, msg, false)
        | _ =>
            let s := withMetrics s (incAllowed (metrics s)) in
            let s := logDNSQuery w s domain (Qtype question) "allowed" EmptyString in
            (s, appendAnswer msg answer, false)
        end
    end.

(** The loop over [r.Question]; the boolean tells whether it was left by
    [break]. *)
Fixpoint rangeQuestions (w : World) (s : Server) (msg : Msg) (questions : list Question)
  : Server * Msg * bool :=
  match questions with
  | [] => (s, msg, false)
  | question :: rest =>
      let '(s', msg', broke) := handleQuestion w s msg question in
      if broke then (s', msg', true) else rangeQuestions w s' msg' rest
  end.

Section Handler.

(** [SetReply r] is the message that [msg := dns.Msg{}; msg.SetReply(r)]
    leaves in [msg].  The function belongs to github.com/miekg/dns and is
    a parameter of the handler. *)
Variable SetReply : Msg -> Msg.

(** handleDNSRequest: the server afterwards and the message handed to
    [w.WriteMsg]. *)
Definition handleDNSRequest (w : World) (s : Server) (r : Msg) : Server * Msg :=
  let s := withMetrics s (incQueries (metrics s)) in
  let msg := setFlags (SetReply r) in
  let '(s, msg, _) := rangeQuestions w s msg (Questions r) in
  let s := if isNil (writeErr w) then s else withMetrics s (incErrors (metrics s)) in
  (s, msg).

End Handler.

(** What reaches the handler.  [Start] builds its [dns.Server]
    without a [MsgAcceptFunc], so the library (v1.1.55) applies its default
    one, which rejects every message whose question count is not 1 before a
    handler is called. *)
Definition accepted (r : Msg) : bool := (length (Questions r) =? 1)%nat.

(** The instance of [SetReply] used to run the handler on examples, after
    the library (v1.1.55) on a standard query: the reply takes the id and
    the recursion-desired bit of the request, is marked as a response with
    [RcodeSuccess], and carries the first question of the request. *)
Definition SetReply (request : Msg) : Msg :=
  {| Id := Id request;
     Response := true;
     Authoritative := false;
     RecursionDesired := RecursionDesired request;
     RecursionAvailable := false;
     Rcode := RcodeSuccess;
     Questions := firstn 1 (Questions request);
     Answer := [] |}.

End dns.

(** ** internal/metrics/metrics.go *)
Module metrics.

Section Collector.

(** The type of the response times handed to the histogram; they are only
    stored. *)
Variable float64 : Type.

(** The collector with the series [RecordDNSQuery] writes.  A Prometheus
    counter is read as the number of its increments (exact for a float64
    counter below 2^53); a counter vector maps a label value to the counter
    of its series, a series existing once it was used; the histogram is read
    as the observations it received, the latest last. *)
Record Collector := {
  DNSQueriesTotal : N;
  DNSBlocked : N;
  DNSAllowed : N;
  DNSResponseTime : list float64;
  DNSQueriesByType : gmap string N;
  ThreatsByType : gmap string N
}.

Definition NewCollector : Collector :=
  {| DNSQueriesTotal := 0; DNSBlocked := 0; DNSAllowed := 0; DNSResponseTime := [];
     DNSQueriesByType := ∅; ThreatsByType := ∅ |}.

(* vec.WithLabelValues(label).Inc() *)
Definition incLabel (vec : gmap string N) (label : string) : gmap string N :=
  <[label := (default 0%N (vec !! label) + 1)%N]> vec.

Definition RecordDNSQuery (c : Collector) (queryType : string) (responseTime : float64)
  (blocked : bool) (threatType : string) : Collector :=
  let total := (DNSQueriesTotal c + 1)%N in
  let byType := incLabel (DNSQueriesByType c) queryType in
  let observed := (DNSResponseTime c ++ [responseTime])%list in
  if blocked then
    {| DNSQueriesTotal := total; DNSBlocked := (DNSBlocked c + 1)%N;
       DNSAllowed := DNSAllowed c; DNSResponseTime := observed;
       DNSQueriesByType := byType;
       ThreatsByType := if negb (String.eqb threatType EmptyString)
                        then incLabel (ThreatsByType c) threatType
                        else ThreatsByType c |}
  else
    {| DNSQueriesTotal := total; DNSBlocked := DNSBlocked c;
       DNSAllowed := (DNSAllowed c + 1)%N; DNSResponseTime := observed;
       DNSQueriesByType := byType; ThreatsByType := ThreatsByType c |}.

End Collector.

Arguments DNSQueriesTotal {float64} _.
Arguments DNSBlocked {float64} _.
Arguments DNSAllowed {float64} _.
Arguments DNSResponseTime {float64} _.
Arguments DNSQueriesByType {float64} _.
Arguments ThreatsByType {float64} _.
Arguments NewCollector {float64}.
Arguments RecordDNSQuery {float64} _ _ _ _ _.

End metrics.

(** * Fixtures: the concrete stores, feeds and requests of the examples *)
Module fixtures.
Import time.

(* a clock reading in 2026, in nanoseconds since the zero time *)
Definition t0 : Time := (63900000000 * Second)%Z.

(** A clock that starts at [t0] and advances by a millisecond from one
    reading to the next. *)
Definition ticking : Clock := fun n => (t0 + Z.of_nat n * Millisecond)%Z.

(** A cache holding one "allowed" decision written at [t0]. *)
Definition cachedAllowed : cache.MockRedisClient :=
  snd (cache.Set_ t0 cache.NewMockRedisClient "domain:example.com" "allowed" (30 * Minute)%Z).

Definition urlhausEntry (d : string) (confidence : Z) (src : string) : feeds.ThreatEntry :=
  {| feeds.Domain := d; feeds.ThreatType := "malware"; feeds.Confidence := confidence;
     feeds.Source := src; feeds.FirstSeen := t0; feeds.LastSeen := t0;
     feeds.IsActive := true; feeds.Metadata := ∅ |}.

(** Every fetch succeeds and delivers one entry. *)
Definition fetchOk (feed : feeds.ThreatFeed) : list feeds.ThreatEntry * error :=
  ([urlhausEntry "evil.example" 90 (strings.ToLower (feeds.Name feed))], None).

Definition adFetchOk (feed : feeds.AdBlockFeed) : list feeds.ThreatEntry * error :=
  ([feeds.hostsEntry t0 t0 feed "ads.example"], None).

(** An empty database that answers every lookup. *)
Definition emptyDB : db.ThreatDB :=
  {| db.threat_domains := []; db.dns_logs := []; db.lookupErr := fun _ => None;
     db.callErr := fun _ => None |}.

Definition evil : feeds.ThreatEntry := urlhausEntry "evil.example" 90 "urlhaus".

(** [evil.example] upserted at [t0] and again 39 days later. *)
Definition refreshedDB : db.ThreatDB :=
  snd (db.UpdateThreatEntry (t0 + db.days 39)%Z (snd (db.UpdateThreatEntry t0 emptyDB evil)) evil).

(** A table that already lists [evil.example] with confidence 0.80. *)
Definition seededDB : db.ThreatDB :=
  snd (db.UpdateThreatEntry t0 emptyDB (urlhausEntry "evil.example" 80 "openphish")).

(** Two feeds report [evil.example] in one cycle. *)
Definition twoFeedsBatch : list feeds.ThreatEntry :=
  [urlhausEntry "evil.example" 80 "openphish"; urlhausEntry "evil.example" 90 "urlhaus"].

Definition adsEntry (d : string) (confidence : Z) (src : string) : feeds.ThreatEntry :=
  {| feeds.Domain := d; feeds.ThreatType := "ads"; feeds.Confidence := confidence;
     feeds.Source := src; feeds.FirstSeen := t0; feeds.LastSeen := t0;
     feeds.IsActive := true; feeds.Metadata := ∅ |}.

(** The threat table of scenario 2: [doubleclick.net], ads, 0.90. *)
Definition doubleclickDB : db.ThreatDB :=
  snd (db.UpdateThreatEntry t0 emptyDB (adsEntry "doubleclick.net" 90 "easylist")).

Definition aRecord (name ip : string) : dns.RR :=
  {| dns.rr_name := name; dns.rr_type := 1; dns.rr_data := ip |}.

Definition upstreamReply (rcode : N) (answer : list dns.RR) : dns.Msg :=
  {| dns.Id := 0; dns.Response := true; dns.Authoritative := false;
     dns.RecursionDesired := true; dns.RecursionAvailable := true;
     dns.Rcode := rcode; dns.Questions := []; dns.Answer := answer |}.

(** The upstreams one hour after [t0]: [good.example] resolves everywhere;
    for [nonexistent.example] the first upstream answers NXDOMAIN and the
    second would answer with a record; [flaky.example] times out on the
    first upstream and resolves on the second; any other name times out. *)
Definition world1 : dns.World :=
  {| dns.now := (t0 + Hour)%Z;
     dns.exchange := fun upstream domain qtype =>
       if String.eqb domain "good.example"
       then dns.ExchangeOk (upstreamReply dns.RcodeSuccess [aRecord "good.example." "93.184.216.34"])
       else if String.eqb domain "nonexistent.example"
       then if String.eqb upstream "1.1.1.1:53"
            then dns.ExchangeOk (upstreamReply dns.RcodeNameError [])
            else dns.ExchangeOk (upstreamReply dns.RcodeSuccess [aRecord "nonexistent.example." "10.0.0.1"])
       else if String.eqb domain "flaky.example" && String.eqb upstream "8.8.8.8:53"
       then dns.ExchangeOk (upstreamReply dns.RcodeSuccess [aRecord "flaky.example." "10.0.0.2"])
       else dns.ExchangeErr "i/o timeout";
     dns.writeErr := None |}.

Definition noMetrics : dns.Collector :=
  {| dns.DNSQueriesTotal := 0; dns.DNSBlocked := 0; dns.DNSAllowed := 0; dns.DNSErrors := 0 |}.

(** A server on [doubleclickDB] with an empty cache and the default
    upstreams. *)
Definition server1 : dns.Server :=
  dns.NewServer {| db.threatDB := doubleclickDB |} cache.NewMockRedisClient noMetrics [].

Definition questionA (name : string) : dns.Question :=
  {| dns.Name := name; dns.Qtype := 1; dns.Qclass := 1 |}.

Definition query (id : N) (names : list string) : dns.Msg :=
  {| dns.Id := id; dns.Response := false; dns.Authoritative := false;
     dns.RecursionDesired := true; dns.RecursionAvailable := false;
     dns.Rcode := dns.RcodeSuccess;
     dns.Questions := List.map questionA names; dns.Answer := [] |}.

(** [doubleclickDB] behind a connection on which the lookup of
    [tracker.doubleclick.net] runs into its deadline. *)
Definition flakyDB : db.ThreatDB :=
  {| db.threat_domains := db.threat_domains doubleclickDB;
     db.dns_logs := [];
     db.lookupErr := fun d =>
       if String.eqb d "tracker.doubleclick.net" then Some "context deadline exceeded"
       else None;
     db.callErr := fun _ => None |}.

(** A cache that still holds the decision "allowed", written at [t0], for
    [tracker.cdn.doubleclick.net]. *)
Definition cachedTracker : cache.MockRedisClient :=
  snd (cache.Set_ t0 cache.NewMockRedisClient "domain:tracker.cdn.doubleclick.net"
         "allowed" (30 * Minute)%Z).

Definition stevenBlack : feeds.AdBlockFeed :=
  feeds.adFeed "StevenBlack Hosts"
    "https://raw.githubusercontent.com/StevenBlack/hosts/master/hosts" "hosts"
    (24 * Hour)%Z "Unified hosts file with ads and malware".

(** A small hosts file. *)
Definition hostsSample : feeds.Body :=
  {| feeds.lines := [ "# Title: StevenBlack/hosts";
                      "127.0.0.1 localhost";
                      "0.0.0.0 my-localhost.net";
                      "0.0.0.0 localhost.example.com";
                      "0.0.0.0 Ads.Example.com" ];
     feeds.scanErr := None |}.

(** A hosts file whose download broke off. *)
Definition truncatedHosts : feeds.Body :=
  {| feeds.lines := [ "0.0.0.0 ads.example"; "0.0.0.0 track" ];
     feeds.scanErr := Some "unexpected EOF" |}.

(** A domain list with a comment, mixed case, surrounding space and a line
    that is no domain. *)
Definition domainList : feeds.Body :=
  {| feeds.lines := [ "# ad servers"; "  Ads.Example.com  "; "not a domain";
                      "tracker.example"; "localhost" ];
     feeds.scanErr := None |}.

(** Servers of which only the one of the StevenBlack list answers with a
    body; the others answer 503. *)
Definition adServers : feeds.Client :=
  {| feeds.NewRequest := fun _ => None;
     feeds.Do := fun url =>
       if String.eqb url (feeds.ab_URL stevenBlack)
       then ({| feeds.StatusCode := 200; feeds.Status := "200 OK";
                feeds.RespBody := hostsSample |}, None)
       else ({| feeds.StatusCode := 503; feeds.Status := "503 Service Unavailable";
                feeds.RespBody := {| feeds.lines := []; feeds.scanErr := None |} |}, None) |}.

(** A plain text feed of domains. *)
Definition plainFeed : feeds.ThreatFeed :=
  {| feeds.Name := "Blocklist"; feeds.URL := "https://blocklist.example/domains.txt";
     feeds.Type_ := "txt"; feeds.UpdateFreq := Hour; feeds.LastUpdated := 0%Z;
     feeds.IsEnabled := true; feeds.RequiresAuth := false |}.

Definition plainBody : feeds.Body :=
  {| feeds.lines := [ "# malware domains"; " Evil.Example "; "bad_host.example";
                      "c2.example" ];
     feeds.scanErr := None |}.

(** Only URLhaus delivers, one entry; the other threat feeds fail. *)
Definition fetchUrlhaus (feed : feeds.ThreatFeed) : list feeds.ThreatEntry * error :=
  if String.eqb (feeds.Name feed) "URLhaus"
  then ([urlhausEntry "evil.example" 90 "urlhaus"], None)
  else ([], Some "HTTP 503: 503 Service Unavailable").

(** A hosts file of 50,001 lines: 50,000 times [ads.example], then
    [tracker.example]. *)
Definition overCap : feeds.Body :=
  {| feeds.lines := (repeat "0.0.0.0 ads.example" (Z.to_nat feeds.hostsCap)
                     ++ ["0.0.0.0 tracker.example"])%list;
     feeds.scanErr := None |}.

End fixtures.

(** ** The merge policy of the spec, for comparison with the code *)
Module dbspec.
Import db.

(** The confidence stored for a domain, if it has a row. *)
Fixpoint confidenceOf (d : string) (table : list ThreatRow) : option Z :=
  match table with
  | [] => None
  | r :: rest => if String.eqb (domain r) d then Some (confidence_score r) else confidenceOf d rest
  end.

(** "Upsert merges by taking the maximum confidence seen": the confidence of
    [d] after the entries [es], starting from the stored one. *)
Definition mergeMax (d : string) (stored : option Z) (es : list feeds.ThreatEntry) : option Z :=
  fold_left
    (fun acc e =>
       if String.eqb (feeds.Domain e) d
       then Some (match acc with
                  | Some c => Z.max c (feeds.Confidence e)
                  | None => feeds.Confidence e
                  end)
       else acc)
    es stored.

(** The bulk upsert of the spec: the single-row upsert of the code,
    [UpdateThreatEntry], applied to each entry in turn. *)
Definition spec_BulkUpsert (now : time.Time) (tdb : ThreatDB) (es : list feeds.ThreatEntry)
  : ThreatDB :=
  fold_left (fun acc e => snd (UpdateThreatEntry now acc e)) es tdb.

End dbspec.

(** ** The vocabulary of the spec for the feed parsers *)
Module feedsspec.
Import strings.

(** The domain field of a line of a hosts file: the second field,
    lowercased. *)
Definition domainField (text : string) : string :=
  ToLower (nth 1 (Fields (TrimSpace text)) EmptyString).

(** The feed lines of the properties below are ASCII: on such lines
    [TrimSpace], [Fields] and [ToLower] are the functions of Go. *)
Definition asciiLines (ls : list string) : Prop := Forall (fun l => isASCII l = true) ls.

(** The three scan loops of adblock.go have one shape: a line gives a
    domain or nothing, a domain gives an entry, and the loop is left once
    [cap] entries are collected.  [mk i] makes the entry number [i]. *)
Fixpoint capScan (cap : Z) (lineOf : string -> option string)
  (mk : nat -> string -> feeds.ThreatEntry) (rest : list string)
  (entries : list feeds.ThreatEntry) : list feeds.ThreatEntry * bool :=
  match rest with
  | [] => (entries, false)
  | text :: rest' =>
      match lineOf text with
      | None => capScan cap lineOf mk rest' entries
      | Some domain =>
          let entries' := (entries ++ [mk (length entries) domain])%list in
          if (cap <=? Z.of_nat (length entries'))%Z then (entries', true)
          else capScan cap lineOf mk rest' entries'
      end
  end.

(** The entries number [i], [i + 1], ... for the domains [ds]. *)
Fixpoint entriesFrom (mk : nat -> string -> feeds.ThreatEntry) (i : nat) (ds : list string)
  : list feeds.ThreatEntry :=
  match ds with
  | [] => []
  | d :: ds' => mk i d :: entriesFrom mk (S i) ds'
  end.

(** Entry number [i] of a parse takes the clock readings [2 i] and
    [2 i + 1]. *)
Definition hostsAt (clock : time.Clock) (feed : feeds.AdBlockFeed) (i : nat) (d : string)
  : feeds.ThreatEntry :=
  feeds.hostsEntry (clock (2 * i)%nat) (clock (2 * i + 1)%nat) feed d.

Definition easyListAt (clock : time.Clock) (feed : feeds.AdBlockFeed) (i : nat) (d : string)
  : feeds.ThreatEntry :=
  feeds.easyListEntry (clock (2 * i)%nat) (clock (2 * i + 1)%nat) feed d.

Definition domainsAt (clock : time.Clock) (feed : feeds.AdBlockFeed) (i : nat) (d : string)
  : feeds.ThreatEntry :=
  feeds.domainsEntry (clock (2 * i)%nat) (clock (2 * i + 1)%nat) feed d.

(** An entry without its two time stamps. *)
Definition unstamped (e : feeds.ThreatEntry)
  : string * string * Z * string * bool * gmap string string :=
  (feeds.Domain e, feeds.ThreatType e, feeds.Confidence e, feeds.Source e,
   feeds.IsActive e, feeds.Metadata e).

(** The domains of the lines that give one, in the order of the lines. *)
Definition domainsOf (lineOf : string -> option string) (ls : list string) : list string :=
  omap lineOf ls.

(** A feed is due when it is enabled and its update frequency has passed
    since its last update. *)
Definition due (now : time.Time) (feed : feeds.ThreatFeed) : bool :=
  feeds.IsEnabled feed
  && negb (Z.ltb (time.Since now (feeds.LastUpdated feed)) (feeds.UpdateFreq feed)).

Definition adDue (now : time.Time) (feed : feeds.AdBlockFeed) : bool :=
  feeds.ab_IsEnabled feed
  && negb (Z.ltb (time.Since now (feeds.ab_LastUpdated feed)) (feeds.ab_UpdateFreq feed)).

(** What a feed contributes to a cycle: its entries when the update
    succeeds, nothing when it fails. *)
Definition fetched {F : Type} (update : F -> list feeds.ThreatEntry * error) (feed : F)
  : list feeds.ThreatEntry :=
  match update feed with
  | (got, None) => got
  | (_, Some _) => []
  end.

End feedsspec.

(** ** The vocabulary of the spec for the request path *)
Module dnsspec.
Import dns.

(** "Blockable": the lookup used by the classifier answers with a threat
    type. *)
Definition blockable (now : time.Time) (database : db.Connection) (d t : string) : Prop :=
  db.CheckThreatDomain now database d = (t, None) /\ t <> EmptyString.

Definition notBlockable (now : time.Time) (database : db.Connection) (d : string) : Prop :=
  forall t, ~ blockable now database d t.

(** The domain the handler derives from a question. *)
Definition queryDomain (question : Question) : string :=
  strings.ToLower (strings.TrimSuffix (Name question) ".").

(** The cache lookup of the classifier decides nothing: it fails, or it
    yields a value other than the two decisions. *)
Definition cacheUndecided (cached : string) (err : error) : Prop :=
  err = None -> cached <> "blocked" /\ cached <> "allowed".

(** "Any other outcome moves to the next upstream": an exchange that is
    neither (Success with at least one record) nor NameError. *)
Definition movesOn (x : Exchange) : bool :=
  match x with
  | ExchangeErr _ => true
  | ExchangeOk response =>
      negb (N.eqb (Rcode response) RcodeSuccess && (0 <? length (Answer response))%nat)
      && negb (N.eqb (Rcode response) RcodeNameError)
  end.

(** What a request keeps and what it may change, from the server [s] to
    the server [s'] and from the message [msg] to the message [msg'];
    [broke] tells whether the loop was left by [break]. *)
Definition framed (s s' : Server) (msg msg' : Msg) (broke : bool) : Prop :=
  let logged (x : Server) := N.of_nat (length (db.dns_logs (db.threatDB (database x)))) in
  db.threat_domains (db.threatDB (database s')) = db.threat_domains (db.threatDB (database s))
  /\ db.callErr (db.threatDB (database s')) = db.callErr (db.threatDB (database s))
  /\ DNSQueriesTotal (metrics s') = DNSQueriesTotal (metrics s)
  /\ (Rcode msg' = Rcode msg \/ Rcode msg' = RcodeNameError \/ Rcode msg' = RcodeServerFailure)
  /\ (exists extra, Answer msg' = (Answer msg ++ extra)%list)
  /\ (logged s <= logged s')%N
  /\ (logged s' + DNSBlocked (metrics s) + DNSAllowed (metrics s)
      <= logged s + DNSBlocked (metrics s') + DNSAllowed (metrics s'))%N
  /\ (db.callErr (db.threatDB (database s)) db.ExecInsertLog = None ->
      (logged s' + DNSBlocked (metrics s) + DNSAllowed (metrics s)
       = logged s + DNSBlocked (metrics s') + DNSAllowed (metrics s'))%N)
  /\ (DNSBlocked (metrics s') = DNSBlocked (metrics s)
      \/ (DNSBlocked (metrics s') = DNSBlocked (metrics s) + 1)%N /\ broke = true)
  /\ (DNSAllowed (metrics s) <= DNSAllowed (metrics s'))%N
  /\ (DNSErrors (metrics s) <= DNSErrors (metrics s'))%N.

End dnsspec.

(** ** Runs of the counter operations of the cache *)
Module metricsspec.
Import metrics.

Section Queries.

Variable float64 : Type.

(** A recorded query: its type, its response time, whether it was blocked,
    its threat type. *)
Definition Query : Type := string * float64 * bool * string.

Definition recordAll (queries : list Query) (c : Collector float64) : Collector float64 :=
  fold_left (fun c '(queryType, responseTime, blocked, threatType) =>
               RecordDNSQuery c queryType responseTime blocked threatType) queries c.

Definition count (p : Query -> bool) (queries : list Query) : N :=
  N.of_nat (length (List.filter p queries)).

End Queries.

Arguments recordAll {float64} _ _.
Arguments count {float64} _ _.

Definition series (vec : gmap string N) (label : string) : N := default 0%N (vec !! label).

End metricsspec.

Module cachespec.
Import time cache.

(** The value of a decimal numeral read from its first digit on, [acc]
    being the value of the digits already read. *)
Fixpoint uvalue (d : Decimal.uint) (acc : Z) : Z :=
  match d with
  | Decimal.Nil => acc
  | Decimal.D0 l => uvalue l (10 * acc)
  | Decimal.D1 l => uvalue l (10 * acc + 1)
  | Decimal.D2 l => uvalue l (10 * acc + 2)
  | Decimal.D3 l => uvalue l (10 * acc + 3)
  | Decimal.D4 l => uvalue l (10 * acc + 4)
  | Decimal.D5 l => uvalue l (10 * acc + 5)
  | Decimal.D6 l => uvalue l (10 * acc + 6)
  | Decimal.D7 l => uvalue l (10 * acc + 7)
  | Decimal.D8 l => uvalue l (10 * acc + 8)
  | Decimal.D9 l => uvalue l (10 * acc + 9)
  end%Z.

(** [Increment] called once at each of the given times, in order: the
    counts returned and the client afterwards. *)
Fixpoint incrementAll (times : list Time) (m : MockRedisClient) (key : string)
  : list Z * MockRedisClient :=
  match times with
  | [] => ([], m)
  | t :: rest =>
      let '(count, _, m1) := Increment t m key in
      let '(counts, m2) := incrementAll rest m1 key in
      (count :: counts, m2)
  end.

(** [IncrementWithExpiry] called once at each of the given times. *)
Fixpoint incrementWithExpiryAll (ttl : Duration) (times : list Time)
  (m : MockRedisClient) (key : string) : list Z * MockRedisClient :=
  match times with
  | [] => ([], m)
  | t :: rest =>
      let '(count, _, m1) := IncrementWithExpiry t m key ttl in
      let '(counts, m2) := incrementWithExpiryAll ttl rest m1 key in
      (count :: counts, m2)
  end.

(** Each time lies less than [ttl] after the one before it, the first one
    after [prev]. *)
Fixpoint withinWindow (ttl : Duration) (prev : Time) (times : list Time) : Prop :=
  match times with
  | [] => True
  | t :: rest => (prev <= t < prev + ttl)%Z /\ withinWindow ttl t rest
  end.

(** The counts 1, 2, ..., n that follow [k]. *)
Definition countsFrom (k : Z) (n : nat) : list Z :=
  List.map (fun i => (k + Z.of_nat i)%Z) (seq 1 n).

End cachespec.

(** * Properties *)

(** ** Response cache (internal/cache/mock.go) *)
Section CacheProperties.
Import time cache.

Lemma After_irrefl (t : Time) : After t t = false.
Proof. unfold After. apply Z.ltb_irrefl. Qed.

(** A read exactly at the expiry instant is a hit and leaves the entry. *)
Lemma Get_at_expiry_is_hit (now : Time) (m : MockRedisClient) (key : string) (v : mockValue) :
  closed m = false ->
  data m !! key = Some v ->
  now = expiration v ->
  Get now m key = (value v, None, m).
Proof.
  intros Hc Hk ->. unfold Get, expired.
  rewrite Hc, Hk, After_irrefl, andb_false_r. reflexivity.
Qed.

(** A read strictly after the expiry is a miss and removes the entry. *)
Lemma Get_after_expiry_is_miss (now : Time) (m : MockRedisClient) (key : string) (v : mockValue) :
  closed m = false ->
  data m !! key = Some v ->
  expiration v <> 0%Z ->
  (expiration v < now)%Z ->
  Get now m key =
    (EmptyString, Some ("key not found: " ++ key), {| data := delete key (data m); closed := false |}).
Proof.
  intros Hc Hk Hz Hlt. unfold Get, expired, IsZero, After.
  rewrite Hc, Hk.
  destruct (Z.eqb_spec (expiration v) 0) as [E|_]; [contradiction|].
  destruct (Z.ltb_spec (expiration v) now) as [_|Hge]; [reflexivity|lia].
Qed.

(** SetNX, in the same file, takes an entry at its expiry instant for
    absent and overwrites it. *)
Lemma SetNX_at_expiry_overwrites (now : Time) (m : MockRedisClient) (key val : string)
  (d : Duration) (v : mockValue) :
  closed m = false ->
  data m !! key = Some v ->
  expiration v <> 0%Z ->
  now = expiration v ->
  SetNX now m key val d =
    (true, None,
     {| data := <[key := {| value := val; expiration := expiry now d |}]> (data m);
        closed := false |}).
Proof.
  intros Hc Hk Hz ->. unfold SetNX, IsZero, Before.
  rewrite Hc, Hk, Z.ltb_irrefl.
  destruct (Z.eqb_spec (expiration v) 0) as [E|_]; [contradiction|reflexivity].
Qed.

(** C9: the entry written at [t0] with a TTL of 30 minutes is read at
    exactly [t0 + 30 min], its expiry instant.  [Get] returns the stored
    value without an error and leaves the entry in the map; one nanosecond
    later the same read is a miss that removes the entry. *)
Theorem C9_Get_at_expiry_instant :
  let expiryInstant := Add fixtures.t0 (30 * Minute)%Z in
  data fixtures.cachedAllowed !! "domain:example.com"
    = Some {| value := "allowed"; expiration := expiryInstant |}
  /\ Get expiryInstant fixtures.cachedAllowed "domain:example.com"
     = ("allowed", None, fixtures.cachedAllowed)
  /\ Get (expiryInstant + 1)%Z fixtures.cachedAllowed "domain:example.com"
     = (EmptyString, Some "key not found: domain:example.com", NewMockRedisClient).
Proof. vm_compute. repeat split; reflexivity. Qed.

End CacheProperties.

(** ** Feed scheduling (internal/feeds) *)
Section FeedScheduling.
Import time feeds.

(** A cycle hands back the manager it was given: the assignments to
    [LastUpdated] went to the range variable. *)
Lemma UpdateAllFeeds_manager (now : Time) updateFeed (fm : FeedManager) :
  manager (UpdateAllFeeds now updateFeed fm) = fm.
Proof.
  unfold UpdateAllFeeds.
  destruct (rangeFeeds now updateFeed (feeds.feeds fm) [] []) as [es rs]. reflexivity.
Qed.

Lemma UpdateAllAdBlockFeeds_manager (now : Time) updateAdBlockFeed (abm : AdBlockManager) :
  manager (UpdateAllAdBlockFeeds now updateAdBlockFeed abm) = abm.
Proof.
  unfold UpdateAllAdBlockFeeds.
  destruct (rangeAdBlockFeeds now updateAdBlockFeed (ab_feeds abm) [] []) as [es rs].
  reflexivity.
Qed.

(** C8: two cycles one second apart on the configured managers, every fetch
    succeeding.  The first cycle requests URLhaus and OpenPhish (and the six
    ad lists) and leaves every [LastUpdated] at the zero time; the second
    cycle, started one second later, requests all of them again. *)
Theorem C8_back_to_back_cycles_fetch_again :
  let first := UpdateAllFeeds fixtures.t0 fixtures.fetchOk NewFeedManager in
  let second := UpdateAllFeeds (fixtures.t0 + Second)%Z fixtures.fetchOk (manager first) in
  let adFirst := UpdateAllAdBlockFeeds fixtures.t0 fixtures.adFetchOk NewAdBlockManager in
  let adSecond :=
    UpdateAllAdBlockFeeds (fixtures.t0 + Second)%Z fixtures.adFetchOk (manager adFirst) in
  requested first = ["URLhaus"; "OpenPhish"]
  /\ List.map LastUpdated (feeds.feeds (manager first)) = [0; 0; 0]%Z
  /\ requested second = ["URLhaus"; "OpenPhish"]
  /\ length (requested adFirst) = 6
  /\ requested adSecond = requested adFirst.
Proof. vm_compute. repeat split; reflexivity. Qed.

End FeedScheduling.

(** ** Threat table (internal/db) *)
Section ThreatTable.
Import time db dbspec.

(** The lookup sees only rows created in the last 30 days, whatever their
    [updated_at]. *)
Lemma IsThreatDomain_created_before_window (now : Time) (tdb : ThreatDB) (d : string) :
  lookupErr tdb d = None ->
  (forall r, r ∈ threat_domains tdb -> domain r = d -> (created_at r <= now - days 30)%Z) ->
  IsThreatDomain now tdb d = (false, EmptyString, 0%Z, None).
Proof.
  intros Herr Hold. unfold IsThreatDomain. rewrite Herr.
  assert (List.filter (whereIsThreat now d) (threat_domains tdb) = []) as ->; [|reflexivity].
  induction (threat_domains tdb) as [|r rows IH]; [reflexivity|].
  simpl. unfold whereIsThreat at 1.
  destruct (String.eqb_spec (domain r) d) as [E|NE]; simpl.
  - destruct (Z.ltb_spec (now - days 30) (created_at r)) as [Hlt|_].
    + specialize (Hold r (list_elem_of_here _ _) E). lia.
    + apply IH. intros r' Hin. apply Hold. by apply list_elem_of_further.
  - apply IH. intros r' Hin. apply Hold. by apply list_elem_of_further.
Qed.

(** The classifier's lookup blocks exactly when the row returned by the
    query has a confidence of at least 0.70. *)
Lemma CheckThreatDomain_threshold (now : Time) (c : Connection) (d t : string)
  (isThreat : bool) (confidence : Z) :
  IsThreatDomain now (threatDB c) d = (isThreat, t, confidence, None) ->
  CheckThreatDomain now c d
    = (if isThreat && Z.leb 70 confidence then t else EmptyString, None).
Proof.
  intros H. unfold CheckThreatDomain. rewrite H.
  destruct (isThreat && Z.leb 70 confidence); reflexivity.
Qed.

Lemma filter_other_domains (now : Time) (d : string) (rows : list ThreatRow) :
  (forall y, y ∈ rows -> domain y <> d) ->
  List.filter (whereIsThreat now d) rows = [].
Proof.
  induction rows as [|x rows IH]; intros H; [reflexivity|].
  simpl. unfold whereIsThreat at 1.
  destruct (String.eqb_spec (domain x) d) as [E|_].
  - exfalso. apply (H x); [apply list_elem_of_here|exact E].
  - simpl. apply IH. intros y Hy. apply H. by apply list_elem_of_further.
Qed.

Lemma filter_unique_row (now : Time) (d : string) (rows : list ThreatRow) (r : ThreatRow) :
  NoDup (List.map domain rows) ->
  r ∈ rows -> domain r = d -> (now - days 30 < created_at r)%Z ->
  List.filter (whereIsThreat now d) rows = [r].
Proof.
  induction rows as [|x rows IH]; intros Hnd Hin Hd Hfresh; [inversion Hin|].
  simpl in Hnd. apply NoDup_cons in Hnd as [Hx Hnd].
  apply elem_of_cons in Hin as [->|Hin].
  - simpl. unfold whereIsThreat at 1.
    rewrite Hd, String.eqb_refl. simpl.
    destruct (Z.ltb_spec (now - days 30) (created_at x)) as [_|?]; [|lia].
    f_equal. apply filter_other_domains. intros y Hy Ey. apply Hx.
    rewrite Hd, <- Ey. apply list_elem_of_In, in_map, list_elem_of_In. exact Hy.
  - simpl. unfold whereIsThreat at 1.
    destruct (String.eqb_spec (domain x) d) as [E|_]; [|by apply IH].
    exfalso. apply Hx. rewrite E, <- Hd. apply list_elem_of_In, in_map, list_elem_of_In.
    exact Hin.
Qed.

(** What does hold: a row created in the last 30 days with a confidence of
    at least 0.70 is returned by the lookup with its threat type. *)
Lemma created_recently_is_blockable (now : Time) (c : Connection) (d : string)
  (r : ThreatRow) :
  NoDup (List.map domain (threat_domains (threatDB c))) ->
  lookupErr (threatDB c) d = None ->
  r ∈ threat_domains (threatDB c) -> domain r = d ->
  (now - days 30 < created_at r)%Z ->
  (70 <= confidence_score r)%Z ->
  CheckThreatDomain now c d = (threat_type r, None).
Proof.
  intros Hnd Herr Hin Hd Hfresh Hconf.
  unfold CheckThreatDomain, IsThreatDomain.
  rewrite Herr, (filter_unique_row now d _ r Hnd Hin Hd Hfresh). simpl.
  destruct (Z.leb_spec 70 (confidence_score r)); [reflexivity|lia].
Qed.

(** C1: [evil.example] (confidence 0.90) is upserted at [t0] and again 39
    days later, and classified on day 40 with an empty cache.  Its row was
    updated one day ago, so the row is blockable in the sense of the spec,
    and [CleanupOldThreats] with the same 30 days, which measures
    [updated_at], keeps it.  The lookup measures [created_at], finds no row,
    and the classifier answers block=false. *)
Theorem C1_refreshed_row_is_not_blocked :
  let now := (fixtures.t0 + days 40)%Z in
  threat_domains fixtures.refreshedDB
    = [ {| domain := "evil.example"; threat_type := "malware"; confidence_score := 90;
           source := "urlhaus"; created_at := fixtures.t0;
           updated_at := (fixtures.t0 + days 39)%Z |} ]
  /\ threat_domains (snd (CleanupOldThreats now fixtures.refreshedDB (days 30)))
     = threat_domains fixtures.refreshedDB
  /\ IsThreatDomain now fixtures.refreshedDB "evil.example" = (false, EmptyString, 0%Z, None)
  /\ fst (dns.shouldBlockDomain now {| threatDB := fixtures.refreshedDB |}
            cache.NewMockRedisClient "evil.example")
     = (false, EmptyString, None).
Proof. vm_compute. repeat split; reflexivity. Qed.

Lemma elem_of_upsert_domains (x : ThreatRow) (table : list ThreatRow) (d : string) :
  d ∈ List.map domain (upsert x table) <-> d = domain x \/ d ∈ List.map domain table.
Proof.
  induction table as [|r rest IH]; simpl.
  - rewrite list_elem_of_singleton. split; [by left|]. intros [?|H]; [done|]. inversion H.
  - destruct (String.eqb_spec (domain r) (domain x)) as [E|NE]; simpl.
    + rewrite !elem_of_cons. rewrite <- E. tauto.
    + rewrite !elem_of_cons, IH. tauto.
Qed.

(** The single-row upsert keeps UNIQUE(domain). *)
Lemma upsert_unique (x : ThreatRow) (table : list ThreatRow) :
  NoDup (List.map domain table) -> NoDup (List.map domain (upsert x table)).
Proof.
  induction table as [|r rest IH]; simpl; intros Hnd.
  - apply NoDup_singleton.
  - apply NoDup_cons in Hnd as [Hnotin Hrest].
    destruct (String.eqb_spec (domain r) (domain x)) as [E|NE]; simpl.
    + apply NoDup_cons. split; done.
    + apply NoDup_cons. split; [|by apply IH].
      rewrite elem_of_upsert_domains. intros [?|?]; [congruence|done].
Qed.

Lemma confidenceOf_upsert (x : ThreatRow) (table : list ThreatRow) (d : string) :
  confidenceOf d (upsert x table) =
    if String.eqb (domain x) d
    then Some (match confidenceOf d table with
               | Some c => Z.max c (confidence_score x)
               | None => confidence_score x
               end)
    else confidenceOf d table.
Proof.
  induction table as [|r rest IH]; simpl.
  - destruct (String.eqb_spec (domain x) d); reflexivity.
  - destruct (String.eqb_spec (domain r) (domain x)) as [E|NE]; simpl.
    + rewrite E. destruct (String.eqb_spec (domain x) d); reflexivity.
    + destruct (String.eqb_spec (domain r) d) as [E'|NE'].
      * destruct (String.eqb_spec (domain x) d); [congruence|reflexivity].
      * apply IH.
Qed.

(** On the upsert path, when the statements go through, the merge policy
    holds: one row per domain, and the stored confidence is the maximum of
    the previous one and those of the matching entries. *)
Lemma spec_BulkUpsert_merges (now : Time) (es : list feeds.ThreatEntry) (tdb : ThreatDB) :
  callErr tdb ExecUpsert = None ->
  NoDup (List.map domain (threat_domains tdb)) ->
  NoDup (List.map domain (threat_domains (spec_BulkUpsert now tdb es)))
  /\ forall d, confidenceOf d (threat_domains (spec_BulkUpsert now tdb es))
               = mergeMax d (confidenceOf d (threat_domains tdb)) es.
Proof.
  revert tdb. induction es as [|e es IH]; intros tdb Hok Hnd; [by split|].
  unfold spec_BulkUpsert, mergeMax in *. simpl. unfold UpdateThreatEntry at 2 4.
  rewrite Hok. cbn [snd].
  destruct (IH (withRows tdb (upsert (copyRow now e) (threat_domains tdb)))) as [IH1 IH2].
  { exact Hok. }
  { simpl. by apply upsert_unique. }
  split; [exact IH1|].
  intros d. rewrite IH2. simpl. rewrite confidenceOf_upsert. simpl. reflexivity.
Qed.

Lemma mergeMax_Some_ge (d : string) (es : list feeds.ThreatEntry) (c : Z) :
  exists c', mergeMax d (Some c) es = Some c' /\ (c <= c')%Z.
Proof.
  revert c. induction es as [|e es IH]; intros c; simpl.
  - exists c. split; [reflexivity|lia].
  - unfold mergeMax in *. simpl. destruct (String.eqb (feeds.Domain e) d).
    + destruct (IH (Z.max c (feeds.Confidence e))) as (c' & -> & Hle).
      exists c'. split; [reflexivity|lia].
    + apply IH.
Qed.

(** No upsert lowers a stored confidence. *)
Lemma spec_BulkUpsert_never_decreases (now : Time) (es : list feeds.ThreatEntry)
  (tdb : ThreatDB) (d : string) (c : Z) :
  callErr tdb ExecUpsert = None ->
  NoDup (List.map domain (threat_domains tdb)) ->
  confidenceOf d (threat_domains tdb) = Some c ->
  exists c', confidenceOf d (threat_domains (spec_BulkUpsert now tdb es)) = Some c'
             /\ (c <= c')%Z.
Proof.
  intros Hok Hnd Hc. destruct (spec_BulkUpsert_merges now es tdb Hok Hnd) as [_ H].
  rewrite H, Hc. apply mergeMax_Some_ge.
Qed.

(** COPY fails as soon as a buffered row repeats a domain of the table. *)
Lemma copyIn_conflict (table rows : list ThreatRow) (r : ThreatRow) :
  r ∈ rows -> hasDomain (domain r) table = true -> copyIn table rows = None.
Proof.
  revert table. induction rows as [|x rows IH]; intros table Hin Hhas.
  - inversion Hin.
  - simpl. destruct (hasDomain (domain x) table) eqn:Hx; [reflexivity|].
    apply elem_of_cons in Hin as [->|Hin]; [congruence|].
    apply IH; [done|]. unfold hasDomain in *. rewrite existsb_app, Hhas. reflexivity.
Qed.

(** C3: the bulk path, [BatchInsertThreats].  The table lists
    [evil.example] at 0.80 and the batch brings it at 0.90: the COPY hits
    UNIQUE(domain), the call returns an error and the stored confidence is
    still 0.80.  On an empty table, a batch in which two feeds report
    [evil.example] (0.80 and 0.90) fails the same way and stores no row.
    The single-row upsert, [UpdateThreatEntry], does store the maximum. *)
Theorem C3_batch_insert_does_not_merge :
  let now := (fixtures.t0 + Hour)%Z in
  confidenceOf "evil.example" (threat_domains fixtures.seededDB) = Some 80%Z
  /\ (let '(err, tdb) := BatchInsertThreats now fixtures.seededDB [fixtures.evil] in
      err = Some "executing COPY: duplicate key value violates unique constraint"
      /\ confidenceOf "evil.example" (threat_domains tdb) = Some 80%Z)
  /\ (let '(err, tdb) := BatchInsertThreats now fixtures.emptyDB fixtures.twoFeedsBatch in
      err = Some "executing COPY: duplicate key value violates unique constraint"
      /\ threat_domains tdb = [])
  /\ confidenceOf "evil.example"
       (threat_domains (snd (UpdateThreatEntry now fixtures.seededDB fixtures.evil)))
     = Some 90%Z
  /\ confidenceOf "evil.example"
       (threat_domains (spec_BulkUpsert now fixtures.emptyDB fixtures.twoFeedsBatch))
     = Some 90%Z.
Proof. vm_compute. repeat split; reflexivity. Qed.

End ThreatTable.

(** ** Strings and domain validation: the behaviour at the edges *)
Section StringExamples.
Import strings feeds.

Example Split_labels : Split "ads.cdn.example.com" "."%char = ["ads"; "cdn"; "example"; "com"].
Proof. reflexivity. Qed.

Example parentDomains_walk :
  dns.parentDomains "ads.cdn.example.com" = ["cdn.example.com"; "example.com"; "com"].
Proof. reflexivity. Qed.

Example parentDomains_single_label : dns.parentDomains "com" = [].
Proof. reflexivity. Qed.

Example queryDomain_normalizes :
  dnsspec.queryDomain (fixtures.questionA "Tracker.CDN.DoubleClick.net.")
    = "tracker.cdn.doubleclick.net".
Proof. reflexivity. Qed.

Example isValidDomain_accepts : isValidDomain "my-localhost.net" = true.
Proof. reflexivity. Qed.

Example isValidDomain_rejects :
  isValidDomain "-ads.example" = false /\ isValidDomain "ads-.example" = false
  /\ isValidDomain "ads..example" = false /\ isValidDomain "ads.example." = false
  /\ isValidDomain "ads_1.example" = false /\ isValidDomain EmptyString = false.
Proof. repeat split; reflexivity. Qed.

(** A label of 63 bytes matches, one of 64 does not. *)
Example matchLabel_length :
  matchLabel (string_of_list_ascii (repeat "a"%char 63)) = true
  /\ matchLabel (string_of_list_ascii (repeat "a"%char 64)) = false.
Proof. split; vm_compute; reflexivity. Qed.

End StringExamples.

(** ** Upstream forwarder and request handler (internal/dns/server.go) *)
Section Forwarder.
Import time dns dnsspec.

Lemma forward_skips (w : World) (q : Question) (d : string) (pre rest : list string) :
  Forall (fun u => movesOn (exchange w u d (Qtype q)) = true) pre ->
  forwardToUpstream w (pre ++ rest) q d = forwardToUpstream w rest q d.
Proof.
  induction 1 as [|u pre Hu _ IH]; [reflexivity|].
  simpl. unfold movesOn in Hu.
  destruct (exchange w u d (Qtype q)) as [e|response]; [exact IH|].
  apply andb_true_iff in Hu as [H1 H2].
  apply negb_true_iff in H1. apply negb_true_iff in H2.
  rewrite H1, H2. exact IH.
Qed.

Lemma forward_answered (w : World) (q : Question) (d u : string) (rest : list string)
  (response : Msg) :
  exchange w u d (Qtype q) = ExchangeOk response ->
  Rcode response = RcodeSuccess -> Answer response <> [] ->
  forwardToUpstream w (u :: rest) q d = (Answer response, None).
Proof.
  intros Hx Hrc Hans. simpl. rewrite Hx, Hrc.
  destruct (Answer response); [contradiction|reflexivity].
Qed.

Lemma forward_nxdomain (w : World) (q : Question) (d u : string) (rest : list string)
  (response : Msg) :
  exchange w u d (Qtype q) = ExchangeOk response ->
  Rcode response = RcodeNameError ->
  forwardToUpstream w (u :: rest) q d = ([], None).
Proof. intros Hx Hrc. simpl. rewrite Hx, Hrc. reflexivity. Qed.

Lemma forward_exhausted (w : World) (q : Question) (d : string) (ups : list string) :
  Forall (fun u => movesOn (exchange w u d (Qtype q)) = true) ups ->
  forwardToUpstream w ups q d = ([], Some "all upstream servers failed").
Proof.
  intros H. rewrite <- (app_nil_r ups). rewrite (forward_skips w q d ups [] H). reflexivity.
Qed.

(** The only error of the forwarder is the one after the loop. *)
Lemma forward_error_inv (w : World) (q : Question) (d : string) (ups : list string)
  (a : list RR) (e : string) :
  forwardToUpstream w ups q d = (a, Some e) ->
  Forall (fun u => movesOn (exchange w u d (Qtype q)) = true) ups.
Proof.
  induction ups as [|u ups IH]; intros H; [constructor|].
  simpl in H. unfold movesOn.
  destruct (exchange w u d (Qtype q)) as [x|response] eqn:Hx.
  - constructor; [by rewrite Hx|by apply IH].
  - destruct (N.eqb (Rcode response) RcodeSuccess && (0 <? length (Answer response))%nat)
      eqn:H1; [discriminate|].
    destruct (N.eqb (Rcode response) RcodeNameError) eqn:H2; [discriminate|].
    constructor; [by rewrite Hx, H1, H2|by apply IH].
Qed.

(** One iteration of the question loop, by cases. *)
Lemma handleQuestion_blocked (w : World) (s : Server) (msg : Msg) (q : Question)
  (t : string) (err : error) (c : cache.MockRedisClient) :
  shouldBlockDomain (now w) (database s) (cache_ s) (queryDomain q) = (true, t, err, c) ->
  exists s', handleQuestion w s msg q = (s', setRcode msg RcodeNameError, true).
Proof.
  intros H. unfold handleQuestion. fold (queryDomain q). rewrite H. eauto.
Qed.

Lemma handleQuestion_forward_error (w : World) (s : Server) (msg : Msg) (q : Question)
  (t : string) (err : error) (c : cache.MockRedisClient) (a : list RR) (e : string) :
  shouldBlockDomain (now w) (database s) (cache_ s) (queryDomain q) = (false, t, err, c) ->
  forwardToUpstream w (upstreams s) q (queryDomain q) = (a, Some e) ->
  exists s', handleQuestion w s msg q = (s', setRcode msg RcodeServerFailure, true).
Proof.
  intros H Hf. unfold handleQuestion. fold (queryDomain q). rewrite H.
  cbv beta iota zeta.
  assert (Hups : forall m, upstreams (if isNil err then withCache s c
                      else withMetrics (withCache s c) m) = upstreams s)
    by (intros m; destruct (isNil err); reflexivity).
  rewrite Hups, Hf. eauto.
Qed.

Lemma handleQuestion_forward_ok (w : World) (s : Server) (msg : Msg) (q : Question)
  (t : string) (err : error) (c : cache.MockRedisClient) (answer : list RR) :
  shouldBlockDomain (now w) (database s) (cache_ s) (queryDomain q) = (false, t, err, c) ->
  forwardToUpstream w (upstreams s) q (queryDomain q) = (answer, None) ->
  exists s',
    handleQuestion w s msg q =
      (s', match answer with [] => msg | _ => appendAnswer msg answer end, false).
Proof.
  intros H Hf. unfold handleQuestion. fold (queryDomain q). rewrite H.
  cbv beta iota zeta.
  assert (Hups : forall m, upstreams (if isNil err then withCache s c
                      else withMetrics (withCache s c) m) = upstreams s)
    by (intros m; destruct (isNil err); reflexivity).
  rewrite Hups, Hf. destruct answer; eauto.
Qed.

Lemma handleQuestion_upstreams (w : World) (s s' : Server) (msg msg' : Msg) (q : Question)
  (b : bool) :
  handleQuestion w s msg q = (s', msg', b) -> upstreams s' = upstreams s.
Proof.
  unfold handleQuestion.
  destruct (shouldBlockDomain _ _ _ _) as [[[blocked t] err] c].
  destruct blocked.
  - intros [= <- _ _]. destruct (isNil err); reflexivity.
  - assert (Hups : forall m, upstreams (if isNil err then withCache s c
                      else withMetrics (withCache s c) m) = upstreams s)
      by (intros m; destruct (isNil err); reflexivity).
    destruct (forwardToUpstream _ _ _ _) as [answer [e|]].
    + intros [= <- _ _]. apply Hups.
    + destruct answer; intros [= <- _ _]; apply Hups.
Qed.

(** An iteration writes the answer section and the rcode only. *)
Lemma handleQuestion_header (w : World) (s s' : Server) (msg msg' : Msg) (q : Question)
  (b : bool) :
  handleQuestion w s msg q = (s', msg', b) ->
  Id msg' = Id msg /\ Questions msg' = Questions msg
  /\ Response msg' = Response msg /\ Authoritative msg' = Authoritative msg
  /\ RecursionAvailable msg' = RecursionAvailable msg.
Proof.
  unfold handleQuestion.
  destruct (shouldBlockDomain _ _ _ _) as [[[blocked t] err] c].
  destruct blocked.
  - intros [= _ <- _]. by repeat split.
  - destruct (forwardToUpstream _ _ _ _) as [answer [e|]].
    + intros [= _ <- _]. by repeat split.
    + destruct answer; intros [= _ <- _]; by repeat split.
Qed.

Lemma rangeQuestions_app (w : World) (qs rest : list Question) (s : Server) (msg : Msg) :
  rangeQuestions w s msg (qs ++ rest) =
    match rangeQuestions w s msg qs with
    | (s1, msg1, true) => (s1, msg1, true)
    | (s1, msg1, false) => rangeQuestions w s1 msg1 rest
    end.
Proof.
  revert s msg. induction qs as [|q qs IH]; intros s msg; [reflexivity|].
  simpl. destruct (handleQuestion w s msg q) as [[s' msg'] broke].
  destruct broke; [reflexivity|apply IH].
Qed.

Lemma rangeQuestions_upstreams (w : World) (qs : list Question) (s s' : Server)
  (msg msg' : Msg) (b : bool) :
  rangeQuestions w s msg qs = (s', msg', b) -> upstreams s' = upstreams s.
Proof.
  revert s msg. induction qs as [|q qs IH]; intros s msg; simpl.
  - by intros [= <- _ _].
  - destruct (handleQuestion w s msg q) as [[s1 msg1] broke] eqn:Hq.
    apply handleQuestion_upstreams in Hq.
    destruct broke; [intros [= <- _ _]; done|].
    intros H. apply IH in H. congruence.
Qed.

Lemma rangeQuestions_header (w : World) (qs : list Question) (s s' : Server)
  (msg msg' : Msg) (b : bool) :
  rangeQuestions w s msg qs = (s', msg', b) ->
  Id msg' = Id msg /\ Questions msg' = Questions msg
  /\ Response msg' = Response msg /\ Authoritative msg' = Authoritative msg
  /\ RecursionAvailable msg' = RecursionAvailable msg.
Proof.
  revert s msg. induction qs as [|q qs IH]; intros s msg; simpl.
  - by intros [= _ <- _].
  - destruct (handleQuestion w s msg q) as [[s1 msg1] broke] eqn:Hq.
    apply handleQuestion_header in Hq as (H1 & H2 & H3 & H4 & H5).
    destruct broke.
    + intros [= _ <- _]. by repeat split.
    + intros H. apply IH in H as (G1 & G2 & G3 & G4 & G5).
      repeat split; congruence.
Qed.

End Forwarder.

Section Handler.
Import time dns dnsspec.

Variable SetReply : Msg -> Msg.

(** The message the question loop starts from. *)
Lemma handleDNSRequest_response (w : World) (s : Server) (r : Msg) :
  snd (handleDNSRequest SetReply w s r) =
    snd (fst (rangeQuestions w (withMetrics s (incQueries (metrics s)))
                (setFlags (SetReply r)) (Questions r))).
Proof.
  unfold handleDNSRequest.
  destruct (rangeQuestions _ _ _ _) as [[s' msg'] b]. reflexivity.
Qed.

(** For an upstream NXDOMAIN the forwarder returns no records and no error,
    and the handler leaves the response as it was: with one question, the
    rcode sent is the one [SetReply] put there. *)
Lemma upstream_nxdomain_keeps_rcode (w : World) (s : Server) (r : Msg) (q : Question)
  (t : string) (err : error) (c : cache.MockRedisClient) :
  Questions r = [q] ->
  shouldBlockDomain (now w) (database s) (cache_ s) (queryDomain q) = (false, t, err, c) ->
  forwardToUpstream w (upstreams s) q (queryDomain q) = ([], None) ->
  snd (handleDNSRequest SetReply w s r) = setFlags (SetReply r).
Proof.
  intros Hq Hsb Hf. rewrite handleDNSRequest_response, Hq. simpl.
  destruct (handleQuestion_forward_ok w (withMetrics s (incQueries (metrics s)))
              (setFlags (SetReply r)) q t err c [] Hsb Hf) as [s' ->].
  reflexivity.
Qed.

(** The loop reaches the question [q] after the questions [qs] (none of
    which ended the loop), and [q] is classified as blocked.  Then the loop
    ends at [q]; the response has Rcode NameError, the answer section that
    the questions before [q] left, and the id and question section that
    [SetReply] gave it. *)
Lemma blocked_question_ends_loop (w : World) (s : Server) (r : Msg)
  (qs rest : list Question) (q : Question) (s1 : Server) (msg1 : Msg)
  (t : string) (err : error) (c : cache.MockRedisClient) :
  Questions r = (qs ++ q :: rest)%list ->
  rangeQuestions w (withMetrics s (incQueries (metrics s))) (setFlags (SetReply r)) qs
    = (s1, msg1, false) ->
  shouldBlockDomain (now w) (database s1) (cache_ s1) (queryDomain q) = (true, t, err, c) ->
  let response := snd (handleDNSRequest SetReply w s r) in
  rangeQuestions w (withMetrics s (incQueries (metrics s))) (setFlags (SetReply r))
    (Questions r) = handleQuestion w s1 msg1 q
  /\ Rcode response = RcodeNameError
  /\ Answer response = Answer msg1
  /\ (qs = [] -> Answer (SetReply r) = [] -> Answer response = [])
  /\ Id response = Id (SetReply r)
  /\ Questions response = Questions (SetReply r)
  /\ (Id (SetReply r) = Id r -> Id response = Id r)
  /\ (Questions (SetReply r) = Questions r -> Questions response = Questions r).
Proof.
  intros Hq Hpre Hsb response.
  assert (Hloop : rangeQuestions w (withMetrics s (incQueries (metrics s)))
                    (setFlags (SetReply r)) (Questions r) = handleQuestion w s1 msg1 q).
  { rewrite Hq, rangeQuestions_app, Hpre. simpl.
    destruct (handleQuestion_blocked w s1 msg1 q t err c Hsb) as [s' ->]. reflexivity. }
  assert (Hresp : response = setRcode msg1 RcodeNameError).
  { unfold response. rewrite handleDNSRequest_response, Hloop.
    destruct (handleQuestion_blocked w s1 msg1 q t err c Hsb) as [s' ->]. reflexivity. }
  apply rangeQuestions_header in Hpre as Hhdr. destruct Hhdr as (Hid & Hqs & _).
  split; [exact Hloop|]. rewrite Hresp. simpl.
  split; [reflexivity|]. split; [reflexivity|]. split.
  { intros -> Hempty. simpl in Hpre. injection Hpre as _ <-. exact Hempty. }
  split; [exact Hid|]. split; [exact Hqs|].
  split; intros E; rewrite <- E; assumption.
Qed.

(** When the forwarder fails for the question the loop
    has reached, the response carries Rcode ServerFailure. *)
Lemma forward_error_is_ServerFailure (w : World) (s : Server) (r : Msg)
  (qs rest : list Question) (q : Question) (s1 : Server) (msg1 : Msg)
  (t : string) (err : error) (c : cache.MockRedisClient) (a : list RR) (e : string) :
  Questions r = (qs ++ q :: rest)%list ->
  rangeQuestions w (withMetrics s (incQueries (metrics s))) (setFlags (SetReply r)) qs
    = (s1, msg1, false) ->
  shouldBlockDomain (now w) (database s1) (cache_ s1) (queryDomain q) = (false, t, err, c) ->
  forwardToUpstream w (upstreams s) q (queryDomain q) = (a, Some e) ->
  Rcode (snd (handleDNSRequest SetReply w s r)) = RcodeServerFailure.
Proof.
  intros Hq Hpre Hsb Hf.
  rewrite handleDNSRequest_response, Hq, rangeQuestions_app, Hpre.
  apply rangeQuestions_upstreams in Hpre. simpl in Hpre. rewrite <- Hpre in Hf.
  simpl. destruct (handleQuestion_forward_error w s1 msg1 q t err c a e Hsb Hf) as [s' ->].
  reflexivity.
Qed.

End Handler.

Section RequestPath.
Import time dns dnsspec.

(** C6: the upstreams before [u] in the configured list all move on (an
    exchange error, or a response that is neither Success with a record nor
    NameError).  Then the forwarder returns the records of [u] if [u]
    answers Success with at least one record, and returns without records
    and without error if [u] answers NameError, whatever the upstreams after
    [u] would answer.  If every upstream moves on, the forwarder returns an
    error, and the handler answers the client with Rcode ServerFailure. *)
Theorem C6_forwarder_failover (w : World) (q : Question) (d : string)
  (pre post : list string) :
  Forall (fun u => movesOn (exchange w u d (Qtype q)) = true) pre ->
  (forall u response,
      exchange w u d (Qtype q) = ExchangeOk response ->
      Rcode response = RcodeSuccess -> Answer response <> [] ->
      forwardToUpstream w (pre ++ u :: post) q d = (Answer response, None))
  /\ (forall u response,
      exchange w u d (Qtype q) = ExchangeOk response ->
      Rcode response = RcodeNameError ->
      forwardToUpstream w (pre ++ u :: post) q d = ([], None))
  /\ forwardToUpstream w pre q d = ([], Some "all upstream servers failed")
  /\ (forall SetReply s r qs rest s1 msg1 t err c,
      d = queryDomain q ->
      upstreams s = pre ->
      Questions r = (qs ++ q :: rest)%list ->
      rangeQuestions w (withMetrics s (incQueries (metrics s))) (setFlags (SetReply r)) qs
        = (s1, msg1, false) ->
      shouldBlockDomain (now w) (database s1) (cache_ s1) d = (false, t, err, c) ->
      Rcode (snd (handleDNSRequest SetReply w s r)) = RcodeServerFailure).
Proof.
  intros Hpre. repeat split.
  - intros u response Hx Hrc Hans. rewrite (forward_skips w q d pre _ Hpre).
    by apply forward_answered.
  - intros u response Hx Hrc. rewrite (forward_skips w q d pre _ Hpre).
    by eapply forward_nxdomain.
  - by apply forward_exhausted.
  - intros SetReply s r qs rest s1 msg1 t err c -> Hups Hq Hloop Hsb.
    eapply forward_error_is_ServerFailure; eauto.
    rewrite Hups. by apply forward_exhausted.
Qed.

(** Three runs of the forwarder on the default upstreams: the first upstream
    times out and the second answers; the first upstream answers NXDOMAIN
    and the second, which would answer with a record, is not asked; both
    upstreams time out and the client receives ServerFailure. *)
Lemma C6_forwarder_failover_witness :
  Forall (fun u => movesOn (exchange fixtures.world1 u "flaky.example" 1) = true)
    ["1.1.1.1:53"]
  /\ forwardToUpstream fixtures.world1 ["1.1.1.1:53"; "8.8.8.8:53"]
       (fixtures.questionA "flaky.example.") "flaky.example"
     = ([fixtures.aRecord "flaky.example." "10.0.0.2"], None)
  /\ forwardToUpstream fixtures.world1 ["1.1.1.1:53"; "8.8.8.8:53"]
       (fixtures.questionA "nonexistent.example.") "nonexistent.example"
     = ([], None)
  /\ Rcode (snd (handleDNSRequest SetReply fixtures.world1 fixtures.server1
                   (fixtures.query 9 ["timeout.example."])))
     = RcodeServerFailure.
Proof.
  assert (H : Forall (fun u => movesOn (exchange fixtures.world1 u "flaky.example" 1) = true)
                ["1.1.1.1:53"]) by (repeat constructor).
  split; [exact H|]. split; [|split].
  - destruct (C6_forwarder_failover fixtures.world1 (fixtures.questionA "flaky.example.")
                "flaky.example" ["1.1.1.1:53"] [] H) as [Hans _].
    apply (Hans "8.8.8.8:53"
             (fixtures.upstreamReply RcodeSuccess
                [fixtures.aRecord "flaky.example." "10.0.0.2"]));
      [reflexivity | reflexivity | discriminate].
  - destruct (C6_forwarder_failover fixtures.world1
                (fixtures.questionA "nonexistent.example.") "nonexistent.example"
                [] ["8.8.8.8:53"] (Forall_nil_2 _)) as (_ & Hnx & _).
    apply (Hnx "1.1.1.1:53" (fixtures.upstreamReply RcodeNameError []));
      reflexivity.
  - assert (Hall : Forall (fun u => movesOn (exchange fixtures.world1 u "timeout.example" 1)
                                    = true) ["1.1.1.1:53"; "8.8.8.8:53"])
      by (repeat constructor).
    destruct (C6_forwarder_failover fixtures.world1 (fixtures.questionA "timeout.example.")
                "timeout.example" ["1.1.1.1:53"; "8.8.8.8:53"] [] Hall) as (_ & _ & _ & Hsf).
    set (s0 := withMetrics fixtures.server1 (incQueries (metrics fixtures.server1))).
    set (sb := shouldBlockDomain (now fixtures.world1) (database s0) (cache_ s0)
                 "timeout.example").
    assert (Hsb : sb = (false, EmptyString, None, snd sb)) by (vm_compute; reflexivity).
    apply (Hsf SetReply fixtures.server1 (fixtures.query 9 ["timeout.example."])
             [] [] s0 (setFlags (SetReply (fixtures.query 9 ["timeout.example."])))
             EmptyString None (snd sb));
      [vm_compute; reflexivity | reflexivity | reflexivity | reflexivity | exact Hsb].
Defined.

(** C2: one question for [nonexistent.example], which is not blocked; the
    first upstream answers NXDOMAIN.  The forwarder returns at once, without
    records and without error, and the response sent to the client carries
    Rcode Success with an empty answer section. *)
Theorem C2_upstream_nxdomain_is_sent_as_success :
  let q := fixtures.questionA "nonexistent.example." in
  let r := fixtures.query 4242 ["nonexistent.example."] in
  let response := snd (handleDNSRequest SetReply fixtures.world1 fixtures.server1 r) in
  upstreams fixtures.server1 = ["1.1.1.1:53"; "8.8.8.8:53"]
  /\ exchange fixtures.world1 "1.1.1.1:53" "nonexistent.example" 1
     = ExchangeOk (fixtures.upstreamReply RcodeNameError [])
  /\ forwardToUpstream fixtures.world1 (upstreams fixtures.server1) q "nonexistent.example"
     = ([], None)
  /\ Id response = 4242%N
  /\ Rcode response = RcodeSuccess
  /\ Answer response = [].
Proof. vm_compute. repeat split; reflexivity. Qed.


End RequestPath.

(** ** Query classifier (shouldBlockDomain) *)
Section Classifier.
Import time dns dnsspec.

Lemma Get_closed (now : Time) (c c1 : cache.MockRedisClient) (key cached : string)
  (err : error) :
  cache.Get now c key = (cached, err, c1) -> cache.closed c1 = cache.closed c.
Proof.
  unfold cache.Get. destruct (cache.closed c) eqn:Hc.
  - intros [= _ _ <-]. exact Hc.
  - destruct (cache.data c !! key) as [v|].
    + destruct (cache.expired now v); intros [= _ _ <-]; simpl; congruence.
    + intros [= _ _ <-]. exact Hc.
Qed.

(** When the cache lookup decides nothing, both cache tests of the
    classifier fail. *)
Lemma undecided_tests (cached : string) (err : error) :
  cacheUndecided cached err ->
  isNil err && negb (String.eqb cached EmptyString) && String.eqb cached "blocked" = false
  /\ isNil err && negb (String.eqb cached EmptyString) && String.eqb cached "allowed" = false.
Proof.
  intros Hu. destruct err as [e|]; [by split|].
  destruct (Hu eq_refl) as [Hb Ha].
  apply String.eqb_neq in Hb. apply String.eqb_neq in Ha.
  rewrite Hb, Ha, !andb_false_r. by split.
Qed.

Lemma checkParents_skips_error (now : Time) (database : db.Connection)
  (p : string) (rest : list string) (t e : string) :
  db.CheckThreatDomain now database p = (t, Some e) ->
  checkParents now database (p :: rest) = checkParents now database rest.
Proof. intros H. simpl. rewrite H. reflexivity. Qed.

Lemma checkParents_skips_notBlockable (now : Time) (database : db.Connection)
  (p : string) (rest : list string) :
  notBlockable now database p ->
  checkParents now database (p :: rest) = checkParents now database rest.
Proof.
  intros Hnb. simpl.
  destruct (db.CheckThreatDomain now database p) as [t [e|]] eqn:Hp; [reflexivity|].
  destruct (String.eqb_spec t EmptyString) as [->|Hne]; [reflexivity|].
  exfalso. apply (Hnb t). by split.
Qed.

(** The first blockable suffix wins. *)
Lemma checkParents_first_blockable (now : Time) (database : db.Connection)
  (pre post : list string) (p t : string) :
  Forall (notBlockable now database) pre ->
  blockable now database p t ->
  checkParents now database (pre ++ p :: post) = Some t.
Proof.
  intros Hpre [Hp Hne]. induction Hpre as [|x pre Hx _ IH].
  - simpl. rewrite Hp. apply String.eqb_neq in Hne. rewrite Hne. reflexivity.
  - rewrite <- app_comm_cons. rewrite checkParents_skips_notBlockable; done.
Qed.


(** C7, as amended: the cache lookup decides nothing and the lookup of the
    queried domain fails.  The classifier returns block=false together with
    the error, without looking at the parent suffixes and without writing
    the cache; the handler records the error, one increment of [DNSErrors]
    (a second one only if the forwarder fails too), counts nothing as
    blocked and goes on to the forwarder, so the response is the one of a
    query that was not blocked.  An error on the lookup of a parent suffix
    only skips that suffix. *)
Theorem C7_lookup_error_fails_open (w : World) (s : Server) (msg : Msg) (q : Question)
  (cached : string) (cerr : error) (c1 : cache.MockRedisClient) (t e : string) :
  cache.Get (now w) (cache_ s) (cacheKey (queryDomain q)) = (cached, cerr, c1) ->
  cacheUndecided cached cerr ->
  db.CheckThreatDomain (now w) (database s) (queryDomain q) = (t, Some e) ->
  shouldBlockDomain (now w) (database s) (cache_ s) (queryDomain q) = (false, EmptyString, Some e, c1)
  /\ snd (fst (handleQuestion w s msg q))
     = match forwardToUpstream w (upstreams s) q (queryDomain q) with
       | (_, Some _) => setRcode msg RcodeServerFailure
       | ([], None) => msg
       | (answer, None) => appendAnswer msg answer
       end
  /\ cache_ (fst (fst (handleQuestion w s msg q))) = c1
  /\ DNSErrors (metrics (fst (fst (handleQuestion w s msg q))))
     = (DNSErrors (metrics s) + 1
        + match forwardToUpstream w (upstreams s) q (queryDomain q) with
          | (_, Some _) => 1
          | (_, None) => 0
          end)%N
  /\ DNSBlocked (metrics (fst (fst (handleQuestion w s msg q)))) = DNSBlocked (metrics s)
  /\ (forall p rest t' e',
        db.CheckThreatDomain (now w) (database s) p = (t', Some e') ->
        checkParents (now w) (database s) (p :: rest)
          = checkParents (now w) (database s) rest).
Proof.
  intros Hget Hund Hd.
  destruct (undecided_tests cached cerr Hund) as [Hb Ha].
  assert (Hsb : shouldBlockDomain (now w) (database s) (cache_ s) (queryDomain q)
                = (false, EmptyString, Some e, c1)).
  { unfold shouldBlockDomain. rewrite Hget, Hb, Ha, Hd. reflexivity. }
  split; [exact Hsb|]. split; [|split; [|split; [|split]]].
  - destruct (forwardToUpstream w (upstreams s) q (queryDomain q)) as [a [fe|]] eqn:Hf.
    + destruct (handleQuestion_forward_error w s msg q EmptyString (Some e) c1 a fe Hsb Hf) as [s' ->].
      destruct a; reflexivity.
    + destruct (handleQuestion_forward_ok w s msg q EmptyString (Some e) c1 a Hsb Hf) as [s' ->].
      destruct a; reflexivity.
  - unfold handleQuestion. fold (queryDomain q). rewrite Hsb. cbv beta iota zeta.
    destruct (forwardToUpstream _ _ _ _) as [a [fe|]]; [reflexivity|].
    destruct a; reflexivity.
  - unfold handleQuestion. fold (queryDomain q). rewrite Hsb. cbv beta iota zeta.
    destruct (forwardToUpstream _ _ _ _) as [a [fe|]]; [cbn; lia|].
    destruct a; cbn; lia.
  - unfold handleQuestion. fold (queryDomain q). rewrite Hsb. cbv beta iota zeta.
    destruct (forwardToUpstream _ _ _ _) as [a [fe|]]; [reflexivity|].
    destruct a; reflexivity.
  - intros p rest t' e' Hp. by eapply checkParents_skips_error.
Qed.

End Classifier.

(** ** Hosts-format parser (internal/feeds/adblock.go) *)
Section HostsParser.
Import time strings feeds feedsspec.

Lemma hostsLine_localhost (text : string) :
  Contains (domainField text) "localhost" = true -> hostsLine text = None.
Proof.
  intros H. unfold hostsLine. fold (domainField text).
  destruct (String.eqb (TrimSpace text) EmptyString || HasPrefix (TrimSpace text) "#"); [reflexivity|].
  destruct (length (Fields (TrimSpace text)) <? 2)%nat; [reflexivity|].
  rewrite H, orb_true_r. reflexivity.
Qed.

Lemma Contains_localhost_self : forall d, d = "localhost" -> Contains d "localhost" = true.
Proof. intros d ->. reflexivity. Qed.

Lemma hostsLine_valid (text : string) :
  TrimSpace text <> EmptyString ->
  HasPrefix (TrimSpace text) "#" = false ->
  2 <= length (Fields (TrimSpace text)) ->
  isValidDomain (domainField text) = true ->
  Contains (domainField text) "localhost" = false ->
  hostsLine text = Some (domainField text).
Proof.
  intros Hne Hhash Hlen Hvalid Hlocal. unfold hostsLine. fold (domainField text).
  apply String.eqb_neq in Hne. rewrite Hne, Hhash. simpl.
  destruct (Nat.ltb_spec (length (Fields (TrimSpace text))) 2) as [Hlt|_]; [lia|].
  rewrite Hvalid, Hlocal. simpl.
  destruct (String.eqb_spec (domainField text) "localhost") as [E|_]; [|reflexivity].
  apply Contains_localhost_self in E. congruence.
Qed.

Lemma hostsScan_skip (clock : Clock) (feed : AdBlockFeed) (text : string)
  (rest : list string) (entries : list ThreatEntry) :
  hostsLine text = None ->
  hostsScan clock feed (text :: rest) entries = hostsScan clock feed rest entries.
Proof. intros H. simpl. rewrite H. reflexivity. Qed.

Lemma hostsScan_app (clock : Clock) (feed : AdBlockFeed) (pre rest : list string)
  (entries : list ThreatEntry) :
  hostsScan clock feed (pre ++ rest) entries =
    match hostsScan clock feed pre entries with
    | (es, true) => (es, true)
    | (es, false) => hostsScan clock feed rest es
    end.
Proof.
  revert entries. induction pre as [|text pre IH]; intros entries; [reflexivity|].
  cbn [hostsScan app]. destruct (hostsLine text) as [d|]; [|apply IH].
  cbv zeta. destruct (hostsCap <=? _)%Z; [reflexivity|apply IH].
Qed.

(** The loop is left by [break] only with the cap reached. *)
Lemma hostsScan_broke (clock : Clock) (feed : AdBlockFeed) (rest : list string)
  (entries es : list ThreatEntry) :
  hostsScan clock feed rest entries = (es, true) -> (hostsCap <= Z.of_nat (length es))%Z.
Proof.
  revert entries. induction rest as [|text rest IH]; intros entries; cbn [hostsScan].
  - discriminate.
  - destruct (hostsLine text) as [d|]; [|apply IH]. cbv zeta.
    destruct (hostsCap <=? _)%Z eqn:Hle; [|apply IH].
    intros [= <-]. by apply Z.leb_le in Hle.
Qed.

(** Entries once collected stay in the result. *)
Lemma hostsScan_keeps (clock : Clock) (feed : AdBlockFeed) (rest : list string)
  (entries : list ThreatEntry) (e : ThreatEntry) :
  In e entries -> In e (fst (hostsScan clock feed rest entries)).
Proof.
  revert entries. induction rest as [|text rest IH]; intros entries Hin; cbn [hostsScan];
    [done|].
  destruct (hostsLine text) as [d|]; [|by apply IH]. cbv zeta.
  destruct (hostsCap <=? _)%Z; cbn [fst].
  - apply in_or_app. by left.
  - apply IH. apply in_or_app. by left.
Qed.

Lemma hostsScan_appends (clock : Clock) (feed : AdBlockFeed) (text d : string)
  (rest : list string) (entries : list ThreatEntry) :
  hostsLine text = Some d ->
  In (hostsAt clock feed (length entries) d)
     (fst (hostsScan clock feed (text :: rest) entries)).
Proof.
  intros H. cbn [hostsScan]. rewrite H. cbv zeta.
  fold (hostsAt clock feed (length entries) d).
  destruct (hostsCap <=? _)%Z; cbn [fst].
  - apply in_or_app. right. by left.
  - apply hostsScan_keeps. apply in_or_app. right. by left.
Qed.

Lemma parseHostsFormat_entries (clock : Clock) (body : Body) (feed : AdBlockFeed) :
  scanErr body = None ->
  parseHostsFormat clock body feed = (fst (hostsScan clock feed (lines body) []), None).
Proof.
  intros H. unfold parseHostsFormat. rewrite H.
  by destruct (hostsScan clock feed (lines body) []).
Qed.

(** With the cap reached inside a run of equal lines, the loop breaks and
    nothing after the run is read. *)
Lemma hostsScan_repeat_cap (clock : Clock) (feed : AdBlockFeed) (text d : string)
  (rest : list string) (n : nat) (entries : list ThreatEntry) :
  hostsLine text = Some d ->
  (1 <= n)%nat ->
  (Z.of_nat (length entries) + Z.of_nat n = hostsCap)%Z ->
  hostsScan clock feed (repeat text n ++ rest) entries
    = ((entries ++ entriesFrom (hostsAt clock feed) (length entries) (repeat d n))%list,
       true).
Proof.
  intros Hline. revert entries. induction n as [|n IH]; intros entries Hn Hcap; [lia|].
  cbn [repeat app hostsScan entriesFrom]. rewrite Hline. cbv zeta.
  fold (hostsAt clock feed (length entries) d).
  destruct (Z.leb_spec hostsCap
              (Z.of_nat (length (entries ++ [hostsAt clock feed (length entries) d]))))
    as [Hle|Hlt]; rewrite length_app in *; cbn [length] in *.
  - assert (n = 0)%nat as -> by lia. reflexivity.
  - rewrite IH; [|lia|rewrite length_app; cbn [length]; lia].
    rewrite length_app, <- app_assoc. cbn [length app].
    by rewrite Nat.add_1_r.
Qed.

Lemma parse_over_cap (clock : Clock) (feed : AdBlockFeed) (text d : string)
  (rest : list string) (n : nat) :
  hostsLine text = Some d ->
  (1 <= n)%nat ->
  (Z.of_nat n = hostsCap)%Z ->
  parseHostsFormat clock {| lines := (repeat text n ++ rest)%list; scanErr := None |} feed
    = (entriesFrom (hostsAt clock feed) 0 (repeat d n), None).
Proof.
  intros Hline Hpos Hn. rewrite parseHostsFormat_entries by reflexivity.
  cbn [lines]. rewrite (hostsScan_repeat_cap clock feed text d rest n [] Hline Hpos).
  - reflexivity.
  - simpl. lia.
Qed.

Lemma entriesFrom_In (mk : nat -> string -> ThreatEntry) (i : nat) (ds : list string)
  (e : ThreatEntry) :
  In e (entriesFrom mk i ds) -> exists j d, In d ds /\ e = mk j d.
Proof.
  revert i. induction ds as [|d ds IH]; intros i; cbn [entriesFrom]; [done|].
  intros [<-|Hin].
  - exists i, d. by split; [left|].
  - destruct (IH _ Hin) as (j & d' & Hd & He). exists j, d'. by split; [right|].
Qed.

(** C10, as amended, for feeds of ASCII lines.  A line whose domain field
    contains "localhost" anywhere contributes nothing: the scan gives what
    it gives without the line.  Any other line that is not empty, is not a
    comment and has at least two fields of which the second, lowercased, is
    a valid domain, makes the loop append an entry with that domain, the
    type "ads" and the confidence 0.85, provided fewer than 50,000 entries
    were collected from the lines before it; the parser returns the entry
    unless the scanner reports a read error. *)
Theorem C10_hosts_lines (clock : Clock) (feed : AdBlockFeed) :
  (forall pre text post entries,
      asciiLines (pre ++ text :: post) ->
      Contains (domainField text) "localhost" = true ->
      hostsLine text = None
      /\ hostsScan clock feed (pre ++ text :: post) entries
         = hostsScan clock feed (pre ++ post) entries)
  /\ (forall body pre text post,
      lines body = (pre ++ text :: post)%list ->
      asciiLines (lines body) ->
      (Z.of_nat (length (fst (hostsScan clock feed pre []))) < hostsCap)%Z ->
      TrimSpace text <> EmptyString ->
      HasPrefix (TrimSpace text) "#" = false ->
      2 <= length (Fields (TrimSpace text)) ->
      isValidDomain (domainField text) = true ->
      Contains (domainField text) "localhost" = false ->
      hostsLine text = Some (domainField text)
      /\ exists e,
           In e (fst (hostsScan clock feed (lines body) []))
           /\ (scanErr body = None -> In e (fst (parseHostsFormat clock body feed)))
           /\ Domain e = domainField text
           /\ ThreatType e = "ads"
           /\ Confidence e = 85%Z).
Proof.
  split.
  - intros pre text post entries _ Hlocal.
    pose proof (hostsLine_localhost text Hlocal) as Hnone.
    split; [exact Hnone|].
    rewrite !hostsScan_app.
    destruct (hostsScan clock feed pre entries) as [es []]; [reflexivity|].
    by apply hostsScan_skip.
  - intros body pre text post Hlines _ Hcap Hne Hhash Hlen Hvalid Hlocal.
    pose proof (hostsLine_valid text Hne Hhash Hlen Hvalid Hlocal) as Hline.
    split; [exact Hline|].
    destruct (hostsScan clock feed pre []) as [es broke] eqn:Hpre.
    exists (hostsAt clock feed (length es) (domainField text)).
    assert (Hin : In (hostsAt clock feed (length es) (domainField text))
                    (fst (hostsScan clock feed (lines body) []))).
    { rewrite Hlines, hostsScan_app, Hpre.
      destruct broke.
      - apply hostsScan_broke in Hpre. simpl in Hcap. lia.
      - by apply hostsScan_appends. }
    split; [exact Hin|]. split; [|by repeat split].
    intros Herr. rewrite (parseHostsFormat_entries clock body feed Herr). exact Hin.
Qed.

End HostsParser.

(** ** The theorems at concrete inputs *)
Section Examples.
Import time strings feeds feedsspec dns dnsspec.




(** The lookup of [tracker.doubleclick.net] fails: the classifier returns
    the error and the untouched cache. *)
Lemma C7_lookup_error_fails_open_witness :
  let s := NewServer {| db.threatDB := fixtures.flakyDB |} cache.NewMockRedisClient
             fixtures.noMetrics [] in
  let q := fixtures.questionA "tracker.doubleclick.net." in
  shouldBlockDomain (now fixtures.world1) (database s) (cache_ s) (queryDomain q)
    = (false, EmptyString,
       Some "failed to check threat domain: querying threat domain: context deadline exceeded",
       cache.NewMockRedisClient).
Proof.
  intros s q.
  assert (Hund : cacheUndecided EmptyString (Some "key not found: domain:tracker.doubleclick.net"))
    by (intros H; discriminate).
  assert (Hget : cache.Get (now fixtures.world1) (cache_ s) (cacheKey (queryDomain q))
                 = (EmptyString, Some "key not found: domain:tracker.doubleclick.net",
                    cache.NewMockRedisClient))
    by (vm_compute; reflexivity).
  assert (Hd : db.CheckThreatDomain (now fixtures.world1) (database s) (queryDomain q)
               = (EmptyString, Some "failed to check threat domain: querying threat domain: context deadline exceeded"))
    by (vm_compute; reflexivity).
  exact (proj1 (C7_lookup_error_fails_open fixtures.world1 s
                  (setFlags (SetReply (fixtures.query 1 [])))
                  q EmptyString _ cache.NewMockRedisClient EmptyString _ Hget Hund Hd)).
Defined.

(** C7, counterexample: the lookup of [tracker.doubleclick.net] fails while
    the lookups of its parents would succeed.  The classifier returns at
    once: the parent suffixes, of which [doubleclick.net] is blockable, are
    not looked at, and no "allowed" entry is written to the cache. *)
Lemma C7_counterexample :
  let now := (fixtures.t0 + Hour)%Z in
  let database := {| db.threatDB := fixtures.flakyDB |} in
  let d := "tracker.doubleclick.net" in
  let result := shouldBlockDomain now database cache.NewMockRedisClient d in
  fst result
    = (false, EmptyString,
       Some "failed to check threat domain: querying threat domain: context deadline exceeded")
  /\ checkParents now database (parentDomains d) = Some "ads"
  /\ cache.data (snd result) !! "domain:tracker.doubleclick.net" = None
  /\ cache.data (snd result) !! "domain:tracker.doubleclick.net"
     <> Some {| cache.value := "allowed"; cache.expiration := (now + 30 * Minute)%Z |}.
Proof. vm_compute. repeat split. discriminate. Qed.

(** The sample hosts file: the three "localhost" lines are skipped and the
    last line yields its entry. *)
Lemma C10_hosts_lines_witness :
  hostsLine "0.0.0.0 my-localhost.net" = None
  /\ hostsLine "0.0.0.0 localhost.example.com" = None
  /\ exists e,
       In e (fst (parseHostsFormat fixtures.ticking fixtures.hostsSample fixtures.stevenBlack))
       /\ Domain e = "ads.example.com" /\ ThreatType e = "ads" /\ Confidence e = 85%Z.
Proof.
  destruct (C10_hosts_lines fixtures.ticking fixtures.stevenBlack) as [Hskip Hentry].
  assert (A1 : asciiLines ([] ++ ["0.0.0.0 my-localhost.net"]))
    by (repeat constructor).
  assert (A2 : asciiLines ([] ++ ["0.0.0.0 localhost.example.com"]))
    by (repeat constructor).
  assert (H1 : Contains (domainField "0.0.0.0 my-localhost.net") "localhost" = true)
    by (vm_compute; reflexivity).
  assert (H2 : Contains (domainField "0.0.0.0 localhost.example.com") "localhost" = true)
    by (vm_compute; reflexivity).
  split; [exact (proj1 (Hskip [] "0.0.0.0 my-localhost.net" [] [] A1 H1))|].
  split; [exact (proj1 (Hskip [] "0.0.0.0 localhost.example.com" [] [] A2 H2))|].
  assert (Hd : domainField "0.0.0.0 Ads.Example.com" = "ads.example.com")
    by (vm_compute; reflexivity).
  assert (Hascii : asciiLines (lines fixtures.hostsSample)) by (repeat constructor).
  assert (Hcap : (Z.of_nat (length (fst (hostsScan fixtures.ticking fixtures.stevenBlack
                    [ "# Title: StevenBlack/hosts"; "127.0.0.1 localhost";
                      "0.0.0.0 my-localhost.net"; "0.0.0.0 localhost.example.com" ] [])))
                  < hostsCap)%Z) by (vm_compute; reflexivity).
  assert (Hne : TrimSpace "0.0.0.0 Ads.Example.com" <> EmptyString) by (vm_compute; discriminate).
  assert (Hhash : HasPrefix (TrimSpace "0.0.0.0 Ads.Example.com") "#" = false)
    by (vm_compute; reflexivity).
  assert (Hlen : 2 <= length (Fields (TrimSpace "0.0.0.0 Ads.Example.com")))
    by (vm_compute; lia).
  assert (Hvalid : isValidDomain (domainField "0.0.0.0 Ads.Example.com") = true)
    by (vm_compute; reflexivity).
  assert (Hlocal : Contains (domainField "0.0.0.0 Ads.Example.com") "localhost" = false)
    by (vm_compute; reflexivity).
  destruct (Hentry fixtures.hostsSample
              [ "# Title: StevenBlack/hosts"; "127.0.0.1 localhost";
                "0.0.0.0 my-localhost.net"; "0.0.0.0 localhost.example.com" ]
              "0.0.0.0 Ads.Example.com" [] eq_refl Hascii Hcap Hne Hhash Hlen Hvalid Hlocal)
    as (_ & e & _ & Hparse & Hdom & Hty & Hconf).
  exists e. split; [exact (Hparse eq_refl)|]. rewrite <- Hd. by repeat split.
Defined.

(** C10, counterexample: the 50,001st line of the feed has a valid shape and
    no "localhost" in its domain, and no entry is produced for it: the
    result is the 50,000 entries of the lines before it. *)
Lemma C10_counterexample :
  hostsLine "0.0.0.0 tracker.example" = Some "tracker.example"
  /\ parseHostsFormat fixtures.ticking fixtures.overCap fixtures.stevenBlack
     = (entriesFrom (hostsAt fixtures.ticking fixtures.stevenBlack) 0
          (repeat "ads.example" (Z.to_nat hostsCap)), None)
  /\ ~ exists e,
         In e (fst (parseHostsFormat fixtures.ticking fixtures.overCap fixtures.stevenBlack))
         /\ Domain e = "tracker.example".
Proof.
  assert (Hline : hostsLine "0.0.0.0 ads.example" = Some "ads.example")
    by (vm_compute; reflexivity).
  assert (Hn : (Z.of_nat (Z.to_nat hostsCap) = hostsCap)%Z)
    by (apply Z2Nat.id; unfold hostsCap; lia).
  assert (Hpos : (1 <= Z.to_nat hostsCap)%nat) by (unfold hostsCap; lia).
  assert (Hres : parseHostsFormat fixtures.ticking fixtures.overCap fixtures.stevenBlack
                 = (entriesFrom (hostsAt fixtures.ticking fixtures.stevenBlack) 0
                      (repeat "ads.example" (Z.to_nat hostsCap)), None))
    by exact (parse_over_cap fixtures.ticking fixtures.stevenBlack "0.0.0.0 ads.example"
                "ads.example" ["0.0.0.0 tracker.example"] (Z.to_nat hostsCap)
                Hline Hpos Hn).
  split; [vm_compute; reflexivity|]. split; [exact Hres|].
  intros (e & Hin & Hdom). rewrite Hres in Hin. cbn [fst] in Hin.
  apply entriesFrom_In in Hin as (j & d & Hd & ->). apply repeat_spec in Hd. subst d.
  discriminate Hdom.
Qed.

End Examples.

(** * Further properties of the code *)

(** ** Decimal numerals: Sprintf("%d") and parseInt64 *)
Section Numerals.
Import time cache cachespec.

Lemma wrapInt64_id (z : Z) : (- 2 ^ 63 <= z < 2 ^ 63)%Z -> fmt.wrapInt64 z = z.
Proof.
  intros H. unfold fmt.wrapInt64.
  rewrite Z.mod_small; lia.
Qed.

Lemma uvalue_mono (d : Decimal.uint) (acc : Z) : (0 <= acc)%Z -> (acc <= uvalue d acc)%Z.
Proof.
  revert acc. induction d; intros acc H; simpl; try lia;
    match goal with |- (_ <= uvalue _ ?a)%Z => specialize (IHd a); lia end.
Qed.

Lemma uvalue_pos (d : Decimal.uint) (p : positive) :
  uvalue d (Z.pos p) = Z.pos (Pos.of_uint_acc d p).
Proof.
  revert p. induction d; intros p; simpl; try reflexivity;
    rewrite <- IHd; f_equal; lia.
Qed.

Lemma uvalue_zero (d : Decimal.uint) : uvalue d 0 = Z.of_N (Pos.of_uint d).
Proof.
  induction d; simpl; try reflexivity; try exact IHd;
    match goal with |- uvalue _ ?a = _ => change a with (Z.pos (Z.to_pos a)) end;
    rewrite uvalue_pos; reflexivity.
Qed.

(** Reading the digits of a numeral, without overflow. *)
Lemma parseDigits_numeral (d : Decimal.uint) (acc : Z) :
  (0 <= acc)%Z -> (uvalue d acc < 2 ^ 63)%Z ->
  parseDigits (NilEmpty.string_of_uint d) acc = (uvalue d acc, None).
Proof.
  revert acc. induction d; intros acc H0 Hlt; simpl in *; try reflexivity;
    match goal with
    | |- parseDigits _ (fmt.wrapInt64 ?a) = (uvalue _ ?b, _) =>
        assert (Hab : a = b) by lia; rewrite Hab;
        pose proof (uvalue_mono d b ltac:(lia));
        rewrite wrapInt64_id by lia; apply IHd; lia
    end.
Qed.

Lemma SprintInt_nonneg (n : Z) :
  (0 <= n)%Z -> fmt.SprintInt n = NilEmpty.string_of_uint (N.to_uint (Z.to_N n)).
Proof.
  intros H. unfold fmt.SprintInt. destruct n as [|p|p]; [reflexivity| |lia].
  simpl. pose proof (DecimalPos.Unsigned.to_uint_nonnil p).
  destruct (Pos.to_uint p); [contradiction|reflexivity..].
Qed.

(** parseInt64 reads back what Sprintf("%d") printed. *)
Lemma parseInt64_SprintInt (n : Z) :
  (0 <= n < 2 ^ 63)%Z -> parseInt64 (fmt.SprintInt n) = (n, None).
Proof.
  intros H. rewrite SprintInt_nonneg by lia. unfold parseInt64.
  assert (Hv : uvalue (N.to_uint (Z.to_N n)) 0 = n).
  { rewrite uvalue_zero. change (Pos.of_uint (N.to_uint (Z.to_N n)))
      with (N.of_uint (N.to_uint (Z.to_N n))).
    rewrite DecimalN.Unsigned.of_to. lia. }
  rewrite parseDigits_numeral; [by rewrite Hv|lia|lia].
Qed.

End Numerals.

(** ** The cache client beyond Get (internal/cache/mock.go) *)
Section CacheOperations.
Import time cache cachespec.

Lemma expiry_positive (now : Time) (ttl : Duration) :
  (0 < ttl)%Z -> expiry now ttl = (now + ttl)%Z.
Proof. intros H. unfold expiry, Add. destruct (Z.ltb_spec 0 ttl); [reflexivity|lia]. Qed.

Lemma expiry_none (now : Time) (ttl : Duration) : (ttl <= 0)%Z -> expiry now ttl = 0%Z.
Proof. intros H. unfold expiry. destruct (Z.ltb_spec 0 ttl); [lia|reflexivity]. Qed.

Lemma not_expired_until (later : Time) (v : mockValue) :
  (expiration v = 0 \/ later <= expiration v)%Z -> expired later v = false.
Proof.
  intros H. unfold expired, IsZero, After.
  destruct (Z.eqb_spec (expiration v) 0); [reflexivity|].
  destruct (Z.ltb_spec (expiration v) later); [lia|reflexivity].
Qed.

(** X1: a value stored with [Set] is returned by [Get] at every time up to
    and including its expiry, and at every time when it was stored with a
    TTL of zero or less; the read leaves the client as it is. *)
Theorem Set_Get_roundtrip (now later : Time) (m : MockRedisClient) (key val : string)
  (ttl : Duration) :
  closed m = false ->
  ((0 < ttl)%Z -> (later <= now + ttl)%Z) ->
  Set_ now m key val ttl
    = (None, {| data := <[key := {| value := val; expiration := expiry now ttl |}]> (data m);
                closed := false |})
  /\ Get later (snd (Set_ now m key val ttl)) key
     = (val, None, snd (Set_ now m key val ttl)).
Proof.
  intros Hopen Hlater. unfold Set_. rewrite Hopen. split; [reflexivity|].
  unfold Get. simpl. rewrite lookup_insert_eq.
  rewrite not_expired_until; [reflexivity|]. simpl.
  destruct (Z.ltb_spec 0 ttl) as [Hpos|Hle].
  - right. rewrite expiry_positive by lia. auto.
  - left. by apply expiry_none.
Qed.

Lemma Set_Get_roundtrip_witness :
  Get (fixtures.t0 + 30 * Minute)%Z
    (snd (Set_ fixtures.t0 NewMockRedisClient "domain:example.com" "allowed" (30 * Minute)%Z))
    "domain:example.com"
  = ("allowed", None,
     snd (Set_ fixtures.t0 NewMockRedisClient "domain:example.com" "allowed" (30 * Minute)%Z)).
Proof.
  assert (H1 : closed NewMockRedisClient = false) by reflexivity.
  assert (H2 : (0 < 30 * Minute)%Z ->
               (fixtures.t0 + 30 * Minute <= fixtures.t0 + 30 * Minute)%Z) by lia.
  exact (proj2 (Set_Get_roundtrip fixtures.t0 (fixtures.t0 + 30 * Minute)%Z
                  NewMockRedisClient "domain:example.com" "allowed" (30 * Minute)%Z H1 H2)).
Defined.

(** X2: no operation on a key changes what the client holds under another
    key, and none changes the closed flag. *)
Theorem other_keys_untouched (now : Time) (m : MockRedisClient) (key other val : string)
  (ttl : Duration) :
  key <> other ->
  let same (m' : MockRedisClient) :=
    data m' !! other = data m !! other /\ closed m' = closed m in
  same (snd (Get now m key))
  /\ same (snd (Set_ now m key val ttl))
  /\ same (snd (Delete m key))
  /\ same (snd (Exists now m key))
  /\ same (snd (SetNX now m key val ttl))
  /\ same (snd (Increment now m key))
  /\ same (snd (IncrementWithExpiry now m key ttl))
  /\ same (snd (GetTTL now m key)).
Proof.
  intros Hne same. unfold same, Get, Set_, Delete, Exists, SetNX, Increment,
    IncrementWithExpiry, GetTTL.
  destruct (closed m) eqn:Hc; simpl; [by repeat split|].
  destruct (data m !! key) as [v|] eqn:Hk; simpl.
  - repeat split; simpl;
      repeat match goal with
             | |- context [if ?b then _ else _] => destruct b; simpl
             end;
      rewrite ?lookup_insert_ne, ?lookup_delete_ne by done; done.
  - repeat split; simpl; rewrite ?lookup_insert_ne, ?lookup_delete_ne by done; done.
Qed.

Lemma other_keys_untouched_witness :
  data (snd (Increment fixtures.t0 fixtures.cachedAllowed "rate:10.0.0.1"))
    !! "domain:example.com"
  = data fixtures.cachedAllowed !! "domain:example.com".
Proof.
  assert (Hne : "rate:10.0.0.1" <> "domain:example.com") by discriminate.
  destruct (other_keys_untouched fixtures.t0 fixtures.cachedAllowed "rate:10.0.0.1"
              "domain:example.com" EmptyString 0%Z Hne)
    as (_ & _ & _ & _ & _ & [H _] & _).
  exact H.
Defined.

(** X3: [Exists] and [Get] agree: they leave the same client behind, and
    [Exists] answers true exactly when [Get] returns without an error. *)
Theorem Exists_agrees_with_Get (now : Time) (m : MockRedisClient) (key : string) :
  snd (Exists now m key) = snd (Get now m key)
  /\ (fst (fst (Exists now m key)) = true <-> snd (fst (Get now m key)) = None).
Proof.
  unfold Exists, Get. destruct (closed m); [by split|].
  destruct (data m !! key) as [v|]; [|by split].
  destruct (expired now v); by split.
Qed.

(** X4: [SetNX] as a lock.  Once a call has stored the key with a positive
    TTL, every call before the expiry is refused and leaves the client and
    the first value untouched; a key stored with a TTL of zero or less is
    held for ever.  At the expiry or later the key is free again. *)
Theorem SetNX_holds_until_expiry (now later : Time) (m m1 : MockRedisClient)
  (key v1 v2 : string) (ttl ttl2 : Duration) :
  SetNX now m key v1 ttl = (true, None, m1) ->
  ((0 < ttl)%Z -> (later < now + ttl)%Z ->
     SetNX later m1 key v2 ttl2 = (false, None, m1)
     /\ Get later m1 key = (v1, None, m1))
  /\ ((ttl <= 0)%Z ->
     SetNX later m1 key v2 ttl2 = (false, None, m1)
     /\ Get later m1 key = (v1, None, m1))
  /\ ((0 < ttl)%Z -> (now + ttl <> 0)%Z -> (now + ttl <= later)%Z ->
     fst (SetNX later m1 key v2 ttl2) = (true, None)).
Proof.
  intros Hfirst.
  assert (Hm1 : closed m = false /\
                m1 = {| data := <[key := {| value := v1; expiration := expiry now ttl |}]> (data m);
                        closed := false |}).
  { unfold SetNX in Hfirst. destruct (closed m) eqn:Hc; [discriminate|].
    destruct (match data m !! key with Some _ => _ | None => _ end);
      [discriminate|]. injection Hfirst as <-. by split. }
  destruct Hm1 as [Hopen ->].
  unfold SetNX, Get, expired, IsZero, Before, After. simpl. rewrite lookup_insert_eq. simpl.
  split; [|split].
  - intros Hpos Hlt. rewrite expiry_positive by lia.
    destruct (Z.eqb_spec (now + ttl) 0); simpl.
    + by split.
    + destruct (Z.ltb_spec later (now + ttl)); [|lia].
      destruct (Z.ltb_spec (now + ttl) later); [lia|]. by split.
  - intros Hle. rewrite expiry_none by lia. by split.
  - intros Hpos Hnz Hge. rewrite expiry_positive by lia.
    destruct (Z.eqb_spec (now + ttl) 0); [contradiction|]. simpl.
    destruct (Z.ltb_spec later (now + ttl)); [lia|reflexivity].
Qed.

Lemma SetNX_holds_until_expiry_witness :
  let m1 := snd (SetNX fixtures.t0 NewMockRedisClient "lock:update" "worker-1" Minute) in
  SetNX (fixtures.t0 + 59 * Second)%Z m1 "lock:update" "worker-2" Minute = (false, None, m1)
  /\ Get (fixtures.t0 + 59 * Second)%Z m1 "lock:update" = ("worker-1", None, m1).
Proof.
  intros m1.
  assert (H : SetNX fixtures.t0 NewMockRedisClient "lock:update" "worker-1" Minute
              = (true, None, m1)) by (vm_compute; reflexivity).
  destruct (SetNX_holds_until_expiry fixtures.t0 (fixtures.t0 + 59 * Second)%Z
              NewMockRedisClient m1 "lock:update" "worker-1" "worker-2" Minute Minute H)
    as (Hheld & _).
  apply Hheld; vm_compute; reflexivity.
Defined.

End CacheOperations.

Section CacheCounters.
Import time cache cachespec.

Lemma countsFrom_S (k : Z) (n : nat) :
  countsFrom k (S n) = ((k + 1)%Z :: countsFrom (k + 1) n)%list.
Proof.
  unfold countsFrom. simpl. f_equal.
  rewrite <- seq_shift, List.map_map. apply List.map_ext. intros i. lia.
Qed.

(** One [Increment] on a live key that holds the numeral of [k]. *)
Lemma Increment_live (now : Time) (m : MockRedisClient) (key : string) (v : mockValue)
  (k : Z) :
  closed m = false -> data m !! key = Some v -> expired now v = false ->
  value v = fmt.SprintInt k -> (0 <= k < 2 ^ 63 - 1)%Z ->
  Increment now m key
    = ((k + 1)%Z, None,
       {| data := <[key := {| value := fmt.SprintInt (k + 1); expiration := expiration v |}]>
                    (data m);
          closed := false |}).
Proof.
  intros Hopen Hk Hlive Hval Hrange. unfold Increment.
  rewrite Hopen, Hk, Hlive, Hval, parseInt64_SprintInt by lia.
  rewrite wrapInt64_id by lia. reflexivity.
Qed.

Lemma incrementAll_from (times : list Time) (m : MockRedisClient) (key : string) (k : Z) :
  closed m = false ->
  data m !! key = Some {| value := fmt.SprintInt k; expiration := 0%Z |} ->
  (0 <= k)%Z -> (k + Z.of_nat (length times) < 2 ^ 63)%Z ->
  fst (incrementAll times m key) = countsFrom k (length times)
  /\ data (snd (incrementAll times m key)) !! key
     = Some {| value := fmt.SprintInt (k + Z.of_nat (length times)); expiration := 0%Z |}.
Proof.
  revert m k. induction times as [|t times IH]; intros m k Hopen Hk H0 Hlen.
  - simpl. rewrite Z.add_0_r. by split.
  - simpl length in *. simpl incrementAll.
    rewrite (Increment_live t m key _ k Hopen Hk) by (try reflexivity; lia).
    match goal with |- context [incrementAll times ?m1 key] =>
      destruct (IH m1 (k + 1)%Z) as [IH1 IH2];
        [reflexivity | simpl; apply lookup_insert_eq | lia | lia |];
      destruct (incrementAll times m1 key) as [counts m2] end.
    simpl in *. rewrite countsFrom_S, IH1, IH2. split; [reflexivity|].
    do 3 f_equal. lia.
Qed.

(** X5: [Increment] counts.  On an open client that does not hold the key,
    n calls return 1, 2, ..., n, whatever the times of the calls, and the
    key then holds the numeral of n without an expiry. *)
Theorem Increment_counts (times : list Time) (m : MockRedisClient) (key : string) :
  closed m = false ->
  data m !! key = None ->
  (Z.of_nat (length times) < 2 ^ 63)%Z ->
  fst (incrementAll times m key) = countsFrom 0 (length times)
  /\ (times <> [] ->
      data (snd (incrementAll times m key)) !! key
        = Some {| value := fmt.SprintInt (Z.of_nat (length times)); expiration := 0%Z |}).
Proof.
  intros Hopen Hk Hlen. destruct times as [|t times]; [by split|].
  assert (Hfirst : Increment t m key
                   = (1%Z, None,
                      {| data := <[key := {| value := fmt.SprintInt 1; expiration := 0%Z |}]>
                                   (data m); closed := false |}))
    by (unfold Increment; rewrite Hopen, Hk; reflexivity).
  simpl length in *. simpl incrementAll. rewrite Hfirst.
  match goal with |- context [incrementAll times ?m1 key] =>
    destruct (incrementAll_from times m1 key 1%Z) as [H1 H2];
      [reflexivity | simpl; apply lookup_insert_eq | lia | lia |];
    destruct (incrementAll times m1 key) as [counts m2] end.
  simpl in *. rewrite countsFrom_S, H1, H2. split; [reflexivity|].
  intros _. do 3 f_equal. lia.
Qed.

Lemma Increment_counts_witness :
  fst (incrementAll [fixtures.t0; (fixtures.t0 + Hour)%Z; (fixtures.t0 + 48 * Hour)%Z]
         NewMockRedisClient "queries:10.0.0.1")
  = [1; 2; 3]%Z.
Proof.
  assert (H1 : closed NewMockRedisClient = false) by reflexivity.
  assert (H2 : data NewMockRedisClient !! "queries:10.0.0.1" = None) by reflexivity.
  assert (H3 : (Z.of_nat (length [fixtures.t0; (fixtures.t0 + Hour)%Z;
                                   (fixtures.t0 + 48 * Hour)%Z]) < 2 ^ 63)%Z)
    by (vm_compute; reflexivity).
  exact (proj1 (Increment_counts _ NewMockRedisClient "queries:10.0.0.1" H1 H2 H3)).
Defined.

(** X6: [Increment] on an expired key returns 1 but writes the new counter
    under the old, elapsed expiry.  In the store [m1] it leaves, the counter
    is therefore already lost: a [Get] that comes next, at any later time,
    reports the key as not found, and an [Increment] that comes next, at any
    later time, returns 1 again and leaves [m1] as it is. *)
Theorem Increment_expired_restarts (now later : Time) (m : MockRedisClient) (key : string)
  (v : mockValue) :
  closed m = false ->
  data m !! key = Some v ->
  expired now v = true ->
  (now <= later)%Z ->
  let m1 := snd (Increment now m key) in
  fst (Increment now m key) = (1%Z, None)
  /\ data m1 !! key = Some {| value := "1"; expiration := expiration v |}
  /\ fst (Get later m1 key) = (EmptyString, Some ("key not found: " ++ key))
  /\ fst (Increment later m1 key) = (1%Z, None)
  /\ snd (Increment later m1 key) = m1.
Proof.
  intros Hopen Hk Hexp Hle m1.
  assert (Hm1 : m1 = {| data := <[key := {| value := "1"; expiration := expiration v |}]>
                                  (data m); closed := false |}).
  { unfold m1, Increment. rewrite Hopen, Hk, Hexp. reflexivity. }
  assert (Hlater : expired later {| value := "1"; expiration := expiration v |} = true).
  { unfold expired, IsZero, After in *. simpl.
    destruct (Z.eqb_spec (expiration v) 0); [discriminate|]. simpl in *.
    destruct (Z.ltb_spec (expiration v) now); [|discriminate].
    destruct (Z.ltb_spec (expiration v) later); [reflexivity|lia]. }
  split; [unfold Increment; by rewrite Hopen, Hk, Hexp|].
  rewrite Hm1. split; [simpl; apply lookup_insert_eq|].
  unfold Get, Increment. simpl. rewrite lookup_insert_eq, Hlater.
  split; [reflexivity|]. split; [reflexivity|].
  cbn [snd expiration]. by rewrite insert_insert_eq.
Qed.

Lemma Increment_expired_restarts_witness :
  let m := snd (IncrementWithExpiry fixtures.t0 NewMockRedisClient "rate:10.0.0.1" Minute) in
  let m1 := snd (Increment (fixtures.t0 + Hour)%Z m "rate:10.0.0.1") in
  fst (Increment (fixtures.t0 + Hour)%Z m "rate:10.0.0.1") = (1%Z, None)
  /\ fst (Increment (fixtures.t0 + 2 * Hour)%Z m1 "rate:10.0.0.1") = (1%Z, None).
Proof.
  intros m m1.
  assert (Hopen : closed m = false) by reflexivity.
  assert (Hk : data m !! "rate:10.0.0.1"
               = Some {| value := "1"; expiration := (fixtures.t0 + Minute)%Z |})
    by (vm_compute; reflexivity).
  assert (Hexp : expired (fixtures.t0 + Hour)%Z
                   {| value := "1"; expiration := (fixtures.t0 + Minute)%Z |} = true)
    by (vm_compute; reflexivity).
  assert (Hle : (fixtures.t0 + Hour <= fixtures.t0 + 2 * Hour)%Z) by (vm_compute; discriminate).
  destruct (Increment_expired_restarts (fixtures.t0 + Hour)%Z (fixtures.t0 + 2 * Hour)%Z
              m "rate:10.0.0.1" _ Hopen Hk Hexp Hle) as (H1 & _ & _ & H4 & _).
  split; [exact H1|exact H4].
Defined.

End CacheCounters.

Section CacheWindows.
Import time cache cachespec.

Lemma IncrementWithExpiry_live (now : Time) (m : MockRedisClient) (key : string)
  (v : mockValue) (k : Z) (ttl : Duration) :
  closed m = false -> data m !! key = Some v ->
  (now < expiration v)%Z ->
  value v = fmt.SprintInt k -> (0 <= k < 2 ^ 63 - 1)%Z ->
  IncrementWithExpiry now m key ttl
    = ((k + 1)%Z, None,
       {| data := <[key := {| value := fmt.SprintInt (k + 1);
                              expiration := expiry now ttl |}]> (data m);
          closed := false |}).
Proof.
  intros Hopen Hk Hlive Hval Hrange. unfold IncrementWithExpiry, Before.
  rewrite Hopen, Hk, Hval, parseInt64_SprintInt by lia.
  destruct (Z.ltb_spec now (expiration v)); [|lia].
  rewrite orb_true_r, wrapInt64_id by lia. reflexivity.
Qed.

Lemma incrementWithExpiryAll_from (ttl : Duration) (times : list Time) (prev : Time)
  (m : MockRedisClient) (key : string) (k : Z) :
  closed m = false -> (0 < ttl)%Z ->
  data m !! key = Some {| value := fmt.SprintInt k; expiration := (prev + ttl)%Z |} ->
  withinWindow ttl prev times ->
  (0 <= k)%Z -> (k + Z.of_nat (length times) < 2 ^ 63)%Z ->
  fst (incrementWithExpiryAll ttl times m key) = countsFrom k (length times).
Proof.
  revert prev m k. induction times as [|t times IH]; intros prev m k Hopen Httl Hk Hwin H0 Hlen.
  - reflexivity.
  - simpl length in *. destruct Hwin as [Ht Hwin]. simpl incrementWithExpiryAll.
    rewrite (IncrementWithExpiry_live t m key _ k ttl Hopen Hk) by (simpl; try reflexivity; lia).
    match goal with |- context [incrementWithExpiryAll ttl times ?m1 key] =>
      pose proof (IH t m1 (k + 1)%Z eq_refl Httl) as IH1;
      destruct (incrementWithExpiryAll ttl times m1 key) as [counts m2] end.
    simpl in *. rewrite countsFrom_S, IH1; [reflexivity| |exact Hwin|lia|lia].
    rewrite lookup_insert_eq, expiry_positive by lia. reflexivity.
Qed.

(** X7: [IncrementWithExpiry] keeps a sliding window.  Every call moves the
    expiry to [ttl] after the call, so on a client that does not hold the
    key, n calls of which each comes less than [ttl] after the one before it
    return 1, 2, ..., n, however long the run lasts. *)
Theorem IncrementWithExpiry_sliding_window (ttl : Duration) (first : Time)
  (times : list Time) (m : MockRedisClient) (key : string) :
  closed m = false ->
  (0 < ttl)%Z ->
  data m !! key = None ->
  withinWindow ttl first times ->
  (Z.of_nat (S (length times)) < 2 ^ 63)%Z ->
  fst (incrementWithExpiryAll ttl (first :: times) m key) = countsFrom 0 (S (length times)).
Proof.
  intros Hopen Httl Hk Hwin Hlen.
  assert (Hfirst : IncrementWithExpiry first m key ttl
                   = (1%Z, None,
                      {| data := <[key := {| value := fmt.SprintInt 1;
                                             expiration := expiry first ttl |}]> (data m);
                         closed := false |}))
    by (unfold IncrementWithExpiry; rewrite Hopen, Hk; reflexivity).
  simpl incrementWithExpiryAll. rewrite Hfirst.
  match goal with |- context [incrementWithExpiryAll ttl times ?m1 key] =>
    pose proof (incrementWithExpiryAll_from ttl times first m1 key 1%Z eq_refl Httl) as H1;
    destruct (incrementWithExpiryAll ttl times m1 key) as [counts m2] end.
  simpl in *. rewrite countsFrom_S, H1; [reflexivity| |exact Hwin|lia|lia].
  rewrite lookup_insert_eq, expiry_positive by lia. reflexivity.
Qed.

(** Three calls 40 seconds apart with a window of one minute: the counter
    reaches 3 although the last call comes 80 seconds after the first. *)
Lemma IncrementWithExpiry_sliding_window_witness :
  fst (incrementWithExpiryAll Minute
         [fixtures.t0; (fixtures.t0 + 40 * Second)%Z; (fixtures.t0 + 80 * Second)%Z]
         NewMockRedisClient "rate:10.0.0.1")
  = [1; 2; 3]%Z.
Proof.
  assert (H1 : closed NewMockRedisClient = false) by reflexivity.
  assert (H2 : (0 < Minute)%Z) by reflexivity.
  assert (H3 : data NewMockRedisClient !! "rate:10.0.0.1" = None) by reflexivity.
  assert (H4 : withinWindow Minute fixtures.t0
                 [(fixtures.t0 + 40 * Second)%Z; (fixtures.t0 + 80 * Second)%Z])
    by (vm_compute; repeat split; discriminate).
  assert (H5 : (Z.of_nat (S (length [(fixtures.t0 + 40 * Second)%Z;
                                      (fixtures.t0 + 80 * Second)%Z])) < 2 ^ 63)%Z)
    by (vm_compute; reflexivity).
  exact (IncrementWithExpiry_sliding_window Minute fixtures.t0 _ NewMockRedisClient
           "rate:10.0.0.1" H1 H2 H3 H4 H5).
Defined.

(** X8: [GetTTL] after [Set].  With a positive TTL and the clock past the
    zero time, a read before the expiry returns the time that is left and
    keeps the entry; a read at the expiry or later returns -2 s and removes
    the entry.  A key stored with a TTL of zero or less reports -1 s, a
    missing key -2 s. *)
Theorem GetTTL_after_Set (now later : Time) (m : MockRedisClient) (key val : string)
  (ttl : Duration) :
  closed m = false ->
  (0 < now <= later)%Z ->
  let m1 := snd (Set_ now m key val ttl) in
  ((0 < ttl <= maxDuration)%Z -> (later < now + ttl)%Z ->
     GetTTL later m1 key = ((now + ttl - later)%Z, None, m1))
  /\ ((0 < ttl)%Z -> (now + ttl <= later)%Z ->
     GetTTL later m1 key
       = ((-2 * Second)%Z, None, {| data := delete key (data m1); closed := false |}))
  /\ ((ttl <= 0)%Z -> GetTTL later m1 key = ((-1 * Second)%Z, None, m1))
  /\ (data m !! key = None -> GetTTL later m key = ((-2 * Second)%Z, None, m)).
Proof.
  intros Hopen Hclock m1.
  assert (Hm1 : m1 = {| data := <[key := {| value := val; expiration := expiry now ttl |}]>
                                  (data m); closed := false |})
    by (unfold m1, Set_; rewrite Hopen; reflexivity).
  rewrite Hm1. unfold GetTTL, Until, Sub, IsZero. simpl. rewrite lookup_insert_eq. simpl.
  split; [|split; [|split]].
  - intros Httl Hlt. rewrite expiry_positive by lia.
    destruct (Z.eqb_spec (now + ttl) 0); [lia|].
    unfold maxDuration, minDuration in *.
    rewrite Z.min_r, Z.max_r by lia.
    destruct (Z.leb_spec (now + ttl - later) 0); [lia|reflexivity].
  - intros Httl Hge. rewrite expiry_positive by lia.
    destruct (Z.eqb_spec (now + ttl) 0); [lia|].
    destruct (Z.leb_spec (Z.max minDuration (Z.min maxDuration (now + ttl - later))) 0)
      as [_|Hgt]; [reflexivity|].
    unfold maxDuration, minDuration in Hgt. lia.
  - intros Hle. rewrite expiry_none by lia. reflexivity.
  - intros Hk. rewrite Hopen, Hk. reflexivity.
Qed.

Lemma GetTTL_after_Set_witness :
  let m1 := snd (Set_ fixtures.t0 NewMockRedisClient "domain:ads.example" "blocked" Hour) in
  GetTTL (fixtures.t0 + 20 * Minute)%Z m1 "domain:ads.example" = ((40 * Minute)%Z, None, m1).
Proof.
  intros m1.
  assert (H1 : closed NewMockRedisClient = false) by reflexivity.
  assert (H2 : (0 < fixtures.t0 <= fixtures.t0 + 20 * Minute)%Z)
    by (vm_compute; split; [reflexivity|discriminate]).
  destruct (GetTTL_after_Set fixtures.t0 (fixtures.t0 + 20 * Minute)%Z NewMockRedisClient
              "domain:ads.example" "blocked" Hour H1 H2) as [Hleft _].
  etransitivity; [apply Hleft|].
  - vm_compute. split; [reflexivity|discriminate].
  - vm_compute. reflexivity.
  - vm_compute. reflexivity.
Defined.

(** X9: a member added with [AddToSet] is found by [IsInSet] at every later
    time (the entry has no expiry), yet [GetSetMembers] lists no member. *)
Theorem AddToSet_IsInSet (now later : Time) (m : MockRedisClient) (key member : string) :
  closed m = false ->
  let m1 := snd (AddToSet now m key member) in
  fst (AddToSet now m key member) = None
  /\ IsInSet later m1 key member = (true, None, m1)
  /\ GetSetMembers m1 key = ([], None).
Proof.
  intros Hopen m1.
  assert (Hm1 : m1 = {| data := <[setKey key member := {| value := "1"; expiration := 0%Z |}]>
                                  (data m); closed := false |})
    by (unfold m1, AddToSet, Set_; rewrite Hopen; reflexivity).
  split; [unfold AddToSet, Set_; by rewrite Hopen|].
  rewrite Hm1. unfold IsInSet, Exists. simpl. rewrite lookup_insert_eq. by split.
Qed.

Lemma AddToSet_IsInSet_witness :
  let m1 := snd (AddToSet fixtures.t0 NewMockRedisClient "blocked_ips" "10.0.0.1") in
  IsInSet (fixtures.t0 + 365 * 24 * Hour)%Z m1 "blocked_ips" "10.0.0.1" = (true, None, m1).
Proof.
  intros m1.
  assert (H1 : closed NewMockRedisClient = false) by reflexivity.
  exact (proj1 (proj2 (AddToSet_IsInSet fixtures.t0 (fixtures.t0 + 365 * 24 * Hour)%Z
                         NewMockRedisClient "blocked_ips" "10.0.0.1" H1))).
Defined.

End CacheWindows.

Section FeedParsers.
Import time strings feeds feedsspec.

Lemma capScan_first_valid (cap : Z) (lineOf : string -> option string)
  (mk : nat -> string -> ThreatEntry) (n : nat) (ls : list string)
  (entries : list ThreatEntry) :
  Z.of_nat n = cap ->
  length entries < n ->
  capScan cap lineOf mk ls entries
    = ((entries ++ firstn (n - length entries)
                     (entriesFrom mk (length entries) (domainsOf lineOf ls)))%list,
       (n <=? length entries + length (domainsOf lineOf ls))%nat).
Proof.
  intros Hn. revert entries. induction ls as [|text ls IH]; intros entries Hlt.
  - cbn. rewrite firstn_nil, app_nil_r, Nat.add_0_r.
    destruct (Nat.leb_spec n (length entries)); [lia|reflexivity].
  - unfold domainsOf in *. cbn [capScan omap list_omap].
    destruct (lineOf text) as [d|]; [|by apply IH].
    cbv zeta. cbn [entriesFrom length]. rewrite length_app. cbn [length].
    destruct (Z.leb_spec cap (Z.of_nat (length entries + 1))) as [Hle|Hgt].
    + assert (n - length entries = 1) as -> by lia.
      cbn [firstn]. f_equal. symmetry. apply Nat.leb_le. lia.
    + rewrite IH by (rewrite length_app; cbn [length]; lia).
      rewrite length_app. cbn [length].
      assert (n - length entries = S (n - (length entries + 1))) as -> by lia.
      cbn [firstn]. rewrite <- app_assoc. cbn [app].
      rewrite Nat.add_1_r. f_equal. f_equal. lia.
Qed.

Lemma hostsScan_capScan (clock : Clock) (feed : AdBlockFeed) (ls : list string)
  (entries : list ThreatEntry) :
  hostsScan clock feed ls entries
    = capScan hostsCap hostsLine (hostsAt clock feed) ls entries.
Proof.
  revert entries. induction ls as [|text ls IH]; intros entries; [reflexivity|].
  cbn [hostsScan capScan]. destruct (hostsLine text); [|apply IH].
  cbv zeta. unfold hostsAt at 1 2. destruct (hostsCap <=? _)%Z; [reflexivity|apply IH].
Qed.

Lemma easyListScan_capScan (clock : Clock) (feed : AdBlockFeed) (ls : list string)
  (entries : list ThreatEntry) :
  easyListScan clock feed ls entries
    = capScan easyListCap easyListLine (easyListAt clock feed) ls entries.
Proof.
  revert entries. induction ls as [|text ls IH]; intros entries; [reflexivity|].
  cbn [easyListScan capScan]. destruct (easyListLine text); [|apply IH].
  cbv zeta. unfold easyListAt at 1 2.
  destruct (easyListCap <=? _)%Z; [reflexivity|apply IH].
Qed.

Lemma domainsScan_capScan (clock : Clock) (feed : AdBlockFeed) (ls : list string)
  (entries : list ThreatEntry) :
  domainsScan clock feed ls entries
    = capScan domainsCap domainsLine (domainsAt clock feed) ls entries.
Proof.
  revert entries. induction ls as [|text ls IH]; intros entries; [reflexivity|].
  cbn [domainsScan capScan]. destruct (domainsLine text); [|apply IH].
  cbv zeta. unfold domainsAt at 1 2.
  destruct (domainsCap <=? _)%Z; [reflexivity|apply IH].
Qed.

Lemma cap_nat (cap : Z) : (0 < cap)%Z -> Z.of_nat (Z.to_nat cap) = cap /\ 0 < Z.to_nat cap.
Proof. intros H. split; lia. Qed.

Lemma hostsCap_pos : (0 < hostsCap)%Z.
Proof. reflexivity. Qed.

Lemma easyListCap_pos : (0 < easyListCap)%Z.
Proof. reflexivity. Qed.

Lemma domainsCap_pos : (0 < domainsCap)%Z.
Proof. reflexivity. Qed.

Lemma firstn_entriesFrom (mk : nat -> string -> ThreatEntry) (n i : nat) (ds : list string) :
  firstn n (entriesFrom mk i ds) = entriesFrom mk i (firstn n ds).
Proof.
  revert n i. induction ds as [|d ds IH]; intros [|n] i; try reflexivity.
  cbn [entriesFrom firstn]. by rewrite IH.
Qed.

Lemma hostsScan_first_valid (clock : Clock) (feed : AdBlockFeed) (ls : list string) :
  fst (hostsScan clock feed ls [])
    = entriesFrom (hostsAt clock feed) 0 (firstn (Z.to_nat hostsCap) (domainsOf hostsLine ls)).
Proof.
  destruct (cap_nat hostsCap hostsCap_pos) as [Hn Hpos].
  rewrite hostsScan_capScan, (capScan_first_valid _ _ _ _ _ _ Hn) by exact Hpos.
  cbn [length app fst]. by rewrite Nat.sub_0_r, firstn_entriesFrom.
Qed.

(** X10: [parseHostsFormat] on a body of ASCII lines.  When [scanner.Err()]
    is nil after the loop, the parser returns the entries for the first
    50,000 domains that the lines give, in the order of the lines, entry
    number [i] stamped with the clock readings [2 i] and [2 i + 1].  When
    [scanner.Err()] is not nil after the loop, whether the loop ended with
    the input or at the cap, the parser fails and returns no entry. *)
Theorem parseHostsFormat_first_valid_lines (clock : Clock) (body : Body)
  (feed : AdBlockFeed) :
  asciiLines (lines body) ->
  let domains := firstn (Z.to_nat hostsCap) (domainsOf hostsLine (lines body)) in
  (scanErr body = None ->
   parseHostsFormat clock body feed = (entriesFrom (hostsAt clock feed) 0 domains, None))
  /\ (forall e, scanErr body = Some e ->
      parseHostsFormat clock body feed = ([], Some ("reading hosts feed: " ++ e))).
Proof.
  intros _ domains. pose proof (hostsScan_first_valid clock feed (lines body)) as Hscan.
  unfold parseHostsFormat.
  destruct (hostsScan clock feed (lines body) []) as [es broke]. cbn [fst] in Hscan.
  split.
  - intros ->. by rewrite Hscan.
  - by intros e ->.
Qed.

Lemma parseHostsFormat_first_valid_lines_witness :
  parseHostsFormat fixtures.ticking fixtures.hostsSample fixtures.stevenBlack
    = (entriesFrom (hostsAt fixtures.ticking fixtures.stevenBlack) 0
         (firstn (Z.to_nat hostsCap) (domainsOf hostsLine (lines fixtures.hostsSample))),
       None)
  /\ parseHostsFormat fixtures.ticking fixtures.truncatedHosts fixtures.stevenBlack
     = ([], Some "reading hosts feed: unexpected EOF").
Proof.
  assert (A1 : asciiLines (lines fixtures.hostsSample)) by (repeat constructor).
  assert (A2 : asciiLines (lines fixtures.truncatedHosts)) by (repeat constructor).
  assert (H1 : scanErr fixtures.hostsSample = None) by reflexivity.
  assert (H2 : scanErr fixtures.truncatedHosts = Some "unexpected EOF") by reflexivity.
  split.
  - exact (proj1 (parseHostsFormat_first_valid_lines fixtures.ticking fixtures.hostsSample
                    fixtures.stevenBlack A1) H1).
  - exact (proj2 (parseHostsFormat_first_valid_lines fixtures.ticking
                    fixtures.truncatedHosts fixtures.stevenBlack A2) _ H2).
Defined.

(** *** The bytes of a valid domain *)

Lemma lowerByte_idem (c : ascii) : lowerByte (lowerByte c) = lowerByte c.
Proof. destruct c as [[] [] [] [] [] [] [] []]; reflexivity. Qed.

Lemma ToLower_idem (s : string) : ToLower (ToLower s) = ToLower s.
Proof. induction s as [|c s IH]; simpl; [reflexivity|]. by rewrite lowerByte_idem, IH. Qed.

Lemma isRuleByte_not_space (c : ascii) : isRuleByte c = true -> isSpace c = false.
Proof. destruct c as [[] [] [] [] [] [] [] []]; vm_compute; congruence. Qed.

Lemma isAlnumHyphen_rule (c : ascii) : isAlnumHyphen c = true -> isRuleByte c = true.
Proof.
  unfold isAlnumHyphen, isRuleByte. intros H.
  destruct (isAlnum c); [reflexivity|]. simpl in *. rewrite H. apply orb_true_r.
Qed.

Lemma isAlnum_rule (c : ascii) : isAlnum c = true -> isRuleByte c = true.
Proof. unfold isRuleByte. by intros ->. Qed.

Lemma matchLabel_bytes (l : string) :
  matchLabel l = true -> forallb isRuleByte (list_ascii_of_string l) = true.
Proof.
  unfold matchLabel. destruct (list_ascii_of_string l) as [|c rest]; [discriminate|].
  destruct rest as [|c' rest'].
  - intros H. simpl. by rewrite (isAlnum_rule _ H).
  - set (rest := c' :: rest'). intros H.
    apply andb_true_iff in H as [H Hlast]. apply andb_true_iff in H as [H Hmid].
    apply andb_true_iff in H as [Hc _].
    assert (Hrest : rest = (removelast rest ++ [List.last rest c])%list)
      by (apply app_removelast_last; discriminate).
    cbn [forallb]. rewrite (isAlnum_rule _ Hc), Hrest, forallb_app. cbn [forallb andb].
    rewrite (isAlnum_rule _ Hlast), andb_true_r.
    apply forallb_forall. intros x Hx.
    apply isAlnumHyphen_rule. by apply (proj1 (forallb_forall _ _) Hmid).
Qed.

Lemma Split_nonempty (s : string) (sep : ascii) : Split s sep <> [].
Proof.
  destruct s as [|c s]; simpl; [discriminate|].
  destruct (Ascii.eqb c sep); [discriminate|]. by destruct (Split s sep).
Qed.

Lemma Split_bytes (P : ascii -> bool) (d : string) :
  P "."%char = true ->
  forallb (fun l => forallb P (list_ascii_of_string l)) (Split d "."%char) = true ->
  forallb P (list_ascii_of_string d) = true.
Proof.
  intros Hdot. induction d as [|c d IH]; [reflexivity|].
  simpl. destruct (Ascii.eqb_spec c "."%char) as [->|Hc].
  - simpl. intros H. rewrite Hdot. by apply IH.
  - pose proof (Split_nonempty d "."%char) as Hne.
    destruct (Split d "."%char) as [|h t]; [done|].
    cbn [forallb list_ascii_of_string]. intros H.
    apply andb_true_iff in H as [Hh Ht]. apply andb_true_iff in Hh as [-> Hh].
    cbn [andb]. apply IH. cbn [forallb]. rewrite Hh. exact Ht.
Qed.

Lemma domainRegex_bytes (d : string) :
  domainRegex d = true -> forallb isRuleByte (list_ascii_of_string d) = true.
Proof.
  unfold domainRegex. intros H. apply Split_bytes; [reflexivity|].
  apply forallb_forall. intros l Hl. apply matchLabel_bytes.
  by apply (proj1 (forallb_forall _ _) H).
Qed.

Lemma isValidDomain_bytes (d : string) :
  isValidDomain d = true -> forallb isRuleByte (list_ascii_of_string d) = true.
Proof.
  unfold isValidDomain. destruct (_ || _); [discriminate|]. apply domainRegex_bytes.
Qed.

Lemma isValidDomain_nonempty (d : string) : isValidDomain d = true -> d <> EmptyString.
Proof. by intros H ->. Qed.

Lemma TrimRightSpace_bytes (s : string) :
  forallb isRuleByte (list_ascii_of_string s) = true -> TrimRightSpace s = s.
Proof.
  induction s as [|c s IH]; [reflexivity|]. simpl. intros H.
  apply andb_true_iff in H as [Hc Hs]. by rewrite (isRuleByte_not_space _ Hc), IH.
Qed.

Lemma TrimSpace_bytes (s : string) :
  forallb isRuleByte (list_ascii_of_string s) = true -> TrimSpace s = s.
Proof.
  intros H. unfold TrimSpace.
  assert (TrimLeftSpace s = s) as ->; [|by apply TrimRightSpace_bytes].
  destruct s as [|c s]; [reflexivity|]. simpl in *.
  apply andb_true_iff in H as [Hc _]. by rewrite (isRuleByte_not_space _ Hc).
Qed.

Lemma HasPrefix_cons (c c' : ascii) (s p : string) :
  HasPrefix (String c s) (String c' p) = Ascii.eqb c' c && HasPrefix s p.
Proof.
  unfold HasPrefix. cbn [String.prefix].
  destruct (Ascii.ascii_dec c' c) as [->|Hne].
  - by rewrite Ascii.eqb_refl.
  - by destruct (Ascii.eqb_spec c' c).
Qed.

Lemma HasPrefix_nil (s : string) : HasPrefix s EmptyString = true.
Proof. by destruct s. Qed.

Lemma HasPrefix_empty (c : ascii) (p : string) : HasPrefix EmptyString (String c p) = false.
Proof. reflexivity. Qed.

Lemma HasPrefix_byte (s : string) (c : ascii) :
  HasPrefix s (String c EmptyString) = true -> exists rest, s = String c rest.
Proof.
  destruct s as [|c' s]; [discriminate|]. rewrite HasPrefix_cons.
  destruct (Ascii.eqb_spec c c') as [->|]; [by eexists|discriminate].
Qed.

Lemma comment_not_valid (c : ascii) (s : string) :
  isAlnum c = false -> c <> "."%char -> isValidDomain (String c s) = false.
Proof.
  intros Hc Hdot. unfold isValidDomain. destruct (_ || _); [reflexivity|].
  unfold domainRegex. simpl. destruct (Ascii.eqb_spec c "."%char); [done|].
  pose proof (Split_nonempty s "."%char) as Hne.
  destruct (Split s "."%char) as [|h t]; [done|].
  cbn [forallb]. unfold matchLabel at 1. simpl.
  destruct (list_ascii_of_string h); by rewrite Hc.
Qed.

(** *** What a line gives *)

Lemma hostsLine_Some (text d : string) :
  hostsLine text = Some d ->
  isValidDomain d = true /\ ToLower d = d /\ Contains d "localhost" = false.
Proof.
  unfold hostsLine. destruct (_ || _); [discriminate|].
  destruct (_ <? _)%nat; [discriminate|].
  destruct (isValidDomain _) eqn:Hv; [|discriminate]. simpl.
  destruct (String.eqb _ "localhost"); [discriminate|]. simpl.
  destruct (Contains _ "localhost") eqn:Hc; [discriminate|].
  intros [= <-]. by rewrite Hv, Hc, ToLower_idem.
Qed.

Lemma domainsLine_Some (text d : string) :
  domainsLine text = Some d -> isValidDomain d = true /\ ToLower d = d.
Proof.
  unfold domainsLine. destruct (_ || _); [discriminate|].
  destruct (isValidDomain _) eqn:Hv; [|discriminate]. simpl.
  intros [= <-]. by rewrite Hv, ToLower_idem.
Qed.

Lemma easyListLine_Some (text d : string) :
  easyListLine text = Some d -> isValidDomain d = true /\ ToLower d = d.
Proof.
  unfold easyListLine. destruct (_ || _); [discriminate|].
  destruct (negb _); [|discriminate]. simpl.
  destruct (isValidDomain _) eqn:Hv; [|discriminate].
  intros [= <-]. split; [exact Hv|].
  destruct (findRule "^" _); [apply ToLower_idem|].
  destruct (findRule "/" _); [apply ToLower_idem|reflexivity].
Qed.

(** A valid lower-case domain, read as a line of a domain list, gives
    itself. *)
Lemma domainsLine_fixpoint (d : string) :
  isValidDomain d = true -> ToLower d = d -> domainsLine d = Some d.
Proof.
  intros Hv Hl. pose proof (isValidDomain_bytes d Hv) as Hb.
  unfold domainsLine. rewrite (TrimSpace_bytes d Hb), Hl, Hv.
  destruct d as [|c d]; [discriminate|].
  simpl in Hb. apply andb_true_iff in Hb as [Hc _].
  rewrite HasPrefix_cons. cbn [String.eqb orb].
  destruct (Ascii.eqb_spec "#"%char c) as [<-|]; [discriminate|reflexivity].
Qed.

Lemma spanRule_run (d rest : string) (stop : ascii) :
  forallb isRuleByte (list_ascii_of_string d) = true ->
  isRuleByte stop = false ->
  spanRule (d ++ String stop rest) = (d, String stop rest).
Proof.
  intros Hd Hstop. induction d as [|c d IH]; simpl.
  - by rewrite Hstop.
  - simpl in Hd. apply andb_true_iff in Hd as [-> Hd]. by rewrite IH.
Qed.

Lemma TrimRightSpace_run (d tail : string) :
  forallb isRuleByte (list_ascii_of_string d) = true ->
  TrimRightSpace (d ++ tail) = d ++ TrimRightSpace tail.
Proof.
  intros Hd. induction d as [|c d IH]; [reflexivity|]. simpl in *.
  apply andb_true_iff in Hd as [Hc Hd]. by rewrite (isRuleByte_not_space _ Hc), IH.
Qed.

Lemma TrimLeftSpace_cons (c : ascii) (s : string) :
  isSpace c = false -> TrimLeftSpace (String c s) = String c s.
Proof. intros H. cbn [TrimLeftSpace]. by rewrite H. Qed.

Lemma TrimRightSpace_cons (c : ascii) (s : string) :
  isSpace c = false -> TrimRightSpace (String c s) = String c (TrimRightSpace s).
Proof. intros H. cbn [TrimRightSpace]. by rewrite H. Qed.

Lemma TrimSpace_rule_line (d tail : string) (stop : ascii) :
  forallb isRuleByte (list_ascii_of_string d) = true ->
  isSpace stop = false ->
  TrimSpace (String "|" (String "|" (d ++ String stop tail)))
    = String "|" (String "|" (d ++ String stop (TrimRightSpace tail))).
Proof.
  intros Hd Hsp. unfold TrimSpace.
  rewrite TrimLeftSpace_cons by reflexivity.
  rewrite !TrimRightSpace_cons by reflexivity.
  by rewrite (TrimRightSpace_run d _ Hd), TrimRightSpace_cons.
Qed.

Lemma findRule_bars (stop : ascii) (line m : string) :
  findRule stop line = Some m -> HasPrefix line "||" = true.
Proof.
  intros H.
  assert (Hshape : exists s, line = String "|" (String "|" s)).
  { unfold findRule in H. destruct line as [|c1 [|c2 s]].
    - discriminate.
    - destruct c1 as [[] [] [] [] [] [] [] []]; discriminate.
    - destruct c1 as [[] [] [] [] [] [] [] []]; try discriminate.
      destruct c2 as [[] [] [] [] [] [] [] []]; try discriminate. by eexists. }
  destruct Hshape as [s ->]. by rewrite !HasPrefix_cons, HasPrefix_nil.
Qed.

(** X11: the rules [parseEasyListFormat] reads, on ASCII lines.  A line
    that starts with two bars, a non-empty run of the bytes [[a-zA-Z0-9.-]]
    and then [^] or [/] gives the run in lower case when that is a valid
    domain, and nothing otherwise, whatever ASCII text follows on the line.
    An ASCII line that does not start with two bars (after trimming) gives
    nothing. *)
Theorem easyListLine_rule (text d tail : string) (stop : ascii) :
  (stop = "^"%char \/ stop = "/"%char ->
   d <> EmptyString ->
   forallb isRuleByte (list_ascii_of_string d) = true ->
   isASCII tail = true ->
   easyListLine ("||" ++ d ++ String stop tail)
     = if isValidDomain (ToLower d) then Some (ToLower d) else None)
  /\ (isASCII text = true ->
      HasPrefix (TrimSpace text) "||" = false -> easyListLine text = None).
Proof.
  split.
  - intros Hstop Hne Hd _.
    assert (Hns : isRuleByte stop = false /\ isSpace stop = false)
      by (destruct Hstop as [-> | ->]; by split).
    destruct Hns as [Hrule Hsp].
    change ("||" ++ d ++ String stop tail)
      with (String "|" (String "|" (d ++ String stop tail))).
    unfold easyListLine. rewrite (TrimSpace_rule_line d tail stop Hd Hsp).
    rewrite !HasPrefix_cons. cbn [String.eqb Ascii.eqb Bool.eqb orb andb].
    assert (Hfind : forall s, findRule s (String "|" (String "|"
                        (d ++ String stop (TrimRightSpace tail))))
                      = if Ascii.eqb stop s then Some d else None).
    { intros s0. unfold findRule. rewrite (spanRule_run d _ stop Hd Hrule).
      destruct d as [|c d']; [done|reflexivity]. }
    rewrite !Hfind.
    assert (Hlow : String.eqb (ToLower d) EmptyString = false)
      by (destruct d; [done|reflexivity]).
    destruct Hstop as [-> | ->]; simpl; rewrite Hlow; reflexivity.
  - intros _ Hbars. unfold easyListLine.
    destruct (_ || _); [reflexivity|].
    destruct (findRule "^" (TrimSpace text)) eqn:H1;
      [apply findRule_bars in H1; congruence|].
    destruct (findRule "/" (TrimSpace text)) eqn:H2;
      [apply findRule_bars in H2; congruence|].
    reflexivity.
Qed.

Lemma easyListLine_rule_witness :
  easyListLine "||Ads.Example.com^$third-party" = Some "ads.example.com"
  /\ easyListLine "||cdn.tracker.io/pixel.gif" = Some "cdn.tracker.io"
  /\ easyListLine "example.com##.banner" = None.
Proof.
  assert (H1 : forallb isRuleByte (list_ascii_of_string "Ads.Example.com") = true)
    by (vm_compute; reflexivity).
  assert (H2 : forallb isRuleByte (list_ascii_of_string "cdn.tracker.io") = true)
    by (vm_compute; reflexivity).
  assert (H3 : HasPrefix (TrimSpace "example.com##.banner") "||" = false)
    by (vm_compute; reflexivity).
  assert (N1 : "Ads.Example.com" <> EmptyString) by discriminate.
  assert (N2 : "cdn.tracker.io" <> EmptyString) by discriminate.
  assert (A1 : isASCII "$third-party" = true) by reflexivity.
  assert (A2 : isASCII "pixel.gif" = true) by reflexivity.
  assert (A3 : isASCII "example.com##.banner" = true) by reflexivity.
  split; [|split].
  - exact (proj1 (easyListLine_rule EmptyString "Ads.Example.com" "$third-party" "^")
             (or_introl eq_refl) N1 H1 A1).
  - exact (proj1 (easyListLine_rule EmptyString "cdn.tracker.io" "pixel.gif" "/")
             (or_intror eq_refl) N2 H2 A2).
  - exact (proj2 (easyListLine_rule "example.com##.banner" EmptyString EmptyString "^")
             A3 H3).
Defined.

(** *** The domain-list parser *)

Lemma parseDomainsFormat_first_valid (clock : Clock) (ls : list string)
  (feed : AdBlockFeed) :
  parseDomainsFormat clock {| lines := ls; scanErr := None |} feed
    = (entriesFrom (domainsAt clock feed) 0
         (firstn (Z.to_nat domainsCap) (domainsOf domainsLine ls)), None).
Proof.
  destruct (cap_nat domainsCap domainsCap_pos) as [Hn Hpos].
  unfold parseDomainsFormat. cbn [lines scanErr].
  rewrite domainsScan_capScan, (capScan_first_valid _ _ _ _ _ _ Hn) by exact Hpos.
  cbn [length app]. by rewrite Nat.sub_0_r, firstn_entriesFrom.
Qed.

Lemma In_firstn {A : Type} (x : A) (n : nat) (l : list A) : In x (firstn n l) -> In x l.
Proof. intros H. rewrite <- (firstn_skipn n l). apply in_or_app. by left. Qed.

Lemma domainsOf_fixpoint (ds : list string) :
  (forall d, In d ds -> domainsLine d = Some d) -> domainsOf domainsLine ds = ds.
Proof.
  unfold domainsOf. induction ds as [|d ds IH]; intros H; [reflexivity|].
  simpl. rewrite (H d (or_introl eq_refl)).
  change (list_omap string string domainsLine ds) with (omap domainsLine ds).
  rewrite IH; [reflexivity|]. intros d' Hd'. apply H. by right.
Qed.

Lemma domainsOf_In (lineOf : string -> option string) (ls : list string) (d : string) :
  In d (domainsOf lineOf ls) -> exists text, In text ls /\ lineOf text = Some d.
Proof.
  unfold domainsOf. induction ls as [|text ls IH]; simpl; [done|].
  destruct (lineOf text) as [d'|] eqn:Hline.
  - intros [<-|Hin]; [by exists text; split; [left|]|].
    destruct (IH Hin) as (t & Ht & Hd). exists t. split; [by right|done].
  - intros Hin. destruct (IH Hin) as (t & Ht & Hd). exists t. split; [by right|done].
Qed.

Lemma domains_entriesFrom (clock : Clock) (feed : AdBlockFeed) (i : nat) (ds : list string) :
  List.map Domain (entriesFrom (domainsAt clock feed) i ds) = ds.
Proof.
  revert i. induction ds as [|d ds IH]; intros i; [reflexivity|].
  cbn [entriesFrom List.map]. by rewrite IH.
Qed.

Lemma unstamped_entriesFrom (clock clock' : Clock) (feed : AdBlockFeed) (i j : nat)
  (ds : list string) :
  List.map unstamped (entriesFrom (domainsAt clock feed) i ds)
    = List.map unstamped (entriesFrom (domainsAt clock' feed) j ds).
Proof.
  revert i j. induction ds as [|d ds IH]; intros i j; [reflexivity|].
  cbn [entriesFrom List.map]. by rewrite (IH (S i) (S j)).
Qed.

(** X12: the domain-list parser is idempotent up to the time stamps.  The
    domains it returns for a body of ASCII lines, written one to a line and
    parsed again at any later time, give entries that differ from the first
    ones in their time stamps only: a stored domain has no surrounding
    space, is no comment, is in lower case and is valid, and the cap that
    held for the first pass holds for the second. *)
Theorem parseDomainsFormat_idempotent (clock clock' : Clock) (body : Body)
  (feed : AdBlockFeed) :
  asciiLines (lines body) ->
  scanErr body = None ->
  let out := fst (parseDomainsFormat clock body feed) in
  let again :=
    parseDomainsFormat clock' {| lines := List.map Domain out; scanErr := None |} feed in
  snd again = None
  /\ List.map unstamped (fst again) = List.map unstamped out
  /\ List.map Domain (fst again) = List.map Domain out.
Proof.
  intros _ Herr out again.
  set (ds := domainsOf domainsLine (lines body)).
  assert (Hout : out = entriesFrom (domainsAt clock feed) 0 (firstn (Z.to_nat domainsCap) ds)).
  { unfold out. destruct body as [ls err]. simpl in Herr. subst err.
    by rewrite parseDomainsFormat_first_valid. }
  assert (Hdomains : List.map Domain out = firstn (Z.to_nat domainsCap) ds)
    by (rewrite Hout; apply domains_entriesFrom).
  assert (Hagain : again = (entriesFrom (domainsAt clock' feed) 0
                              (firstn (Z.to_nat domainsCap) ds), None)).
  { unfold again. rewrite parseDomainsFormat_first_valid, Hdomains. f_equal. f_equal.
    rewrite domainsOf_fixpoint; [by rewrite firstn_firstn, Nat.min_id|].
    intros d Hd. apply In_firstn in Hd.
    destruct (domainsOf_In _ _ _ Hd) as (text & _ & Hline).
    destruct (domainsLine_Some _ _ Hline) as [Hv Hl]. by apply domainsLine_fixpoint. }
  rewrite Hagain, Hout. cbn [fst snd]. split; [reflexivity|]. split.
  - apply unstamped_entriesFrom.
  - by rewrite !domains_entriesFrom.
Qed.

Lemma parseDomainsFormat_idempotent_witness :
  let out := fst (parseDomainsFormat fixtures.ticking fixtures.domainList
                    fixtures.stevenBlack) in
  List.map Domain
    (fst (parseDomainsFormat (fun n => fixtures.ticking (n + 100))
            {| lines := List.map Domain out; scanErr := None |} fixtures.stevenBlack))
  = List.map Domain out.
Proof.
  intros out.
  assert (A : asciiLines (lines fixtures.domainList)) by (repeat constructor).
  assert (H : scanErr fixtures.domainList = None) by reflexivity.
  exact (proj2 (proj2 (parseDomainsFormat_idempotent fixtures.ticking
                         (fun n => fixtures.ticking (n + 100)) fixtures.domainList
                         fixtures.stevenBlack A H))).
Defined.

(** *** A cycle over the feeds *)

Lemma capScan_In (cap : Z) (lineOf : string -> option string)
  (mk : nat -> string -> ThreatEntry) (ls : list string) (entries : list ThreatEntry)
  (e : ThreatEntry) :
  In e (fst (capScan cap lineOf mk ls entries)) ->
  In e entries \/ exists text d i, In text ls /\ lineOf text = Some d /\ e = mk i d.
Proof.
  revert entries. induction ls as [|text ls IH]; intros entries; cbn [capScan]; [by left|].
  destruct (lineOf text) as [d|] eqn:Hline.
  - cbv zeta. destruct (cap <=? _)%Z; cbn [fst].
    + intros Hin. apply in_app_or in Hin as [Hin|[<-|[]]]; [by left|].
      right. exists text, d, (length entries). by split; [left|].
    + intros Hin. destruct (IH _ Hin) as [Hin'|(t & d' & i & Ht & Hd & He)].
      * apply in_app_or in Hin' as [Hin'|[<-|[]]]; [by left|].
        right. exists text, d, (length entries). by split; [left|].
      * right. exists t, d', i. by split; [right|].
  - intros Hin. destruct (IH _ Hin) as [Hin'|(t & d' & i & Ht & Hd & He)]; [by left|].
    right. exists t, d', i. by split; [right|].
Qed.

Lemma rangeFeeds_cycle (now : Time) (updateFeed : ThreatFeed -> list ThreatEntry * error)
  (slice : list ThreatFeed) (allEntries : list ThreatEntry) (reqs : list string) :
  rangeFeeds now updateFeed slice allEntries reqs
    = ((allEntries ++ concat (List.map (fetched updateFeed) (List.filter (due now) slice)))%list,
       (reqs ++ List.map Name (List.filter (due now) slice))%list).
Proof.
  revert allEntries reqs. induction slice as [|feed slice IH]; intros allEntries reqs.
  - simpl. by rewrite !app_nil_r.
  - cbn [rangeFeeds List.filter]. destruct (due now feed) eqn:Hdue; unfold due in Hdue.
    + apply andb_true_iff in Hdue as [Hen Hfreq]. apply negb_true_iff in Hfreq.
      unfold updateFeedsBody. rewrite Hen, Hfreq. cbn [negb List.map concat].
      change (fetched updateFeed feed)
        with (match updateFeed feed with (got, None) => got | (_, Some _) => [] end).
      destruct (updateFeed feed) as [got [e|]]; rewrite IH, <- ?app_assoc; reflexivity.
    + unfold updateFeedsBody. destruct (IsEnabled feed); cbn in Hdue |- *; [|apply IH].
      apply negb_false_iff in Hdue. rewrite Hdue. apply IH.
Qed.

Lemma rangeAdBlockFeeds_cycle (now : Time)
  (update : AdBlockFeed -> list ThreatEntry * error)
  (slice : list AdBlockFeed) (allEntries : list ThreatEntry) (reqs : list string) :
  rangeAdBlockFeeds now update slice allEntries reqs
    = ((allEntries ++ concat (List.map (fetched update) (List.filter (adDue now) slice)))%list,
       (reqs ++ List.map ab_Name (List.filter (adDue now) slice))%list).
Proof.
  revert allEntries reqs. induction slice as [|feed slice IH]; intros allEntries reqs.
  - simpl. by rewrite !app_nil_r.
  - cbn [rangeAdBlockFeeds List.filter]. destruct (adDue now feed) eqn:Hdue; unfold adDue in Hdue.
    + apply andb_true_iff in Hdue as [Hen Hfreq]. apply negb_true_iff in Hfreq.
      unfold updateAdBlockBody. rewrite Hen, Hfreq. cbn [negb List.map concat].
      change (fetched update feed)
        with (match update feed with (got, None) => got | (_, Some _) => [] end).
      destruct (update feed) as [got [e|]]; rewrite IH, <- ?app_assoc; reflexivity.
    + unfold updateAdBlockBody. destruct (ab_IsEnabled feed); cbn in Hdue |- *; [|apply IH].
      apply negb_false_iff in Hdue. rewrite Hdue. apply IH.
Qed.


Lemma updateAdBlockFeed_In (clock : Clock) (client : Client) (feed : AdBlockFeed)
  (e : ThreatEntry) :
  In e (fetched (updateAdBlockFeed clock client) feed) ->
  exists text d i,
    (hostsLine text = Some d /\ e = hostsAt clock feed i d)
    \/ (easyListLine text = Some d /\ e = easyListAt clock feed i d)
    \/ (domainsLine text = Some d /\ e = domainsAt clock feed i d).
Proof.
  unfold fetched, updateAdBlockFeed.
  destruct (NewRequest client (ab_URL feed)); [done|].
  destruct (Do client (ab_URL feed)) as [resp [err|]]; [done|].
  destruct (negb _); [done|].
  destruct (String.eqb (Format feed) "hosts").
  { unfold parseHostsFormat. rewrite hostsScan_capScan.
    destruct (capScan _ _ _ _ _) as [es broke] eqn:Hscan.
    destruct (scanErr (RespBody resp)); [done|]. intros Hin.
    pose proof (capScan_In hostsCap hostsLine (hostsAt clock feed)
                  (lines (RespBody resp)) [] e) as H.
    rewrite Hscan in H. destruct (H Hin) as [[]|(t & d & i & _ & Hd & ->)].
    exists t, d, i. by left. }
  destruct (String.eqb (Format feed) "easylist").
  { unfold parseEasyListFormat. rewrite easyListScan_capScan.
    destruct (capScan _ _ _ _ _) as [es broke] eqn:Hscan.
    destruct (scanErr (RespBody resp)); [done|]. intros Hin.
    pose proof (capScan_In easyListCap easyListLine (easyListAt clock feed)
                  (lines (RespBody resp)) [] e) as H.
    rewrite Hscan in H. destruct (H Hin) as [[]|(t & d & i & _ & Hd & ->)].
    exists t, d, i. right. by left. }
  destruct (String.eqb (Format feed) "domains"); [|done].
  unfold parseDomainsFormat. rewrite domainsScan_capScan.
  destruct (capScan _ _ _ _ _) as [es broke] eqn:Hscan.
  destruct (scanErr (RespBody resp)); [done|]. intros Hin.
  pose proof (capScan_In domainsCap domainsLine (domainsAt clock feed)
                (lines (RespBody resp)) [] e) as H.
  rewrite Hscan in H. destruct (H Hin) as [[]|(t & d & i & _ & Hd & ->)].
  exists t, d, i. right. by right.
Qed.

(** X14: every entry that a cycle of [UpdateAllAdBlockFeeds] returns, with
    the feeds fetched by [updateAdBlockFeed], whatever ASCII lines the
    servers send and whatever the clock reads: its domain is valid and in
    lower case, its threat type is "ads", its confidence is 0.80 or 0.85,
    it is active, its source is the lower-cased name, with underscores for
    spaces, of a feed of the manager that was enabled and due, and its two
    time stamps are two successive readings of the clock made by the parse
    of that feed. *)
Theorem UpdateAllAdBlockFeeds_entries (now : Time) (clock : AdBlockFeed -> Clock)
  (client : Client) (abm : AdBlockManager) (e : ThreatEntry) :
  (forall url, asciiLines (lines (RespBody (fst (Do client url))))) ->
  Forall (fun feed => isASCII (ab_Name feed) = true) (ab_feeds abm) ->
  In e (entries (UpdateAllAdBlockFeeds now
                   (fun feed => updateAdBlockFeed (clock feed) client feed) abm)) ->
  isValidDomain (Domain e) = true
  /\ ToLower (Domain e) = Domain e
  /\ ThreatType e = "ads"
  /\ (Confidence e = 80 \/ Confidence e = 85)%Z
  /\ IsActive e = true
  /\ exists feed i,
       In feed (ab_feeds abm) /\ adDue now feed = true
       /\ Source e = ToLower (Replace (ab_Name feed) " "%char "_"%char)
       /\ FirstSeen e = clock feed (2 * i)%nat
       /\ LastSeen e = clock feed (2 * i + 1)%nat.
Proof.
  intros _ _. unfold UpdateAllAdBlockFeeds. rewrite rangeAdBlockFeeds_cycle.
  cbn [entries app].
  intros Hin. apply in_concat in Hin as (got & Hgot & Hin).
  apply in_map_iff in Hgot as (feed & <- & Hfeed).
  apply filter_In in Hfeed as [Hfeed Hdue].
  assert (Hin' : In e (fetched (updateAdBlockFeed (clock feed) client) feed)) by exact Hin.
  destruct (updateAdBlockFeed_In (clock feed) client feed e Hin')
    as (text & d & i & [[Hline ->]|[[Hline ->]|[Hline ->]]]).
  - destruct (hostsLine_Some _ _ Hline) as (Hv & Hl & _).
    cbn. repeat split; try done; [by right|by exists feed, i].
  - destruct (easyListLine_Some _ _ Hline) as (Hv & Hl).
    cbn. repeat split; try done; [by left|by exists feed, i].
  - destruct (domainsLine_Some _ _ Hline) as (Hv & Hl).
    cbn. repeat split; try done; [by right|by exists feed, i].
Qed.

Lemma UpdateAllAdBlockFeeds_entries_witness :
  let e := hostsAt fixtures.ticking fixtures.stevenBlack 0 "ads.example.com" in
  isValidDomain (Domain e) = true
  /\ ToLower (Domain e) = Domain e
  /\ ThreatType e = "ads"
  /\ (Confidence e = 80 \/ Confidence e = 85)%Z
  /\ IsActive e = true
  /\ exists feed i,
       In feed (ab_feeds NewAdBlockManager) /\ adDue fixtures.t0 feed = true
       /\ Source e = ToLower (Replace (ab_Name feed) " "%char "_"%char)
       /\ FirstSeen e = fixtures.ticking (2 * i)%nat
       /\ LastSeen e = fixtures.ticking (2 * i + 1)%nat.
Proof.
  intros e.
  assert (Hascii : forall url,
             asciiLines (lines (RespBody (fst (Do fixtures.adServers url))))).
  { intros url. unfold fixtures.adServers. cbn [Do].
    destruct (String.eqb url (ab_URL fixtures.stevenBlack)); cbn; repeat constructor. }
  assert (Hnames : Forall (fun feed => isASCII (ab_Name feed) = true)
                     (ab_feeds NewAdBlockManager)) by (repeat constructor).
  assert (Hin : In e (entries (UpdateAllAdBlockFeeds fixtures.t0
                                 (fun feed => updateAdBlockFeed fixtures.ticking
                                                fixtures.adServers feed)
                                 NewAdBlockManager)))
    by (vm_compute; left; reflexivity).
  exact (UpdateAllAdBlockFeeds_entries fixtures.t0 (fun _ => fixtures.ticking)
           fixtures.adServers NewAdBlockManager e Hascii Hnames Hin).
Defined.

(** *** Text feeds *)

Lemma textLine_plain (extractDomain : string -> string) (feed : ThreatFeed) (text : string) :
  Name feed <> "OpenPhish" ->
  textLine extractDomain feed text
    = if isValidDomain (TrimSpace text) then Some (TrimSpace text, "malware") else None.
Proof.
  intros Hname. unfold textLine.
  destruct (String.eqb_spec (Name feed) "OpenPhish") as [|_]; [done|].
  destruct (String.eqb_spec (TrimSpace text) EmptyString) as [->|Hne]; [reflexivity|].
  cbn [orb]. destruct (HasPrefix (TrimSpace text) "#") eqn:Hhash.
  - apply HasPrefix_byte in Hhash as [rest ->].
    by rewrite comment_not_valid.
  - destruct (String.eqb_spec (TrimSpace text) EmptyString) as [|_]; [done|].
    cbn [orb]. by destruct (isValidDomain (TrimSpace text)).
Qed.

Lemma textScan_domains (clock : Clock) (extractDomain : string -> string)
  (feed : ThreatFeed) (ls : list string) (entries : list ThreatEntry) :
  Name feed <> "OpenPhish" ->
  List.map Domain (textScan clock extractDomain feed ls entries)
    = (List.map Domain entries
       ++ List.filter isValidDomain (List.map TrimSpace ls))%list.
Proof.
  intros Hname. revert entries. induction ls as [|text ls IH]; intros entries.
  - cbn. by rewrite app_nil_r.
  - cbn [textScan List.map List.filter]. rewrite (textLine_plain _ _ _ Hname).
    destruct (isValidDomain (TrimSpace text)); [|apply IH].
    cbv zeta. rewrite IH, map_app, <- app_assoc. reflexivity.
Qed.

Lemma textScan_entries (clock : Clock) (extractDomain : string -> string)
  (feed : ThreatFeed) (ls : list string) (entries : list ThreatEntry)
  (P : ThreatEntry -> Prop) :
  Name feed <> "OpenPhish" ->
  (forall a b d, P (textEntry a b feed d "malware")) ->
  (forall e, In e entries -> P e) ->
  forall e, In e (textScan clock extractDomain feed ls entries) -> P e.
Proof.
  intros Hname Hnew. revert entries. induction ls as [|text ls IH]; intros entries Hold.
  - exact Hold.
  - cbn [textScan]. rewrite (textLine_plain _ _ _ Hname).
    destruct (isValidDomain (TrimSpace text)); [|by apply IH].
    cbv zeta. apply IH. intros e Hin. apply in_app_or in Hin as [Hin|[<-|[]]].
    + by apply Hold.
    + apply Hnew.
Qed.

(** X15: a text feed other than OpenPhish is read as a plain list.  For a
    body of ASCII lines without a read error, the domains of the entries
    are exactly the trimmed lines that are valid domains, in the order of
    the lines, with their letters as the feed wrote them (nothing is put in
    lower case) and with no cap on their number; every entry is "malware"
    at confidence 0.85.  Comment and empty lines need no separate mention:
    they are not valid domains. *)
Theorem parseTextFeed_plain_list (clock : Clock) (extractDomain : string -> string)
  (body : Body) (feed : ThreatFeed) :
  Name feed <> "OpenPhish" ->
  isASCII (Name feed) = true ->
  asciiLines (lines body) ->
  scanErr body = None ->
  let out := fst (parseTextFeed clock extractDomain body feed) in
  List.map Domain out = List.filter isValidDomain (List.map TrimSpace (lines body))
  /\ snd (parseTextFeed clock extractDomain body feed) = None
  /\ forall e, In e out -> ThreatType e = "malware" /\ Confidence e = 85%Z
                           /\ Source e = ToLower (Name feed).
Proof.
  intros Hname _ _ Herr out. unfold out, parseTextFeed. rewrite Herr. cbn [fst snd].
  split; [|split; [reflexivity|]].
  - by rewrite textScan_domains.
  - apply textScan_entries; [exact Hname|done|by intros e []].
Qed.

Lemma parseTextFeed_plain_list_witness :
  List.map Domain (fst (parseTextFeed fixtures.ticking (fun u => u) fixtures.plainBody
                          fixtures.plainFeed))
  = ["Evil.Example"; "c2.example"].
Proof.
  assert (H1 : Name fixtures.plainFeed <> "OpenPhish") by discriminate.
  assert (H2 : scanErr fixtures.plainBody = None) by reflexivity.
  assert (A1 : isASCII (Name fixtures.plainFeed) = true) by reflexivity.
  assert (A2 : asciiLines (lines fixtures.plainBody)) by (repeat constructor).
  destruct (parseTextFeed_plain_list fixtures.ticking (fun u => u) fixtures.plainBody
              fixtures.plainFeed H1 A1 A2 H2) as [Hdomains _].
  etransitivity; [exact Hdomains|]. vm_compute. reflexivity.
Defined.

End FeedParsers.

Section ThreatStore.
Import time feeds db dbspec.

Lemma orderBy_none (rows : list ThreatRow) :
  orderByConfidenceLimit1 rows = None -> rows = [].
Proof.
  destruct rows as [|r rest]; [done|]. simpl.
  destruct (orderByConfidenceLimit1 rest) as [best|]; [|done].
  by destruct (confidence_score best <=? confidence_score r)%Z.
Qed.

Lemma orderBy_best (rows : list ThreatRow) (r : ThreatRow) :
  orderByConfidenceLimit1 rows = Some r ->
  In r rows /\ forall r', In r' rows -> (confidence_score r' <= confidence_score r)%Z.
Proof.
  revert r. induction rows as [|x rest IH]; intros r; simpl; [done|].
  destruct (orderByConfidenceLimit1 rest) as [best|] eqn:Hrest.
  - destruct (IH best eq_refl) as [Hin Hmax].
    destruct (Z.leb_spec (confidence_score best) (confidence_score x)); intros [= <-].
    + split; [by left|]. intros r' [<-|Hr']; [lia|]. specialize (Hmax r' Hr'). lia.
    + split; [by right|]. intros r' [<-|Hr']; [lia|]. by apply Hmax.
  - apply orderBy_none in Hrest as ->. intros [= <-].
    split; [by left|]. intros r' [<-|[]]. lia.
Qed.

(** X16: [CheckThreatDomain] names a threat type only on the evidence of a
    row.  When it returns a non-empty type, the table holds a row for the
    domain that was created less than 30 days ago, has a confidence of at
    least 0.70 and carries that type, and no row for the domain created in
    the window has a higher confidence. *)
Theorem CheckThreatDomain_sound (now : Time) (c : Connection) (d t : string) :
  CheckThreatDomain now c d = (t, None) ->
  t <> EmptyString ->
  exists r, In r (threat_domains (threatDB c))
            /\ domain r = d
            /\ (now - days 30 < created_at r)%Z
            /\ (70 <= confidence_score r)%Z
            /\ threat_type r = t
            /\ forall r', In r' (threat_domains (threatDB c)) -> domain r' = d ->
                          (now - days 30 < created_at r')%Z ->
                          (confidence_score r' <= confidence_score r)%Z.
Proof.
  unfold CheckThreatDomain, IsThreatDomain.
  destruct (lookupErr (threatDB c) d); [discriminate|].
  destruct (orderByConfidenceLimit1 _) as [r|] eqn:Hbest; cbn [andb];
    [|intros [= <-]; done].
  destruct (Z.leb_spec 70 (confidence_score r)) as [Hconf|_]; [|intros [= <-]; done].
  intros [= <-] _. destruct (orderBy_best _ _ Hbest) as [Hin Hmax].
  apply filter_In in Hin as [Hin Hwhere]. unfold whereIsThreat in Hwhere.
  apply andb_true_iff in Hwhere as [Hd Hwin].
  apply String.eqb_eq in Hd. apply Z.ltb_lt in Hwin.
  exists r. repeat split; try done.
  intros r' Hr' Hd' Hwin'. apply Hmax. apply filter_In. split; [done|].
  unfold whereIsThreat. apply andb_true_iff. split; [by apply String.eqb_eq|by apply Z.ltb_lt].
Qed.

Lemma CheckThreatDomain_sound_witness :
  exists r, In r (threat_domains fixtures.doubleclickDB)
            /\ domain r = "doubleclick.net"
            /\ (70 <= confidence_score r)%Z
            /\ threat_type r = "ads".
Proof.
  assert (H1 : CheckThreatDomain fixtures.t0 {| threatDB := fixtures.doubleclickDB |}
                 "doubleclick.net" = ("ads", None)) by (vm_compute; reflexivity).
  assert (H2 : "ads" <> EmptyString) by discriminate.
  destruct (CheckThreatDomain_sound fixtures.t0 {| threatDB := fixtures.doubleclickDB |}
              "doubleclick.net" "ads" H1 H2) as (r & Hin & Hd & _ & Hconf & Ht & _).
  exists r. by repeat split.
Defined.

Lemma upsert_other (x : ThreatRow) (table : list ThreatRow) (r : ThreatRow) :
  domain r <> domain x -> In r (upsert x table) <-> In r table.
Proof.
  intros Hne. induction table as [|y rest IH]; simpl.
  - split; [intros [<-|[]]; done|done].
  - destruct (String.eqb_spec (domain y) (domain x)) as [Heq|_]; simpl.
    + split.
      * intros [<-|Hin]; [by destruct Hne|by right].
      * intros [<-|Hin]; [by destruct Hne|by right].
    + rewrite IH. reflexivity.
Qed.

Lemma upsert_fresh (x : ThreatRow) (table : list ThreatRow) :
  hasDomain (domain x) table = false -> upsert x table = (table ++ [x])%list.
Proof.
  unfold hasDomain. induction table as [|y rest IH]; simpl; [done|].
  intros H. apply orb_false_iff in H as [-> H]. by rewrite IH.
Qed.

Lemma upsert_row (x : ThreatRow) (table : list ThreatRow) :
  exists r', In r' (upsert x table)
    /\ domain r' = domain x /\ updated_at r' = updated_at x
    /\ threat_type r' = threat_type x /\ source r' = source x
    /\ match List.find (fun r => String.eqb (domain r) (domain x)) table with
       | Some r => created_at r' = created_at r
                   /\ confidence_score r' = Z.max (confidence_score r) (confidence_score x)
       | None => created_at r' = created_at x /\ confidence_score r' = confidence_score x
       end.
Proof.
  induction table as [|y rest IH]; simpl.
  - exists x. by repeat split; [left|..].
  - destruct (String.eqb_spec (domain y) (domain x)) as [Heq|_].
    + exists (onConflict y x). by repeat split; [left|..].
    + destruct IH as (r' & Hin & H). exists r'. split; [by right|exact H].
Qed.

(** X17: what [UpdateThreatEntry] does to a table with one row per domain.
    The call fails exactly when the driver reports an error for the
    statement, and then the database is as before.  When it succeeds, the
    table keeps one row per domain; rows of other domains are neither added,
    removed nor changed; the row of the entry's domain carries the entry's
    type and source and the time of the call as [updated_at]; if the domain
    had a row, its [created_at] is kept and the confidence is the larger of
    the stored and the new one, otherwise the row is new. *)
Theorem UpdateThreatEntry_row (now : Time) (tdb : ThreatDB) (entry : ThreatEntry) :
  NoDup (List.map domain (threat_domains tdb)) ->
  let err := fst (UpdateThreatEntry now tdb entry) in
  let table := threat_domains tdb in
  let table' := threat_domains (snd (UpdateThreatEntry now tdb entry)) in
  (err = None <-> callErr tdb ExecUpsert = None)
  /\ (forall e, callErr tdb ExecUpsert = Some e ->
      UpdateThreatEntry now tdb entry = (Some ("upserting threat entry: " ++ e), tdb))
  /\ (err = None ->
      NoDup (List.map domain table')
      /\ (forall r, domain r <> Domain entry -> In r table' <-> In r table)
      /\ exists r', In r' table'
           /\ domain r' = Domain entry /\ updated_at r' = now
           /\ threat_type r' = ThreatType entry /\ source r' = Source entry
           /\ match List.find (fun r => String.eqb (domain r) (Domain entry)) table with
              | Some r => created_at r' = created_at r
                          /\ confidence_score r'
                             = Z.max (confidence_score r) (Confidence entry)
              | None => created_at r' = now /\ confidence_score r' = Confidence entry
              end).
Proof.
  intros Hnodup err table table'. unfold err, table', table, UpdateThreatEntry.
  destruct (callErr tdb ExecUpsert) as [e|]; cbn [fst snd].
  - split; [by split|]. split; [by intros e' [= <-]|]. discriminate.
  - split; [by split|]. split; [discriminate|]. intros _. cbn.
    split; [by apply upsert_unique|].
    split; [intros r Hne; by apply upsert_other|].
    exact (upsert_row (copyRow now entry) (threat_domains tdb)).
Qed.

Lemma UpdateThreatEntry_row_witness :
  exists r', In r' (threat_domains (snd (UpdateThreatEntry (fixtures.t0 + Hour)%Z
                                           fixtures.seededDB fixtures.evil)))
             /\ domain r' = "evil.example"
             /\ created_at r' = fixtures.t0
             /\ updated_at r' = (fixtures.t0 + Hour)%Z
             /\ confidence_score r' = 90%Z.
Proof.
  assert (H : NoDup (List.map domain (threat_domains fixtures.seededDB)))
    by (vm_compute; constructor; [apply not_elem_of_nil|constructor]).
  assert (Hok : fst (UpdateThreatEntry (fixtures.t0 + Hour)%Z fixtures.seededDB fixtures.evil)
                = None) by (vm_compute; reflexivity).
  destruct (UpdateThreatEntry_row (fixtures.t0 + Hour)%Z fixtures.seededDB fixtures.evil H)
    as (_ & _ & Hrow).
  destruct (Hrow Hok) as (_ & _ & r' & Hin & Hd & Hu & _ & _ & Hfind).
  assert (Hf : List.find (fun r => String.eqb (domain r) (Domain fixtures.evil))
                 (threat_domains fixtures.seededDB)
               = Some {| domain := "evil.example"; threat_type := "malware";
                         confidence_score := 80; source := "openphish";
                         created_at := fixtures.t0; updated_at := fixtures.t0 |})
    by (vm_compute; reflexivity).
  rewrite Hf in Hfind. destruct Hfind as [Hc Hconf].
  exists r'. repeat split; try done.
Defined.

Lemma hasDomain_false (d : string) (rows : list ThreatRow) :
  hasDomain d rows = false <-> forall r, In r rows -> domain r <> d.
Proof.
  unfold hasDomain. induction rows as [|y rest IH]; simpl.
  - split; [intros _ r []|done].
  - rewrite orb_false_iff, IH. split.
    + intros [Hy Hrest] r [<-|Hr]; [by apply String.eqb_neq|by apply Hrest].
    + intros H. split; [apply String.eqb_neq; apply H; by left|].
      intros r Hr. apply H. by right.
Qed.

Lemma filter_app_other (now : Time) (d : string) (rows : list ThreatRow) :
  hasDomain d rows = false -> List.filter (whereIsThreat now d) rows = [].
Proof.
  intros H. induction rows as [|y rest IH]; [reflexivity|].
  simpl in *. unfold hasDomain in H. simpl in H.
  apply orb_false_iff in H as [Hy H]. unfold whereIsThreat at 1. rewrite Hy. by apply IH.
Qed.

(** X18: an entry for a domain new to the table, stored by a successful
    [UpdateThreatEntry] at [now] and looked up at [later].  When the lookup
    runs, [CheckThreatDomain] names the entry's threat type exactly when
    the lookup comes less than 30 days after the insert and the confidence
    is at least 0.70, and returns the empty type otherwise; when the driver
    reports an error for the lookup, it returns that error, wrapped, and
    the empty type. *)
Theorem fresh_entry_blocks_for_30_days (now later : Time) (tdb : ThreatDB)
  (entry : ThreatEntry) :
  hasDomain (Domain entry) (threat_domains tdb) = false ->
  fst (UpdateThreatEntry now tdb entry) = None ->
  CheckThreatDomain later {| threatDB := snd (UpdateThreatEntry now tdb entry) |}
    (Domain entry)
  = match lookupErr tdb (Domain entry) with
    | Some e =>
        (EmptyString, Some ("failed to check threat domain: querying threat domain: " ++ e))
    | None =>
        (if (later - days 30 <? now)%Z && (70 <=? Confidence entry)%Z
         then ThreatType entry else EmptyString, None)
    end.
Proof.
  intros Hfresh. unfold CheckThreatDomain, IsThreatDomain, UpdateThreatEntry.
  destruct (callErr tdb ExecUpsert) as [e|]; [discriminate|]. intros _.
  cbn [snd threatDB withRows lookupErr threat_domains].
  destruct (lookupErr tdb (Domain entry)) as [e|]; [reflexivity|].
  rewrite upsert_fresh by exact Hfresh.
  rewrite List.filter_app, (filter_app_other later _ _ Hfresh). cbn [app List.filter].
  unfold whereIsThreat. cbn [copyRow domain created_at]. rewrite String.eqb_refl. cbn [andb].
  destruct (later - days 30 <? now)%Z; cbn [orderByConfidenceLimit1 andb]; [|reflexivity].
  cbn [copyRow confidence_score threat_type]. by destruct (70 <=? Confidence entry)%Z.
Qed.

Lemma fresh_entry_blocks_for_30_days_witness :
  CheckThreatDomain (fixtures.t0 + days 29)%Z
    {| threatDB := snd (UpdateThreatEntry fixtures.t0 fixtures.emptyDB fixtures.evil) |}
    "evil.example" = ("malware", None)
  /\ CheckThreatDomain (fixtures.t0 + days 30)%Z
       {| threatDB := snd (UpdateThreatEntry fixtures.t0 fixtures.emptyDB fixtures.evil) |}
       "evil.example" = (EmptyString, None).
Proof.
  assert (H1 : hasDomain (Domain fixtures.evil) (threat_domains fixtures.emptyDB) = false)
    by reflexivity.
  assert (H2 : fst (UpdateThreatEntry fixtures.t0 fixtures.emptyDB fixtures.evil) = None)
    by reflexivity.
  pose proof (fresh_entry_blocks_for_30_days fixtures.t0 (fixtures.t0 + days 29)%Z
                fixtures.emptyDB fixtures.evil H1 H2) as Ha.
  pose proof (fresh_entry_blocks_for_30_days fixtures.t0 (fixtures.t0 + days 30)%Z
                fixtures.emptyDB fixtures.evil H1 H2) as Hb.
  split.
  - etransitivity; [exact Ha|]. vm_compute. reflexivity.
  - etransitivity; [exact Hb|]. vm_compute. reflexivity.
Defined.

Lemma filter_filter_implied {A : Type} (f g : A -> bool) (l : list A) :
  (forall x, In x l -> f x = true -> g x = true) ->
  List.filter f (List.filter g l) = List.filter f l.
Proof.
  induction l as [|x l IH]; intros H; [reflexivity|]. simpl.
  assert (IH' : List.filter f (List.filter g l) = List.filter f l)
    by (apply IH; intros y Hy; apply H; by right).
  destruct (g x) eqn:Hg; simpl.
  - by rewrite IH'.
  - destruct (f x) eqn:Hf; [|exact IH'].
    rewrite (H x (or_introl eq_refl) Hf) in Hg. discriminate.
Qed.



Lemma hasDomain_app (d : string) (l1 l2 : list ThreatRow) :
  hasDomain d (l1 ++ l2) = hasDomain d l1 || hasDomain d l2.
Proof. unfold hasDomain. apply existsb_app. Qed.

Lemma copyIn_Some (table rows t : list ThreatRow) :
  copyIn table rows = Some t <->
  t = (table ++ rows)%list
  /\ List.NoDup (List.map domain rows)
  /\ Forall (fun r => hasDomain (domain r) table = false) rows.
Proof.
  revert table. induction rows as [|r rest IH]; intros table; simpl.
  - rewrite app_nil_r. split.
    + intros [= <-]. repeat split; constructor.
    + by intros [-> _].
  - destruct (hasDomain (domain r) table) eqn:Hr.
    + split; [done|]. intros (_ & _ & Hall). inversion Hall; congruence.
    + rewrite IH, <- app_assoc. simpl. split.
      * intros (-> & Hnd & Hall). split; [reflexivity|]. split.
        -- constructor; [|exact Hnd]. intros Hin. apply in_map_iff in Hin as (r' & Hd & Hr').
           rewrite Forall_forall in Hall. specialize (Hall r' (proj2 (list_elem_of_In _ _) Hr')).
           rewrite hasDomain_app in Hall. apply orb_false_iff in Hall as [_ Hall].
           unfold hasDomain in Hall. simpl in Hall. rewrite orb_false_r in Hall.
           apply String.eqb_neq in Hall. congruence.
        -- constructor; [exact Hr|]. rewrite Forall_forall in *. intros r' Hr'.
           specialize (Hall r' Hr'). rewrite hasDomain_app in Hall.
           by apply orb_false_iff in Hall as [Hall _].
      * intros (-> & Hnd & Hall). split; [reflexivity|].
        inversion Hnd as [|x l Hnotin Hnd']; subst.
        inversion Hall as [|x l Hx Hall']; subst.
        split; [exact Hnd'|]. rewrite Forall_forall in *. intros r' Hr'.
        rewrite hasDomain_app, (Hall' r' Hr'). unfold hasDomain. simpl.
        rewrite orb_false_r. apply String.eqb_neq. intros Heq. apply Hnotin.
        apply in_map_iff. exists r'. split; [done|]. by apply list_elem_of_In.
Qed.

Lemma map_domain_copyRow (now : Time) (es : list ThreatEntry) :
  List.map domain (List.map (copyRow now) es) = List.map Domain es.
Proof. rewrite map_map. reflexivity. Qed.

(** What [BatchInsertThreats] returns, by the first step that fails. *)
Lemma BatchInsertThreats_cases (now : Time) (tdb : ThreatDB) (es : list ThreatEntry) :
  es <> [] ->
  let buffered := List.filter (appended tdb) es in
  let rows := List.map (copyRow now) buffered in
  (exists e, BatchInsertThreats now tdb es = (Some e, tdb))
  \/ (BatchInsertThreats now tdb es
        = (None, withRows tdb (threat_domains tdb ++ rows)%list)
      /\ copyIn (threat_domains tdb) rows = Some (threat_domains tdb ++ rows)%list
      /\ callErr tdb BeginTx = None /\ callErr tdb PrepareCopy = None
      /\ callErr tdb ExecCopy = None /\ callErr tdb CloseCopy = None
      /\ callErr tdb Commit = None).
Proof.
  intros Hne buffered rows. unfold BatchInsertThreats.
  destruct es as [|e0 es0]; [done|]. fold buffered. fold rows.
  destruct (callErr tdb BeginTx); [left; by eexists|].
  destruct (callErr tdb PrepareCopy); [left; by eexists|].
  destruct (callErr tdb ExecCopy); [left; by eexists|].
  destruct (copyIn (threat_domains tdb) rows) as [t|] eqn:Hcopy; [|left; by eexists].
  destruct (callErr tdb CloseCopy); [left; by eexists|].
  destruct (callErr tdb Commit); [left; by eexists|].
  right. pose proof (proj1 (copyIn_Some _ _ _) Hcopy) as (-> & _ & _). by repeat split.
Qed.

(** X20: [BatchInsertThreats] stores the whole batch or nothing.  The batch
    is the entries whose per-entry [Exec] went through.  If the call
    returns no error, the domains of the batch differ from one another and
    from every domain that was in the table, and the table is the old one
    followed by one row per entry of the batch, created and updated at the
    time of the call.  If it returns an error, for whatever reason, the
    database is as before.  It does return an error whenever a step of the
    transaction fails or a domain of the batch repeats or is in the table
    already, and it returns none when the steps go through and the domains
    are new and distinct. *)
Theorem BatchInsertThreats_all_or_nothing (now : Time) (tdb : ThreatDB)
  (es : list ThreatEntry) :
  let err := fst (BatchInsertThreats now tdb es) in
  let tdb' := snd (BatchInsertThreats now tdb es) in
  let batch := List.filter (appended tdb) es in
  let insertable :=
    List.NoDup (List.map Domain batch)
    /\ Forall (fun e => hasDomain (Domain e) (threat_domains tdb) = false) batch in
  let stepsPass :=
    callErr tdb BeginTx = None /\ callErr tdb PrepareCopy = None
    /\ callErr tdb ExecCopy = None /\ callErr tdb CloseCopy = None
    /\ callErr tdb Commit = None in
  (err = None -> es <> [] ->
   insertable /\ stepsPass
   /\ threat_domains tdb' = (threat_domains tdb ++ List.map (copyRow now) batch)%list
   /\ dns_logs tdb' = dns_logs tdb)
  /\ (err <> None -> tdb' = tdb)
  /\ (es = [] -> err = None /\ tdb' = tdb)
  /\ (insertable -> stepsPass -> err = None)
  /\ (es <> [] -> ~ (insertable /\ stepsPass) -> err <> None).
Proof.
  intros err tdb' batch insertable stepsPass.
  assert (Hiff : forall t, copyIn (threat_domains tdb) (List.map (copyRow now) batch) = Some t
                           <-> t = (threat_domains tdb ++ List.map (copyRow now) batch)%list
                               /\ insertable).
  { intros t. rewrite copyIn_Some, map_domain_copyRow. unfold insertable.
    rewrite Forall_map. reflexivity. }
  destruct es as [|e0 es0].
  { unfold err, tdb'. cbn. split; [done|]. split; [done|]. split; [done|].
    split; [done|]. done. }
  assert (Hne : e0 :: es0 <> []) by discriminate.
  destruct (BatchInsertThreats_cases now tdb (e0 :: es0) Hne)
    as [[e He]|(Hres & Hcopy & Hsteps)]; unfold err, tdb'; rewrite ?He, ?Hres; cbn [fst snd].
  - split; [discriminate|]. split; [done|]. split; [discriminate|].
    split.
    + intros Hins (H1 & H2 & H3 & H4 & H5). exfalso. revert He.
      unfold BatchInsertThreats. fold batch. rewrite H1, H2, H3.
      rewrite (proj2 (Hiff _) (conj eq_refl Hins)), H4, H5. discriminate.
    + intros _ _. discriminate.
  - fold batch in Hcopy. destruct (proj1 (Hiff _) Hcopy) as [_ Hins].
    split; [intros _ _; split; [exact Hins|]; split; [exact Hsteps|]; by split|].
    split; [done|]. split; [discriminate|].
    split; [done|]. intros _ Hnot. destruct Hnot. by split.
Qed.

Lemma BatchInsertThreats_all_or_nothing_witness :
  threat_domains (snd (BatchInsertThreats fixtures.t0 fixtures.emptyDB [fixtures.evil]))
    = [copyRow fixtures.t0 fixtures.evil]
  /\ snd (BatchInsertThreats fixtures.t0 fixtures.emptyDB fixtures.twoFeedsBatch)
     = fixtures.emptyDB.
Proof.
  assert (H1 : fst (BatchInsertThreats fixtures.t0 fixtures.emptyDB [fixtures.evil]) = None)
    by (vm_compute; reflexivity).
  assert (N1 : [fixtures.evil] <> []) by discriminate.
  assert (H2 : fst (BatchInsertThreats fixtures.t0 fixtures.emptyDB fixtures.twoFeedsBatch)
               <> None) by (vm_compute; discriminate).
  split.
  - destruct (proj1 (BatchInsertThreats_all_or_nothing fixtures.t0 fixtures.emptyDB
                       [fixtures.evil]) H1 N1) as (_ & _ & Htable & _).
    exact Htable.
  - exact (proj1 (proj2 (BatchInsertThreats_all_or_nothing fixtures.t0 fixtures.emptyDB
                           fixtures.twoFeedsBatch)) H2).
Defined.

End ThreatStore.

Section Updater.
Import time feeds feedsspec db updater.

Lemma Sub_mono (a b t : Time) : (a <= b)%Z -> (Sub a t <= Sub b t)%Z.
Proof. unfold Sub. lia. Qed.

Lemma due_mono (now later : Time) (feed : ThreatFeed) :
  (now <= later)%Z -> due now feed = true -> due later feed = true.
Proof.
  intros Hle. unfold due, Since. intros H. apply andb_true_iff in H as [-> H].
  apply negb_true_iff, Z.ltb_ge in H. apply negb_true_iff, Z.ltb_ge.
  pose proof (Sub_mono now later (LastUpdated feed) Hle). lia.
Qed.

Lemma adDue_mono (now later : Time) (feed : AdBlockFeed) :
  (now <= later)%Z -> adDue now feed = true -> adDue later feed = true.
Proof.
  intros Hle. unfold adDue, Since. intros H. apply andb_true_iff in H as [-> H].
  apply negb_true_iff, Z.ltb_ge in H. apply negb_true_iff, Z.ltb_ge.
  pose proof (Sub_mono now later (ab_LastUpdated feed) Hle). lia.
Qed.

Lemma concat_filter_mono {F : Type} (g : F -> list ThreatEntry) (p q : F -> bool)
  (l : list F) (e : ThreatEntry) :
  (forall x, p x = true -> q x = true) ->
  In e (concat (List.map g (List.filter p l))) ->
  In e (concat (List.map g (List.filter q l))).
Proof.
  intros Hpq Hin. apply in_concat in Hin as (got & Hgot & Hin).
  apply in_map_iff in Hgot as (x & <- & Hx). apply filter_In in Hx as [Hx Hp].
  apply in_concat. exists (g x). split; [|exact Hin].
  apply in_map_iff. exists x. split; [reflexivity|].
  apply filter_In. split; [exact Hx|by apply Hpq].
Qed.

(** The entries a cycle of the updater collects. *)
Lemma cycle_entries_mono (now later : Time)
  (updateFeed : ThreatFeed -> list ThreatEntry * error)
  (updateAdBlockFeed : AdBlockFeed -> list ThreatEntry * error)
  (tu : ThreatUpdater) (e : ThreatEntry) :
  (now <= later)%Z ->
  In e (entries (UpdateAllFeeds now updateFeed (feedManager tu))
        ++ entries (UpdateAllAdBlockFeeds now updateAdBlockFeed (adBlockManager tu)))%list ->
  In e (entries (UpdateAllFeeds later updateFeed (feedManager tu))
        ++ entries (UpdateAllAdBlockFeeds later updateAdBlockFeed (adBlockManager tu)))%list.
Proof.
  intros Hle. unfold UpdateAllFeeds, UpdateAllAdBlockFeeds.
  rewrite !rangeFeeds_cycle, !rangeAdBlockFeeds_cycle. cbn [entries app].
  intros Hin. apply in_or_app. apply in_app_or in Hin as [Hin|Hin]; [left|right].
  - apply (concat_filter_mono _ (due now)); [|exact Hin]. intros x. by apply due_mono.
  - apply (concat_filter_mono _ (adDue now)); [|exact Hin]. intros x. by apply adDue_mono.
Qed.

(** X21: the updater cannot repeat a run that stored something.  Take a run
    of [performUpdate] that returned no error and changed the threat table,
    and a later run on the table it left, against servers that answer as
    before and with every entry accepted by the per-entry [Exec].  The
    later run returns an error wrapped as "inserting threats: ..." and
    leaves the updater and the database as they were: the managers do not
    remember the update, so the feeds are due again, and the batch brings a
    domain that the table already has.  Which error it is depends on the
    driver: the COPY error, unless an earlier step of the transaction
    fails. *)
Theorem performUpdate_second_run_fails (now later : Time)
  (updateFeed : ThreatFeed -> list ThreatEntry * error)
  (updateAdBlockFeed : AdBlockFeed -> list ThreatEntry * error)
  (tu : ThreatUpdater) (tdb2 : ThreatDB) :
  (now <= later)%Z ->
  fst (performUpdate now updateFeed updateAdBlockFeed tu) = None ->
  let tu1 := snd (performUpdate now updateFeed updateAdBlockFeed tu) in
  threat_domains (threatDB tu1) <> threat_domains (threatDB tu) ->
  threat_domains tdb2 = threat_domains (threatDB tu1) ->
  (forall entry, callErr tdb2 (AppendRow entry) = None) ->
  let tu2 := withThreatDB tu1 tdb2 in
  exists e,
    performUpdate later updateFeed updateAdBlockFeed tu2
      = (Some ("inserting threats: " ++ e), tu2).
Proof.
  intros Hle Hok tu1 Hchanged Htable Happend tu2.
  pose proof (cycle_entries_mono now later updateFeed updateAdBlockFeed tu) as Hmono.
  set (all1 := (entries (UpdateAllFeeds now updateFeed (feedManager tu))
                ++ entries (UpdateAllAdBlockFeeds now updateAdBlockFeed
                              (adBlockManager tu)))%list) in *.
  set (all2 := (entries (UpdateAllFeeds later updateFeed (feedManager tu))
                ++ entries (UpdateAllAdBlockFeeds later updateAdBlockFeed
                              (adBlockManager tu)))%list) in *.
  (* the first run *)
  assert (Hfirst : exists e1,
             In e1 all1
             /\ hasDomain (Domain e1) (threat_domains (threatDB tu1)) = true
             /\ feedManager tu1 = feedManager tu
             /\ adBlockManager tu1 = adBlockManager tu).
  { unfold tu1 in *. unfold performUpdate in Hok, Hchanged |- *. fold all1 in Hok, Hchanged |- *.
    destruct all1 as [|a rest] eqn:Hall1; [by destruct Hchanged|].
    cbn [length Nat.eqb] in *.
    assert (Hne : a :: rest <> []) by discriminate.
    destruct (BatchInsertThreats_cases now (threatDB tu) (a :: rest) Hne)
      as [[e He]|(Hres & _)]; rewrite ?He, ?Hres in *; [discriminate|].
    cbn [snd withThreatDB threatDB withRows threat_domains feedManager adBlockManager]
      in Hchanged |- *.
    destruct (List.filter (appended (threatDB tu)) (a :: rest)) as [|e1 batch] eqn:Hbatch.
    { destruct Hchanged. cbn. by rewrite app_nil_r. }
    exists e1. split.
    - assert (Hin : In e1 (List.filter (appended (threatDB tu)) (a :: rest)))
        by (rewrite Hbatch; by left).
      by apply filter_In in Hin as [Hin _].
    - split; [|by split]. rewrite hasDomain_app. apply orb_true_iff. right.
      unfold hasDomain. cbn. by rewrite String.eqb_refl. }
  destruct Hfirst as (e1 & Hin1 & Hdup & Hfm & Habm).
  (* the later run *)
  assert (Hin2 : In e1 all2) by (apply Hmono; [exact Hle|exact Hin1]).
  unfold performUpdate, tu2. cbn [withThreatDB feedManager adBlockManager threatDB].
  rewrite Hfm, Habm. fold all2.
  destruct all2 as [|a2 rest2] eqn:Hall2; [done|]. cbn [length Nat.eqb].
  assert (Hne : a2 :: rest2 <> []) by discriminate.
  destruct (BatchInsertThreats_cases later tdb2 (a2 :: rest2) Hne)
    as [[e He]|(_ & Hcopy & _)].
  - rewrite He. exists e. reflexivity.
  - exfalso.
    assert (Hconf : copyIn (threat_domains tdb2)
                      (List.map (copyRow later)
                         (List.filter (appended tdb2) (a2 :: rest2))) = None).
    { apply (copyIn_conflict _ _ (copyRow later e1)).
      - apply list_elem_of_In, in_map, filter_In. split; [exact Hin2|].
        unfold appended. by rewrite Happend.
      - rewrite Htable. exact Hdup. }
    congruence.
Qed.

Lemma performUpdate_second_run_fails_witness :
  let tu := {| feedManager := NewFeedManager; adBlockManager := NewAdBlockManager;
               threatDB := fixtures.emptyDB |} in
  let fetchNone := fun _ : AdBlockFeed => ([] : list ThreatEntry, Some "timeout") in
  let tu1 := snd (performUpdate fixtures.t0 fixtures.fetchUrlhaus fetchNone tu) in
  exists e,
    performUpdate (fixtures.t0 + 5 * Minute)%Z fixtures.fetchUrlhaus fetchNone
      (withThreatDB tu1 (threatDB tu1))
    = (Some ("inserting threats: " ++ e), withThreatDB tu1 (threatDB tu1)).
Proof.
  intros tu fetchNone tu1.
  assert (H1 : (fixtures.t0 <= fixtures.t0 + 5 * Minute)%Z) by (vm_compute; discriminate).
  assert (H2 : fst (performUpdate fixtures.t0 fixtures.fetchUrlhaus fetchNone tu) = None)
    by (vm_compute; reflexivity).
  assert (H3 : threat_domains (threatDB tu1) <> threat_domains (threatDB tu))
    by (vm_compute; discriminate).
  assert (H4 : threat_domains (threatDB tu1) = threat_domains (threatDB tu1)) by reflexivity.
  assert (H5 : forall entry, callErr (threatDB tu1) (AppendRow entry) = None)
    by (intros entry; reflexivity).
  exact (performUpdate_second_run_fails fixtures.t0 (fixtures.t0 + 5 * Minute)%Z
           fixtures.fetchUrlhaus fetchNone tu (threatDB tu1) H1 H2 H3 H4 H5).
Defined.

End Updater.

Section HandlerInvariants.
Import time dns dnsspec.

Lemma handleQuestion_frame (w : World) (s s' : Server) (msg msg' : Msg) (q : Question)
  (broke : bool) :
  handleQuestion w s msg q = (s', msg', broke) -> framed s s' msg msg' broke.
Proof.
  unfold handleQuestion, framed, logDNSQuery, db.LogDNSQuery.
  destruct (shouldBlockDomain _ _ _ _) as [[[blocked t] err] c].
  destruct blocked.
  - intros [= <- <- <-].
    destruct err; cbn; destruct (db.callErr _ db.ExecInsertLog); cbn;
      rewrite ?length_app; cbn;
      (repeat split; try lia; try discriminate; try (by exists []; rewrite app_nil_r);
       try (right; by left); try (right; split; [lia|reflexivity])).
  - destruct (forwardToUpstream _ _ _ _) as [answer [e|]].
    + intros [= <- <- <-]. destruct err; cbn;
        (repeat split; try lia; try (by exists []; rewrite app_nil_r);
         try (right; by right); try (by left)).
    + destruct answer as [|rr answer]; intros [= <- <- <-]; destruct err; cbn;
        try (destruct (db.callErr _ db.ExecInsertLog)); cbn; rewrite ?length_app; cbn;
        (repeat split; try lia; try discriminate; try (by exists []; rewrite app_nil_r);
         try (by eexists); try (by left)).
Qed.

Lemma rangeQuestions_frame (w : World) (qs : list Question) (s s' : Server)
  (msg msg' : Msg) (broke : bool) :
  rangeQuestions w s msg qs = (s', msg', broke) -> framed s s' msg msg' broke.
Proof.
  revert s msg. induction qs as [|q qs IH]; intros s msg; simpl.
  - intros [= <- <- <-]. unfold framed. repeat split; try lia; try (by left).
    exists []. by rewrite app_nil_r.
  - destruct (handleQuestion w s msg q) as [[s1 msg1] b1] eqn:Hq.
    pose proof (handleQuestion_frame _ _ _ _ _ _ _ Hq) as H1.
    destruct b1.
    + by intros [= <- <- <-].
    + intros Hrest. pose proof (IH _ _ Hrest) as H2. unfold framed in *.
      destruct H1 as (Ht & Hc & Hn & Hrc & [x1 Hans] & Hmono & Hle & Heq & Hbl & Hal & Her).
      destruct H2 as (Ht' & Hc' & Hn' & Hrc' & [x2 Hans'] & Hmono' & Hle' & Heq' & Hbl'
                      & Hal' & Her').
      destruct Hbl as [Hbl|[_ ?]]; [|done].
      split; [congruence|]. split; [congruence|]. split; [congruence|]. split.
      { destruct Hrc' as [E|[E|E]]; rewrite E; [exact Hrc|right; by left|right; by right]. }
      split; [exists (x1 ++ x2)%list; by rewrite Hans', Hans, app_assoc|].
      split; [lia|]. split; [lia|]. split.
      { intros Hok. specialize (Heq Hok). rewrite Hc in Heq'. specialize (Heq' Hok). lia. }
      split; [|split; lia].
      destruct Hbl' as [E|[E ->]]; rewrite E, Hbl; [by left|by right].
Qed.

(** X22: the response to any request, whatever the database, the cache and
    the upstreams do.  It is never authoritative and always offers
    recursion; its id, its question section and its response bit are those
    [SetReply] gave it; its code is that of [SetReply], NXDOMAIN or
    SERVFAIL; its answer section extends that of [SetReply].  The handler
    leaves the list of upstreams and the threat table as they are. *)
Theorem handleDNSRequest_response_invariants (SetReply : Msg -> Msg) (w : World)
  (s : Server) (r : Msg) :
  let s' := fst (handleDNSRequest SetReply w s r) in
  let msg := snd (handleDNSRequest SetReply w s r) in
  Authoritative msg = false
  /\ RecursionAvailable msg = true
  /\ Id msg = Id (SetReply r)
  /\ Questions msg = Questions (SetReply r)
  /\ Response msg = Response (SetReply r)
  /\ (Rcode msg = Rcode (SetReply r) \/ Rcode msg = RcodeNameError
      \/ Rcode msg = RcodeServerFailure)
  /\ (exists extra, Answer msg = (Answer (SetReply r) ++ extra)%list)
  /\ upstreams s' = upstreams s
  /\ db.threat_domains (db.threatDB (database s'))
     = db.threat_domains (db.threatDB (database s)).
Proof.
  unfold handleDNSRequest.
  destruct (rangeQuestions w (withMetrics s (incQueries (metrics s)))
              (setFlags (SetReply r)) (Questions r)) as [[s1 msg1] b] eqn:Hloop.
  pose proof (rangeQuestions_header _ _ _ _ _ _ _ Hloop) as (Hid & Hqs & Hresp & Hauth & Hra).
  pose proof (rangeQuestions_upstreams _ _ _ _ _ _ _ Hloop) as Hups.
  pose proof (rangeQuestions_frame _ _ _ _ _ _ _ Hloop) as (Ht & _ & _ & Hrc & Hans & _).
  cbn [fst snd]. repeat split; try done; by destruct (isNil (writeErr w)).
Qed.

(** X23: the counters and the query log after any request, once the logging
    goroutines it started have run.  The request counts once in
    [DNSQueriesTotal]; no row leaves the query log, and every row added to
    it is matched by one increment of [DNSBlocked] or [DNSAllowed]; a
    counted query whose insert fails leaves no row, so the rows added can
    be fewer than the increments, and they are as many when the driver
    accepts the inserts; at most one question of a request is counted as
    blocked; no counter goes down. *)
Theorem handleDNSRequest_accounting (SetReply : Msg -> Msg) (w : World) (s : Server)
  (r : Msg) :
  let s' := fst (handleDNSRequest SetReply w s r) in
  let logged (x : Server) := N.of_nat (length (db.dns_logs (db.threatDB (database x)))) in
  (DNSQueriesTotal (metrics s') = DNSQueriesTotal (metrics s) + 1)%N
  /\ (logged s <= logged s')%N
  /\ (logged s' + DNSBlocked (metrics s) + DNSAllowed (metrics s)
      <= logged s + DNSBlocked (metrics s') + DNSAllowed (metrics s'))%N
  /\ (db.callErr (db.threatDB (database s)) db.ExecInsertLog = None ->
      (logged s' + DNSBlocked (metrics s) + DNSAllowed (metrics s)
       = logged s + DNSBlocked (metrics s') + DNSAllowed (metrics s'))%N)
  /\ (DNSBlocked (metrics s') = DNSBlocked (metrics s)
      \/ DNSBlocked (metrics s') = DNSBlocked (metrics s) + 1)%N
  /\ (DNSAllowed (metrics s) <= DNSAllowed (metrics s'))%N
  /\ (DNSErrors (metrics s) <= DNSErrors (metrics s'))%N.
Proof.
  unfold handleDNSRequest.
  destruct (rangeQuestions w (withMetrics s (incQueries (metrics s)))
              (setFlags (SetReply r)) (Questions r)) as [[s1 msg1] b] eqn:Hloop.
  pose proof (rangeQuestions_frame _ _ _ _ _ _ _ Hloop)
    as (_ & _ & Hn & _ & _ & Hmono & Hle & Heq & Hbl & Hal & Her).
  cbn in Hn, Hmono, Hle, Heq, Hbl, Hal, Her.
  destruct (isNil (writeErr w)); cbn; repeat split; try lia; intros Hok;
    specialize (Heq Hok); lia.
Qed.

Lemma handleDNSRequest_accounting_witness :
  let s' := fst (handleDNSRequest SetReply fixtures.world1 fixtures.server1
                   (fixtures.query 11 ["doubleclick.net."])) in
  let logged (x : Server) := N.of_nat (length (db.dns_logs (db.threatDB (database x)))) in
  (logged s' + DNSBlocked (metrics fixtures.server1) + DNSAllowed (metrics fixtures.server1)
   = logged fixtures.server1 + DNSBlocked (metrics s') + DNSAllowed (metrics s'))%N.
Proof.
  intros s' logged.
  assert (Hok : db.callErr (db.threatDB (database fixtures.server1)) db.ExecInsertLog = None)
    by reflexivity.
  destruct (handleDNSRequest_accounting SetReply fixtures.world1 fixtures.server1
              (fixtures.query 11 ["doubleclick.net."])) as (_ & _ & _ & Heq & _).
  exact (Heq Hok).
Defined.

End HandlerInvariants.

Section ClassifierCache.
Import time dns dnsspec.

Lemma checkParents_Some (now : Time) (database : db.Connection) (parents : list string)
  (t : string) :
  checkParents now database parents = Some t ->
  exists p, In p parents /\ blockable now database p t.
Proof.
  induction parents as [|p rest IH]; simpl; [done|].
  destruct (db.CheckThreatDomain now database p) as [pt [e|]] eqn:Hp.
  - intros H. destruct (IH H) as (p' & Hin & Hb). exists p'. split; [by right|done].
  - destruct (String.eqb_spec pt EmptyString) as [->|Hne]; simpl.
    + intros H. destruct (IH H) as (p' & Hin & Hb). exists p'. split; [by right|done].
    + intros [= <-]. exists p. split; [by left|]. by split.
Qed.

Lemma checkParents_None (now : Time) (database : db.Connection) (parents : list string) :
  checkParents now database parents = None ->
  forall p t, In p parents -> ~ blockable now database p t.
Proof.
  induction parents as [|p rest IH]; simpl; [by intros _ p t []|].
  destruct (db.CheckThreatDomain now database p) as [pt [e|]] eqn:Hp.
  - intros H p' t [<-|Hin]; [|by apply IH]. intros [Hb _]. congruence.
  - destruct (String.eqb_spec pt EmptyString) as [->|Hne]; simpl; [|done].
    intros H p' t [<-|Hin]; [|by apply IH]. intros [Hb Hne]. congruence.
Qed.





Lemma Get_other_key (now : Time) (c : cache.MockRedisClient) (key k : string) :
  k <> key ->
  cache.data (snd (cache.Get now c key)) !! k = cache.data c !! k
  /\ cache.closed (snd (cache.Get now c key)) = cache.closed c.
Proof.
  intros Hne. unfold cache.Get. destruct (cache.closed c) eqn:Hc; [cbn; by rewrite Hc|].
  destruct (cache.data c !! key) as [v|]; [|cbn; by rewrite Hc].
  destruct (cache.expired now v); cbn; rewrite ?Hc; [|done].
  by rewrite lookup_delete_ne.
Qed.

Lemma Set_other_key (now : Time) (c : cache.MockRedisClient) (key val k : string)
  (ttl : Duration) :
  k <> key ->
  cache.data (snd (cache.Set_ now c key val ttl)) !! k = cache.data c !! k
  /\ cache.closed (snd (cache.Set_ now c key val ttl)) = cache.closed c.
Proof.
  intros Hne. unfold cache.Set_. destruct (cache.closed c) eqn:Hc; cbn; rewrite ?Hc; [done|].
  by rewrite lookup_insert_ne.
Qed.

Lemma cacheKey_inj (d d' : string) : cacheKey d = cacheKey d' -> d = d'.
Proof. unfold cacheKey. cbn [append]. by intros [= H]. Qed.

(** X26: the classifier touches one cache entry.  Classifying a domain
    leaves every entry stored under another key as it was, in particular
    the verdict cached for any other domain, and never closes or reopens
    the client. *)
Theorem shouldBlockDomain_frame (now : Time) (database : db.Connection)
  (c : cache.MockRedisClient) (d : string) :
  let c' := snd (shouldBlockDomain now database c d) in
  (forall k, k <> cacheKey d -> cache.data c' !! k = cache.data c !! k)
  /\ (forall d', d' <> d -> cache.data c' !! cacheKey d' = cache.data c !! cacheKey d')
  /\ cache.closed c' = cache.closed c.
Proof.
  intros c'.
  assert (Hkeys : forall k, k <> cacheKey d -> cache.data c' !! k = cache.data c !! k).
  { intros k Hne.
    assert (Hset : forall val ttl,
               cache.data (snd (cache.Set_ now (snd (cache.Get now c (cacheKey d)))
                                  (cacheKey d) val ttl)) !! k = cache.data c !! k).
    { intros val ttl.
      destruct (Set_other_key now (snd (cache.Get now c (cacheKey d))) (cacheKey d) val k ttl
                  Hne) as [-> _]. by apply Get_other_key. }
    pose proof (Get_other_key now c (cacheKey d) k Hne) as [Hg _].
    unfold c', shouldBlockDomain.
    destruct (cache.Get now c (cacheKey d)) as [[cached err] c1]. cbn [snd] in Hset, Hg.
    repeat (match goal with
            | |- context [if ?b then _ else _] => destruct b
            | |- context [match ?x with _ => _ end] => destruct x
            end; cbn [snd]; try exact Hg; try apply Hset). }
  split; [exact Hkeys|]. split.
  - intros d' Hne. apply Hkeys. intros Heq. by apply cacheKey_inj in Heq.
  - assert (Hset : forall val ttl,
               cache.closed (snd (cache.Set_ now (snd (cache.Get now c (cacheKey d)))
                                    (cacheKey d) val ttl)) = cache.closed c).
    { intros val ttl. unfold cache.Set_, cache.Get.
      destruct (cache.closed c) eqn:Hc; cbn; rewrite ?Hc; [done|].
      destruct (cache.data c !! cacheKey d) as [v|]; cbn; rewrite ?Hc; [|done].
      destruct (cache.expired now v); cbn; by rewrite ?Hc. }
    assert (Hg : cache.closed (snd (cache.Get now c (cacheKey d))) = cache.closed c).
    { unfold cache.Get. destruct (cache.closed c) eqn:Hc; cbn; rewrite ?Hc; [done|].
      destruct (cache.data c !! cacheKey d) as [v|]; cbn; rewrite ?Hc; [|done].
      by destruct (cache.expired now v). }
    unfold c', shouldBlockDomain.
    destruct (cache.Get now c (cacheKey d)) as [[cached err] c1]. cbn [snd] in Hset, Hg.
    repeat (match goal with
            | |- context [if ?b then _ else _] => destruct b
            | |- context [match ?x with _ => _ end] => destruct x
            end; cbn [snd]; try exact Hg; try apply Hset).
Qed.

Lemma shouldBlockDomain_frame_witness :
  cache.data (snd (shouldBlockDomain (fixtures.t0 + Minute)%Z
                     {| db.threatDB := fixtures.doubleclickDB |}
                     fixtures.cachedAllowed "doubleclick.net"))
    !! cacheKey "example.com"
  = cache.data fixtures.cachedAllowed !! cacheKey "example.com".
Proof.
  assert (H : "example.com" <> "doubleclick.net") by discriminate.
  exact (proj1 (proj2 (shouldBlockDomain_frame (fixtures.t0 + Minute)%Z
                         {| db.threatDB := fixtures.doubleclickDB |}
                         fixtures.cachedAllowed "doubleclick.net")) "example.com" H).
Defined.

(** X27: every answer of the forwarder is explained by one upstream.  When
    [forwardToUpstream] returns without an error, some upstream of the list
    answered, every upstream before it failed or answered with another
    outcome, and either that upstream answered Success with the records
    returned, or it answered NXDOMAIN and no record is returned. *)
Theorem forwardToUpstream_answer_source (w : World) (ups : list string) (q : Question)
  (d : string) (answer : list RR) :
  forwardToUpstream w ups q d = (answer, None) ->
  exists pre u post response,
    ups = (pre ++ u :: post)%list
    /\ Forall (fun x => movesOn (exchange w x d (Qtype q)) = true) pre
    /\ exchange w u d (Qtype q) = ExchangeOk response
    /\ ((Rcode response = RcodeSuccess /\ Answer response <> [] /\ answer = Answer response)
        \/ (Rcode response = RcodeNameError /\ answer = [])).
Proof.
  induction ups as [|u rest IH]; simpl; [discriminate|].
  destruct (exchange w u d (Qtype q)) as [e|response] eqn:Hx.
  - intros H. destruct (IH H) as (pre & u' & post & resp & -> & Hpre & Hu & Hcase).
    exists (u :: pre), u', post, resp. split; [reflexivity|].
    split; [|by split]. constructor; [by rewrite Hx|exact Hpre].
  - destruct (N.eqb_spec (Rcode response) RcodeSuccess) as [Hs|Hs]; cbn [andb].
    + destruct (Answer response) as [|rr rrs] eqn:Ha; cbn [length Nat.ltb Nat.leb].
      * rewrite Hs. cbn. intros H.
        destruct (IH H) as (pre & u' & post & resp & -> & Hpre & Hu & Hcase).
        exists (u :: pre), u', post, resp. split; [reflexivity|].
        split; [|by split]. constructor; [|exact Hpre].
        rewrite Hx. unfold movesOn. by rewrite Hs, Ha.
      * intros [= <-]. exists [], u, rest, response. split; [reflexivity|].
        split; [constructor|]. split; [exact Hx|]. left. by rewrite Ha.
    + destruct (N.eqb_spec (Rcode response) RcodeNameError) as [Hn|Hn].
      * intros [= <-]. exists [], u, rest, response. split; [reflexivity|].
        split; [constructor|]. split; [exact Hx|]. by right.
      * intros H. destruct (IH H) as (pre & u' & post & resp & -> & Hpre & Hu & Hcase).
        exists (u :: pre), u', post, resp. split; [reflexivity|].
        split; [|by split]. constructor; [|exact Hpre].
        rewrite Hx. unfold movesOn.
        destruct (N.eqb_spec (Rcode response) RcodeSuccess); [done|].
        by destruct (N.eqb_spec (Rcode response) RcodeNameError).
Qed.

Lemma forwardToUpstream_answer_source_witness :
  exists pre u post response,
    ["1.1.1.1:53"; "8.8.8.8:53"] = (pre ++ u :: post)%list
    /\ exchange fixtures.world1 u "flaky.example" 1 = ExchangeOk response
    /\ Forall (fun x => movesOn (exchange fixtures.world1 x "flaky.example" 1) = true) pre.
Proof.
  assert (H : forwardToUpstream fixtures.world1 ["1.1.1.1:53"; "8.8.8.8:53"]
                (fixtures.questionA "flaky.example.") "flaky.example"
              = ([fixtures.aRecord "flaky.example." "10.0.0.2"], None))
    by (vm_compute; reflexivity).
  destruct (forwardToUpstream_answer_source fixtures.world1 ["1.1.1.1:53"; "8.8.8.8:53"]
              (fixtures.questionA "flaky.example.") "flaky.example" _ H)
    as (pre & u & post & response & Hups & Hpre & Hu & _).
  exists pre, u, post, response. by repeat split.
Defined.

End ClassifierCache.

Section Metrics.
Import metrics metricsspec.

Context {float64 : Type}.

Lemma series_incLabel (vec : gmap string N) (label l : string) :
  series (incLabel vec label) l
    = (series vec l + if String.eqb label l then 1 else 0)%N.
Proof.
  unfold series, incLabel. destruct (String.eqb_spec label l) as [->|Hne].
  - rewrite lookup_insert_eq. reflexivity.
  - rewrite lookup_insert_ne by done. cbn. lia.
Qed.

Lemma incLabel_empty_label (vec : gmap string N) (label : string) :
  label <> EmptyString -> vec !! EmptyString = None ->
  incLabel vec label !! EmptyString = None.
Proof. intros Hne Hvec. unfold incLabel. by rewrite lookup_insert_ne. Qed.

Lemma RecordDNSQuery_step (c : Collector float64) (qt : string) (rt : float64)
  (blocked : bool) (tt : string) :
  let c' := RecordDNSQuery c qt rt blocked tt in
  DNSQueriesTotal c' = (DNSQueriesTotal c + 1)%N
  /\ DNSResponseTime c' = (DNSResponseTime c ++ [rt])%list
  /\ DNSBlocked c' = (DNSBlocked c + if blocked then 1 else 0)%N
  /\ DNSAllowed c' = (DNSAllowed c + if negb blocked then 1 else 0)%N
  /\ (forall l, series (DNSQueriesByType c') l
                = (series (DNSQueriesByType c) l + if String.eqb qt l then 1 else 0)%N)
  /\ (forall t, t <> EmptyString ->
                series (ThreatsByType c') t
                = (series (ThreatsByType c) t
                   + if blocked && String.eqb tt t then 1 else 0)%N)
  /\ (ThreatsByType c !! EmptyString = None -> ThreatsByType c' !! EmptyString = None).
Proof.
  unfold RecordDNSQuery. destruct blocked; cbn.
  - repeat split; try lia.
    + intros l. apply series_incLabel.
    + intros t Hne. destruct (String.eqb_spec tt EmptyString) as [->|Htt]; cbn.
      * destruct t; [done|]. cbn. lia.
      * apply series_incLabel.
    + intros Hempty. destruct (String.eqb_spec tt EmptyString) as [->|Htt]; cbn; [done|].
      by apply incLabel_empty_label.
  - repeat split; try lia; try done.
    intros l. apply series_incLabel.
Qed.

Lemma count_cons (p : Query float64 -> bool) (q : Query float64)
  (queries : list (Query float64)) :
  count p (q :: queries) = ((if p q then 1 else 0) + count p queries)%N.
Proof. unfold count. cbn [List.filter]. destruct (p q); cbn [length]; lia. Qed.

Lemma count_ext (p p' : Query float64 -> bool) (queries : list (Query float64)) :
  (forall q, p q = p' q) -> count p queries = count p' queries.
Proof.
  intros H. induction queries as [|q qs IH]; [reflexivity|].
  by rewrite !count_cons, H, IH.
Qed.

Lemma count_false (queries : list (Query float64)) : count (fun _ => false) queries = 0%N.
Proof. induction queries as [|q qs IH]; [reflexivity|]. by rewrite count_cons, IH. Qed.

Lemma recordAll_from (queries : list (Query float64)) (c : Collector float64) :
  let c' := recordAll queries c in
  DNSQueriesTotal c' = (DNSQueriesTotal c + N.of_nat (length queries))%N
  /\ DNSResponseTime c'
     = (DNSResponseTime c ++ List.map (fun '(_, rt, _, _) => rt) queries)%list
  /\ DNSBlocked c' = (DNSBlocked c + count (fun '(_, _, blocked, _) => blocked) queries)%N
  /\ DNSAllowed c'
     = (DNSAllowed c + count (fun '(_, _, blocked, _) => negb blocked) queries)%N
  /\ (forall qt, series (DNSQueriesByType c') qt
                 = (series (DNSQueriesByType c) qt
                    + count (fun '(queryType, _, _, _) => String.eqb queryType qt) queries)%N)
  /\ (forall t, t <> EmptyString ->
                series (ThreatsByType c') t
                = (series (ThreatsByType c) t
                   + count (fun '(_, _, blocked, threatType) =>
                              blocked && String.eqb threatType t) queries)%N)
  /\ (ThreatsByType c !! EmptyString = None -> ThreatsByType c' !! EmptyString = None).
Proof.
  revert c. induction queries as [|[[[qt rt] blocked] tt] queries IH]; intros c.
  - cbn. unfold count. cbn. rewrite app_nil_r. repeat split; try lia; try done; intros; lia.
  - cbn [recordAll fold_left]. fold (recordAll queries (RecordDNSQuery c qt rt blocked tt)).
    destruct (IH (RecordDNSQuery c qt rt blocked tt)) as (Ht & Ho & Hb & Ha & Hq & Hth & He).
    destruct (RecordDNSQuery_step c qt rt blocked tt) as (St & So & Sb & Sa & Sq & Sth & Se).
    cbn zeta in *. rewrite !count_cons. cbn [length List.map].
    split; [lia|]. split; [by rewrite Ho, So, <- app_assoc|].
    split; [lia|]. split; [lia|]. split; [|split].
    + intros l. rewrite Hq, Sq, count_cons. lia.
    + intros t Hne. rewrite (Hth t Hne), (Sth t Hne), count_cons. lia.
    + intros Hempty. by apply He, Se.
Qed.


End Metrics.
